(** * Lab-report intelligence agent: extractor, reference catalog, classifier and scorer

    A shallow embedding of [normal_ranges.py], [parser.py] and [analyzer.py],
    and the properties of the specification proved (or refuted) on it; then
    the extraction of the text of a PDF and the functions of [app.py] that
    compute the banner and the risk categories from a report, with more
    properties of the whole.

    - Python exceptions are an error monad ([result]).
    - Python [float] is an interface ([PyFloat]) that the functions of the
      program are written against once.  It has two instances: [B64.binary64], the
      IEEE 754 binary64 numbers with round-to-nearest-even that CPython
      computes with (built on [SpecFloat]), and [Exact.rational], the rationals, in
      which every operation is exact.
    - Python [str] is [string] read as a sequence of code points 0..255;
      whitespace, digits, word characters and lower-casing are those of
      Python on that range.
    - A [dict] whose iteration order is observed is an association list in
      insertion order. *)

From Stdlib Require Import Bool List Arith ZArith Lia String Ascii.
From Stdlib Require Import QArith Qround Qabs Lqa.
From Stdlib Require Import SpecFloat.
From Stdlib Require Import Permutation Sorted DecimalString.
Import ListNotations.

Local Open Scope string_scope.
Local Open Scope Z_scope.

(** ** Exceptions *)

Inductive exn : Type :=
| ZeroDivisionError
| ValueError
| OverflowError
| KeyError.

Inductive result (A : Type) : Type :=
| Ok (a : A)
| Raise (e : exn).

Arguments Ok {A} a.
Arguments Raise {A} e.

Definition bind {A B : Type} (m : result A) (f : A -> result B) : result B :=
  match m with
  | Ok a => f a
  | Raise e => Raise e
  end.

Notation "x <- m ;; k" := (bind m (fun x => k))
  (at level 61, m at next level, right associativity).
Notation "' p <- m ;; k" := (bind m (fun p => k))
  (at level 61, p pattern, m at next level, right associativity).

Definition returns {A : Type} (m : result A) : Prop := exists a, m = Ok a.

(** ** Python floats, as an interface *)

Class PyFloat : Type := {
  F : Type;
  (** [of_ratio n d]: the float nearest to the fraction [n/d].  It is the
      value of a decimal literal, of [float(s)] on a decimal string, of an
      [int] operand converted to float, and of [int / int]. *)
  of_ratio : Z -> positive -> F;
  fadd : F -> F -> F;
  fsub : F -> F -> F;
  fmul : F -> F -> F;
  (** the quotient when the divisor is not zero *)
  fquot : F -> F -> F;
  fabs : F -> F;
  feqb : F -> F -> bool;
  fltb : F -> F -> bool;
  fleb : F -> F -> bool;
  (** [round(x, 1)] *)
  round1 : F -> F;
  (** [round(x)], an [int]; raises on nan and on the infinities *)
  round_int : F -> result Z;

  (** laws used by the proofs that hold for every arithmetic *)
  one_is_not_zero : feqb (of_ratio 10 10) (of_ratio 0 1) = false;
  fltb_fleb : forall a b, fltb a b = true -> fleb a b = true;
  fleb_refl_r : forall a b, fleb a b = true -> fleb b b = true;
  fltb_not_fleb : forall a b, fltb a b = true -> fleb b a = false;
  fleb_fltb_trans : forall a b c,
      fleb a b = true -> fltb b c = true -> fltb a c = true;
  not_fleb_fltb : forall a b,
      fleb a a = true -> fleb b b = true -> fleb a b = false -> fltb b a = true;
  of_int_lt : forall a b : Z,
      0 <= a -> a < b -> b <= 100 ->
      fltb (of_ratio a 1) (of_ratio b 1) = true;
  of_int_refl : forall a : Z, 0 <= a <= 100 -> fleb (of_ratio a 1) (of_ratio a 1) = true
}.

Section Arith.
Context {PF : PyFloat}.

Definition of_int (z : Z) : F := of_ratio z 1.

(** [x / y] on floats: ZeroDivisionError when [y == 0]. *)
Definition fdiv (x y : F) : result F :=
  if feqb y (of_int 0) then Raise ZeroDivisionError else Ok (fquot x y).

(** [min(a, b)]: the first argument unless the second is smaller. *)
Definition py_min (a b : F) : F := if fltb b a then b else a.

(** [max(a, b)] on ints. *)
Definition py_max (a b : Z) : Z := if a <? b then b else a.
End Arith.

(** ** Python strings on the code points 0..255 *)

Module Str.

Definition code (c : ascii) : N := N_of_ascii c.

Definition in_range (lo hi : N) (c : ascii) : bool :=
  ((lo <=? code c) && (code c <=? hi))%N.

(** [str.isspace], which is also [\s] of [re] *)
Definition is_space (c : ascii) : bool :=
  in_range 9 13 c || in_range 28 32 c || (code c =? 133)%N || (code c =? 160)%N.

(** [\d] of [re] *)
Definition is_digit (c : ascii) : bool := in_range 48 57 c.

Definition is_ascii_letter (c : ascii) : bool :=
  in_range 65 90 c || in_range 97 122 c.

(** [\w] of [re]: alphanumeric (in Python's sense) or underscore *)
Definition is_word (c : ascii) : bool :=
  is_digit c || is_ascii_letter c || (code c =? 95)%N
  || (code c =? 170)%N || (code c =? 178)%N || (code c =? 179)%N
  || (code c =? 181)%N || (code c =? 185)%N || (code c =? 186)%N
  || in_range 188 190 c || in_range 192 214 c || in_range 216 246 c
  || in_range 248 255 c.

(** the line boundaries of [str.splitlines] *)
Definition is_linebreak (c : ascii) : bool :=
  in_range 10 13 c || in_range 28 30 c || (code c =? 133)%N.

Definition lower_char (c : ascii) : ascii :=
  if in_range 65 90 c || in_range 192 214 c || in_range 216 222 c
  then ascii_of_N (code c + 32)
  else c.

(** [s.lower()] *)
Fixpoint lower (s : string) : string :=
  match s with
  | EmptyString => EmptyString
  | String c s' => String (lower_char c) (lower s')
  end.

Fixpoint lstrip_by (p : ascii -> bool) (s : string) : string :=
  match s with
  | EmptyString => EmptyString
  | String c s' => if p c then lstrip_by p s' else s
  end.

Fixpoint rstrip_by (p : ascii -> bool) (s : string) : string :=
  match s with
  | EmptyString => EmptyString
  | String c s' =>
      match rstrip_by p s' with
      | EmptyString => if p c then EmptyString else String c EmptyString
      | t => String c t
      end
  end.

(** [s.strip()] *)
Definition strip (s : string) : string := rstrip_by is_space (lstrip_by is_space s).

(** [c in chars] *)
Fixpoint one_of (chars : string) (c : ascii) : bool :=
  match chars with
  | EmptyString => false
  | String d chars' => Ascii.eqb c d || one_of chars' c
  end.

(** [s.rstrip(chars)] *)
Definition rstrip_chars (chars : string) (s : string) : string :=
  rstrip_by (one_of chars) s.

(** [text.splitlines()]: [cur] is the line read so far. *)
Fixpoint splitlines_from (cur : string) (s : string) {struct s} : list string :=
  match s with
  | EmptyString => match cur with EmptyString => [] | _ => [cur] end
  | String c s' =>
      if (code c =? 13)%N then
        match s' with
        | String d s'' =>
            if (code d =? 10)%N then cur :: splitlines_from EmptyString s''
            else cur :: splitlines_from EmptyString s'
        | EmptyString => [cur]
        end
      else if is_linebreak c then cur :: splitlines_from EmptyString s'
      else splitlines_from (cur ++ String c EmptyString) s'
  end.

Definition splitlines (s : string) : list string := splitlines_from EmptyString s.

(** [re.sub(r"\s+", " ", s)]: [in_run] says that the previous character
    was whitespace, already replaced. *)
Fixpoint sub_spaces (in_run : bool) (s : string) : string :=
  match s with
  | EmptyString => EmptyString
  | String c s' =>
      if is_space c
      then (if in_run then sub_spaces true s' else String " " (sub_spaces true s'))
      else String c (sub_spaces false s')
  end.

(** the value of a string of decimal digits, [None] if another character
    occurs *)
Fixpoint digits_value (acc : Z) (s : string) : option Z :=
  match s with
  | EmptyString => Some acc
  | String c s' =>
      if is_digit c
      then digits_value (10 * acc + (Z.of_N (code c) - 48)) s'
      else None
  end.

(** the text before the first ["."] and the text after it, if there is one *)
Fixpoint split_dot (s : string) : string * option string :=
  match s with
  | EmptyString => (EmptyString, None)
  | String c s' =>
      if Ascii.eqb c "." then (EmptyString, Some s')
      else let '(a, b) := split_dot s' in (String c a, b)
  end.

End Str.

(** ** Regular expressions: the fragment of [re] that [parser.py] uses

    Matching is by backtracking in the order of [re]: a greedy repetition
    tries one more character first, a lazy one tries to stop first, an
    alternation tries its left branch first. *)

Module Re.

Inductive regex : Type :=
| Eps : regex
| Chr : (ascii -> bool) -> regex                          (* one character of a class *)
| Seq : regex -> regex -> regex
| Alt : regex -> regex -> regex
| Rep : (ascii -> bool) -> nat -> option nat -> bool -> regex
                                       (* class{lo,hi}; [true] = greedy *)
| Grp : string -> regex -> regex                          (* (?P<name>...) *)
| Bos : regex                                             (* ^ *)
| WordB : regex.                                          (* \b *)

Record mstate : Type := {
  pos : nat;                       (* characters before the cursor *)
  prev : option ascii;             (* the character before the cursor *)
  rest : string;                   (* the text from the cursor on *)
  groups : list (string * string)  (* groups closed so far, last first *)
}.

Definition start (s : string) : mstate :=
  {| pos := 0; prev := None; rest := s; groups := [] |}.

Definition below (n : nat) (hi : option nat) : bool :=
  match hi with
  | None => true
  | Some h => (n <? h)%nat
  end.

(** [n] characters of the class were taken, the last one is [last]. *)
Fixpoint rep_loop {A : Type} (p : ascii -> bool) (lo : nat) (hi : option nat)
         (greedy : bool) (k : nat -> option ascii -> string -> option A)
         (n : nat) (last : option ascii) (s : string) {struct s} : option A :=
  let stop (_ : unit) := if (lo <=? n)%nat then k n last s else None in
  let more (_ : unit) :=
    match s with
    | String c s' =>
        if p c && below n hi
        then rep_loop p lo hi greedy k (S n) (Some c) s'
        else None
    | EmptyString => None
    end in
  if greedy
  then match more tt with Some r => Some r | None => stop tt end
  else match stop tt with Some r => Some r | None => more tt end.

Definition word_before (st : mstate) : bool :=
  match prev st with
  | Some c => Str.is_word c
  | None => false
  end.

Definition word_after (st : mstate) : bool :=
  match rest st with
  | String c _ => Str.is_word c
  | EmptyString => false
  end.

Fixpoint rmatch {A : Type} (r : regex) (st : mstate) (k : mstate -> option A)
  : option A :=
  match r with
  | Eps => k st
  | Chr p =>
      match rest st with
      | String c s' =>
          if p c
          then k {| pos := S (pos st); prev := Some c; rest := s'; groups := groups st |}
          else None
      | EmptyString => None
      end
  | Seq r1 r2 => rmatch r1 st (fun st' => rmatch r2 st' k)
  | Alt r1 r2 =>
      match rmatch r1 st k with
      | Some x => Some x
      | None => rmatch r2 st k
      end
  | Rep p lo hi greedy =>
      rep_loop p lo hi greedy
        (fun n last s =>
           k {| pos := (pos st + n)%nat;
                prev := match last with Some c => Some c | None => prev st end;
                rest := s; groups := groups st |})
        0%nat None (rest st)
  | Grp name r1 =>
      rmatch r1 st
        (fun st' =>
           k {| pos := pos st'; prev := prev st'; rest := rest st';
                groups := (name, substring 0 (pos st' - pos st) (rest st))
                            :: groups st' |})
  | Bos => if (pos st =? 0)%nat then k st else None
  | WordB => if xorb (word_before st) (word_after st) then k st else None
  end.

(** [pattern.match(s)] *)
Definition re_match (r : regex) (s : string) : option mstate :=
  rmatch r (start s) (fun st => Some st).

(** [re.fullmatch(pattern, s)] *)
Definition re_fullmatch (r : regex) (s : string) : option mstate :=
  rmatch r (start s)
    (fun st => match rest st with EmptyString => Some st | _ => None end).

Fixpoint search_from (r : regex) (n : nat) (before : option ascii) (s : string)
  : option mstate :=
  match rmatch r {| pos := n; prev := before; rest := s; groups := [] |}
          (fun st => Some st) with
  | Some m => Some m
  | None =>
      match s with
      | EmptyString => None
      | String c s' => search_from r (S n) (Some c) s'
      end
  end.

(** [pattern.search(s)] *)
Definition re_search (r : regex) (s : string) : option mstate :=
  search_from r 0 None s.

(** [m.group(name)]; in the patterns below no group is optional, so a
    match has set every group. *)
Fixpoint assoc (name : string) (gs : list (string * string)) : string :=
  match gs with
  | [] => EmptyString
  | (n, v) :: gs' => if String.eqb n name then v else assoc name gs'
  end.

Definition group (m : mstate) (name : string) : string := assoc name (groups m).

(** building blocks *)
Definition seq (rs : list regex) : regex := fold_right Seq Eps rs.
Definition alt (rs : list regex) : regex :=
  match rs with
  | [] => Eps
  | r :: rs' => fold_left Alt rs' r
  end.
Definition star (p : ascii -> bool) : regex := Rep p 0 None true.
Definition star_lazy (p : ascii -> bool) : regex := Rep p 0 None false.
Definition plus (p : ascii -> bool) : regex := Rep p 1 None true.
Definition plus_lazy (p : ascii -> bool) : regex := Rep p 1 None false.
Definition opt (r : regex) : regex := Alt r Eps.
Definition chr (c : ascii) : regex := Chr (Ascii.eqb c).

(** a literal under [re.IGNORECASE] *)
Fixpoint lit_i (s : string) : regex :=
  match s with
  | EmptyString => Eps
  | String c s' =>
      Seq (Chr (fun x => Ascii.eqb (Str.lower_char x) (Str.lower_char c))) (lit_i s')
  end.

End Re.

(** ** parser.py: text to (name, value) candidates *)

Module Parser.
Import Str Re.

(** [_NOISE_PATTERNS], compiled with [re.IGNORECASE | re.VERBOSE] *)
Definition _NOISE_PATTERNS : regex :=
  alt [ seq [Bos; lit_i "page"; Chr is_space];
        seq [Bos; lit_i "date"; Chr is_space];
        seq [Bos; lit_i "sample"; star is_space; lit_i "id"];
        seq [Bos; lit_i "patient"; Chr is_space];
        seq [Bos; lit_i "referred"; Chr is_space];
        seq [Bos; lit_i "age"; Chr is_space];
        seq [Bos; lit_i "test"; plus is_space; lit_i "name"; WordB];
        seq [Bos; lit_i "this"; plus is_space; lit_i "report"];
        Rep (Ascii.eqb "*") 2 None true;
        seq [Bos; lit_i "dr"; chr "."; Chr is_space];
        seq [Bos; lit_i "chief"; Chr is_space] ].

Definition _is_noise (line : string) : bool :=
  let stripped := strip line in
  if (String.length stripped <? 4)%nat then true
  else match re_search _NOISE_PATTERNS stripped with
       | Some _ => true
       | None => false
       end.

(** the class [[A-Za-z0-9 /\-\(\),.:']] of the characters of a name *)
Definition name_char (c : ascii) : bool :=
  is_ascii_letter c || in_range 48 57 c || one_of " /-(),.:'" c.

(** the class of the separators: the colon, the period and the hyphen; its
    other two members, the en dash and the em dash, are code points above
    255 *)
Definition separator_char (c : ascii) : bool := one_of ":.-" c.

(** [\d+(?:\.\d+)?] *)
Definition number : regex :=
  seq [plus is_digit; opt (seq [chr "."; plus is_digit])].

Definition _TABULAR_PATTERN : regex :=
  seq [ Bos;
        star is_space;
        Grp "name" (seq [Chr is_ascii_letter; star_lazy name_char]);
        star is_space; star separator_char; plus is_space;
        Grp "value" number;
        WordB ].

Definition _COLON_PATTERN : regex :=
  seq [ Bos;
        star is_space;
        Grp "name" (seq [Chr is_ascii_letter; plus_lazy name_char]);
        star is_space; chr ":"; star is_space;
        Grp "value" number;
        WordB ].

Definition _clean_name (raw : string) : string :=
  let name := strip (sub_spaces false raw) in
  rstrip_chars ":.- " name.

Section Extract.
Context {PF : PyFloat}.

Record ExtractedTest : Type := {
  raw_name : string;
  value : F;
  line : string
}.

(** [float(s)] where [s] is digits, or digits, a point and digits, which
    is all that the group [value] can hold; [None] is ValueError. *)
Definition float_of_string (s : string) : option F :=
  match split_dot s with
  | (EmptyString, _) => None
  | (whole, None) =>
      match digits_value 0 whole with
      | Some n => Some (of_ratio n 1)
      | None => None
      end
  | (_, Some EmptyString) => None
  | (whole, Some frac) =>
      match digits_value 0 (whole ++ frac) with
      | Some n => Some (of_ratio n (Pos.pow 10 (Pos.of_nat (String.length frac))))
      | None => None
      end
  end.

(** the dict [seen], in insertion order *)
Definition seen_t : Type := list (string * ExtractedTest).

Fixpoint contains_key (key : string) (seen : seen_t) : bool :=
  match seen with
  | [] => false
  | (k, _) :: seen' => String.eqb k key || contains_key key seen'
  end.

(** the inner function [_add], which updates [seen] *)
Definition _add (seen : seen_t) (name value_str line : string) : seen_t :=
  let cleaned := _clean_name name in
  if String.eqb cleaned "" || (String.length cleaned <? 2)%nat then seen
  else
    match re_fullmatch (plus (fun c => is_digit c || is_space c || Ascii.eqb c ".")) cleaned with
    | Some _ => seen
    | None =>
        match float_of_string value_str with
        | None => seen
        | Some val =>
            let key := lower cleaned in
            if contains_key key seen then seen
            else (seen ++ [(key, {| raw_name := cleaned; value := val;
                                    line := strip line |})])%list
        end
    end.

(** one turn of the loop over the lines *)
Definition parse_line (seen : seen_t) (line : string) : seen_t :=
  if _is_noise line then seen
  else
    match re_match _COLON_PATTERN line with
    | Some m => _add seen (group m "name") (group m "value") line
    | None =>
        match re_match _TABULAR_PATTERN line with
        | Some m => _add seen (group m "name") (group m "value") line
        | None => seen
        end
    end.

Definition parse_lab_values (text : string) : list ExtractedTest :=
  map snd (fold_left parse_line (splitlines text) []).

End Extract.
End Parser.

(** ** Python dicts with string keys, in insertion order *)

Module Dict.
Section Dict.
Context {V : Type}.

Fixpoint get (key : string) (d : list (string * V)) : option V :=
  match d with
  | [] => None
  | (k, v) :: d' => if String.eqb k key then Some v else get key d'
  end.

(** [d[key] = v]: a key already present keeps its place. *)
Fixpoint set (key : string) (v : V) (d : list (string * V)) : list (string * V) :=
  match d with
  | [] => [(key, v)]
  | (k, w) :: d' =>
      if String.eqb k key then (k, v) :: d' else (k, w) :: set key v d'
  end.

(** a dict display [{k1: v1, k2: v2, ...}] *)
Definition of_items (items : list (string * V)) : list (string * V) :=
  fold_left (fun d kv => set (fst kv) (snd kv) d) items [].
End Dict.
End Dict.

(** ** normal_ranges.py: the reference catalog *)

Module Catalog.
Import Str.

Section Catalog.
Context {PF : PyFloat}.

Record ReferenceRange : Type := {
  min_value : F;
  max_value : F;
  unit : string;
  aliases : list string
}.

(** a float literal of the source, [12.0] *)
Definition flit (s : string) : F :=
  match Parser.float_of_string s with
  | Some x => x
  | None => of_int 0
  end.

Definition chr_of (n : N) : string := String (ascii_of_N n) EmptyString.

Definition NORMAL_RANGES : list (string * ReferenceRange) := Dict.of_items [
  ("hemoglobin", {| min_value := flit "12.0"; max_value := flit "17.5"; unit := "g/dL";
     aliases := ["hb"; "hgb"; "haemoglobin"] |});
  ("hematocrit", {| min_value := flit "36.0"; max_value := flit "50.0"; unit := "%";
     aliases := ["hct"; "pcv"; "packed cell volume"] |});
  ("rbc", {| min_value := flit "4.0"; max_value := flit "6.0"; unit := ("million/" ++ chr_of 181 ++ "L");
     aliases := ["red blood cells"; "red blood cell count"; "rbc count"; "erythrocytes"] |});
  ("wbc", {| min_value := flit "4.0"; max_value := flit "11.0"; unit := ("thousand/" ++ chr_of 181 ++ "L");
     aliases := ["white blood cells"; "white blood cell count"; "wbc count"; "leukocytes"; "total wbc"; "total leucocyte count"; "tlc"] |});
  ("platelets", {| min_value := flit "150.0"; max_value := flit "400.0"; unit := ("thousand/" ++ chr_of 181 ++ "L");
     aliases := ["platelet count"; "plt"; "thrombocytes"] |});
  ("mcv", {| min_value := flit "80.0"; max_value := flit "100.0"; unit := "fL";
     aliases := ["mean corpuscular volume"] |});
  ("mch", {| min_value := flit "27.0"; max_value := flit "33.0"; unit := "pg";
     aliases := ["mean corpuscular hemoglobin"] |});
  ("mchc", {| min_value := flit "32.0"; max_value := flit "36.0"; unit := "g/dL";
     aliases := ["mean corpuscular hemoglobin concentration"] |});
  ("rdw", {| min_value := flit "11.5"; max_value := flit "14.5"; unit := "%";
     aliases := ["red cell distribution width"; "rdw-cv"] |});
  ("mpv", {| min_value := flit "7.5"; max_value := flit "11.5"; unit := "fL";
     aliases := ["mean platelet volume"] |});
  ("total cholesterol", {| min_value := flit "0.0"; max_value := flit "200.0"; unit := "mg/dL";
     aliases := ["cholesterol"; "cholesterol total"; "tc"; "serum cholesterol"] |});
  ("ldl", {| min_value := flit "0.0"; max_value := flit "100.0"; unit := "mg/dL";
     aliases := ["ldl cholesterol"; "ldl-c"; "low density lipoprotein"; "bad cholesterol"] |});
  ("hdl", {| min_value := flit "40.0"; max_value := flit "60.0"; unit := "mg/dL";
     aliases := ["hdl cholesterol"; "hdl-c"; "high density lipoprotein"; "good cholesterol"] |});
  ("triglycerides", {| min_value := flit "0.0"; max_value := flit "150.0"; unit := "mg/dL";
     aliases := ["tg"; "trigs"; "triglyceride"] |});
  ("vldl", {| min_value := flit "2.0"; max_value := flit "30.0"; unit := "mg/dL";
     aliases := ["vldl cholesterol"; "very low density lipoprotein"] |});
  ("sgot", {| min_value := flit "5.0"; max_value := flit "40.0"; unit := "U/L";
     aliases := ["ast"; "aspartate aminotransferase"; "sgot (ast)"] |});
  ("sgpt", {| min_value := flit "7.0"; max_value := flit "56.0"; unit := "U/L";
     aliases := ["alt"; "alanine aminotransferase"; "sgpt (alt)"] |});
  ("alkaline phosphatase", {| min_value := flit "44.0"; max_value := flit "147.0"; unit := "U/L";
     aliases := ["alp"; "alk phos"; "alkp"] |});
  ("total bilirubin", {| min_value := flit "0.1"; max_value := flit "1.2"; unit := "mg/dL";
     aliases := ["bilirubin"; "bilirubin total"; "t. bilirubin"; "tbil"] |});
  ("direct bilirubin", {| min_value := flit "0.0"; max_value := flit "0.3"; unit := "mg/dL";
     aliases := ["conjugated bilirubin"; "d. bilirubin"; "dbil"] |});
  ("albumin", {| min_value := flit "3.5"; max_value := flit "5.5"; unit := "g/dL";
     aliases := ["serum albumin"; "alb"] |});
  ("globulin", {| min_value := flit "2.0"; max_value := flit "3.5"; unit := "g/dL";
     aliases := ["serum globulin"] |});
  ("total protein", {| min_value := flit "6.0"; max_value := flit "8.3"; unit := "g/dL";
     aliases := ["protein total"; "tp"; "serum protein"] |});
  ("ag ratio", {| min_value := flit "1.0"; max_value := flit "2.5"; unit := "";
     aliases := ["albumin/globulin ratio"; "a/g ratio"; "a:g ratio"] |});
  ("ggt", {| min_value := flit "0.0"; max_value := flit "45.0"; unit := "U/L";
     aliases := ["gamma gt"; "gamma-glutamyl transferase"; "ggtp"] |});
  ("creatinine", {| min_value := flit "0.6"; max_value := flit "1.2"; unit := "mg/dL";
     aliases := ["serum creatinine"; "creat"; "s. creatinine"] |});
  ("bun", {| min_value := flit "7.0"; max_value := flit "20.0"; unit := "mg/dL";
     aliases := ["blood urea nitrogen"; "urea nitrogen"] |});
  ("urea", {| min_value := flit "15.0"; max_value := flit "45.0"; unit := "mg/dL";
     aliases := ["blood urea"; "serum urea"] |});
  ("uric acid", {| min_value := flit "3.0"; max_value := flit "7.0"; unit := "mg/dL";
     aliases := ["serum uric acid"; "urate"] |});
  ("egfr", {| min_value := flit "90.0"; max_value := flit "120.0"; unit := ("mL/min/1.73m" ++ chr_of 178);
     aliases := ["estimated gfr"; "glomerular filtration rate"; "estimated glomerular filtration rate"] |});
  ("fasting glucose", {| min_value := flit "70.0"; max_value := flit "100.0"; unit := "mg/dL";
     aliases := ["fasting blood sugar"; "fbs"; "glucose fasting"; "fasting plasma glucose"; "fpg"; "blood sugar fasting"] |});
  ("random glucose", {| min_value := flit "70.0"; max_value := flit "140.0"; unit := "mg/dL";
     aliases := ["random blood sugar"; "rbs"; "glucose random"; "blood sugar random"] |});
  ("hba1c", {| min_value := flit "4.0"; max_value := flit "5.6"; unit := "%";
     aliases := ["glycated hemoglobin"; "glycosylated hemoglobin"; "a1c"; "hemoglobin a1c"; "hb a1c"] |});
  ("pp glucose", {| min_value := flit "70.0"; max_value := flit "140.0"; unit := "mg/dL";
     aliases := ["postprandial glucose"; "post prandial blood sugar"; "ppbs"; "glucose pp"] |});
  ("tsh", {| min_value := flit "0.4"; max_value := flit "4.0"; unit := "mIU/L";
     aliases := ["thyroid stimulating hormone"; "thyrotropin"] |});
  ("t3", {| min_value := flit "80.0"; max_value := flit "200.0"; unit := "ng/dL";
     aliases := ["triiodothyronine"; "total t3"; "serum t3"] |});
  ("t4", {| min_value := flit "5.0"; max_value := flit "12.0"; unit := (chr_of 181 ++ "g/dL");
     aliases := ["thyroxine"; "total t4"; "serum t4"] |});
  ("free t3", {| min_value := flit "2.3"; max_value := flit "4.2"; unit := "pg/mL";
     aliases := ["ft3"] |});
  ("free t4", {| min_value := flit "0.8"; max_value := flit "1.8"; unit := "ng/dL";
     aliases := ["ft4"; "free thyroxine"] |});
  ("sodium", {| min_value := flit "136.0"; max_value := flit "145.0"; unit := "mEq/L";
     aliases := ["na"; "na+"; "serum sodium"] |});
  ("potassium", {| min_value := flit "3.5"; max_value := flit "5.0"; unit := "mEq/L";
     aliases := ["k"; "k+"; "serum potassium"] |});
  ("chloride", {| min_value := flit "98.0"; max_value := flit "106.0"; unit := "mEq/L";
     aliases := ["cl"; "cl-"; "serum chloride"] |});
  ("calcium", {| min_value := flit "8.5"; max_value := flit "10.5"; unit := "mg/dL";
     aliases := ["ca"; "serum calcium"; "total calcium"] |});
  ("phosphorus", {| min_value := flit "2.5"; max_value := flit "4.5"; unit := "mg/dL";
     aliases := ["phosphate"; "serum phosphorus"; "po4"] |});
  ("magnesium", {| min_value := flit "1.7"; max_value := flit "2.2"; unit := "mg/dL";
     aliases := ["mg"; "serum magnesium"] |});
  ("iron", {| min_value := flit "60.0"; max_value := flit "170.0"; unit := (chr_of 181 ++ "g/dL");
     aliases := ["serum iron"; "fe"] |});
  ("ferritin", {| min_value := flit "12.0"; max_value := flit "300.0"; unit := "ng/mL";
     aliases := ["serum ferritin"] |});
  ("tibc", {| min_value := flit "250.0"; max_value := flit "370.0"; unit := (chr_of 181 ++ "g/dL");
     aliases := ["total iron binding capacity"] |});
  ("vitamin d", {| min_value := flit "30.0"; max_value := flit "100.0"; unit := "ng/mL";
     aliases := ["25-hydroxy vitamin d"; "25(oh)d"; "vit d"; "vitamin d3"] |});
  ("vitamin b12", {| min_value := flit "200.0"; max_value := flit "900.0"; unit := "pg/mL";
     aliases := ["b12"; "cobalamin"; "vit b12"] |});
  ("folate", {| min_value := flit "2.7"; max_value := flit "17.0"; unit := "ng/mL";
     aliases := ["folic acid"; "serum folate"; "vitamin b9"] |});
  ("esr", {| min_value := flit "0.0"; max_value := flit "20.0"; unit := "mm/hr";
     aliases := ["erythrocyte sedimentation rate"; "sed rate"] |});
  ("crp", {| min_value := flit "0.0"; max_value := flit "3.0"; unit := "mg/L";
     aliases := ["c-reactive protein"; "c reactive protein"; "hs-crp"] |});
  ("psa", {| min_value := flit "0.0"; max_value := flit "4.0"; unit := "ng/mL";
     aliases := ["prostate specific antigen"] |}) ].

Definition _build_alias_map : list (string * string) :=
  fold_left
    (fun alias_map entry =>
       let '(canonical, ref) := entry in
       fold_left
         (fun m alias => Dict.set (lower alias) canonical m)
         (aliases ref)
         (Dict.set canonical canonical alias_map))
    NORMAL_RANGES [].

Definition _ALIAS_MAP : list (string * string) := _build_alias_map.

(** [NORMAL_RANGES[canonical]] raises KeyError on a missing key. *)
Definition lookup (test_name : string) : result (option (string * ReferenceRange)) :=
  let key := lower (strip test_name) in
  match Dict.get key _ALIAS_MAP with
  | None => Ok None
  | Some canonical =>
      match Dict.get canonical NORMAL_RANGES with
      | Some ref => Ok (Some (canonical, ref))
      | None => Raise KeyError
      end
  end.

End Catalog.

Arguments lookup {PF} test_name : simpl never.
Arguments NORMAL_RANGES {PF} : simpl never.
Arguments _ALIAS_MAP {PF} : simpl never.
End Catalog.

(** ** analyzer.py: classification and health score *)

Module Analyzer.
Import Parser Catalog.

Inductive Status : Type := LOW | NORMAL | HIGH.

Inductive Severity : Type := SEV_NORMAL | MILD | MODERATE | CRITICAL.

Definition Status_eqb (a b : Status) : bool :=
  match a, b with
  | LOW, LOW | NORMAL, NORMAL | HIGH, HIGH => true
  | _, _ => false
  end.

Section Analyzer.
Context {PF : PyFloat}.

(** The field [explanation], a sentence that [_explain] formats from the
    other fields once they are set, is left out. *)
Record AnalyzedTest : Type := {
  canonical_name : string;
  a_raw_name : string;
  a_value : F;
  a_min_value : F;
  a_max_value : F;
  a_unit : string;
  status : Status;
  deviation_pct : F;
  severity : Severity
}.

Record AnalysisReport : Type := {
  matched : list AnalyzedTest;
  unrecognized : list ExtractedTest;
  health_score : Z
}.

Definition _classify (value : F) (ref : ReferenceRange) : result (Status * F) :=
  if fltb value (min_value ref) then
    let span := if negb (feqb (min_value ref) (of_int 0))
                then min_value ref else flit "1.0" in
    q <- fdiv (fabs (fsub (min_value ref) value)) span ;;
    let deviation := fmul q (of_int 100) in
    Ok (LOW, round1 deviation)
  else if fltb (max_value ref) value then
    let span := if negb (feqb (max_value ref) (of_int 0))
                then max_value ref else flit "1.0" in
    q <- fdiv (fabs (fsub value (max_value ref))) span ;;
    let deviation := fmul q (of_int 100) in
    Ok (HIGH, round1 deviation)
  else Ok (NORMAL, flit "0.0").

Definition _severity_level (status : Status) (deviation_pct : F) : Severity :=
  if Status_eqb status NORMAL then SEV_NORMAL
  else if Status_eqb status HIGH then
    if fleb deviation_pct (of_int 10) then MILD
    else if fleb deviation_pct (of_int 30) then MODERATE
    else CRITICAL
  else
    if fleb deviation_pct (of_int 10) then MILD
    else if fleb deviation_pct (of_int 25) then MODERATE
    else CRITICAL.

(** the loop of [_compute_health_score]: [penalty] after the tests [ts] *)
Fixpoint add_penalties (max_penalty_per_test : F) (ts : list AnalyzedTest)
         (penalty : F) : result F :=
  match ts with
  | [] => Ok penalty
  | t :: ts' =>
      if negb (Status_eqb (status t) NORMAL) then
        let raw := py_min (deviation_pct t) (flit "100.0") in
        q <- fdiv raw (fadd raw (of_int 20)) ;;
        let test_penalty := fmul max_penalty_per_test q in
        add_penalties max_penalty_per_test ts' (fadd penalty test_penalty)
      else add_penalties max_penalty_per_test ts' penalty
  end.

Definition _compute_health_score (tests : list AnalyzedTest) : result Z :=
  match tests with
  | [] => Ok 100
  | _ :: _ =>
      let total_tests := Pos.of_nat (List.length tests) in
      let max_penalty_per_test := of_ratio 100 total_tests in
      penalty <- add_penalties max_penalty_per_test tests (flit "0.0") ;;
      r <- round_int (fsub (of_int 100) penalty) ;;
      Ok (py_max 0 r)
  end.

(** the loop of [analyze]: the two lists of the report after [tests] *)
Fixpoint analyze_loop (tests : list ExtractedTest)
         (matched : list AnalyzedTest) (unrecognized : list ExtractedTest)
  : result (list AnalyzedTest * list ExtractedTest) :=
  match tests with
  | [] => Ok (matched, unrecognized)
  | ext :: tests' =>
      result <- lookup (raw_name ext) ;;
      match result with
      | None => analyze_loop tests' matched (unrecognized ++ [ext])
      | Some (canonical_name, ref) =>
          '(status, deviation) <- _classify (value ext) ref ;;
          let sev := _severity_level status deviation in
          let analyzed :=
            {| canonical_name := canonical_name;
               a_raw_name := raw_name ext;
               a_value := value ext;
               a_min_value := min_value ref;
               a_max_value := max_value ref;
               a_unit := unit ref;
               status := status;
               deviation_pct := deviation;
               severity := sev |} in
          analyze_loop tests' (matched ++ [analyzed]) unrecognized
      end
  end.

Definition analyze (tests : list ExtractedTest) : result AnalysisReport :=
  '(matched, unrecognized) <- analyze_loop tests [] [] ;;
  score <- _compute_health_score matched ;;
  Ok {| matched := matched; unrecognized := unrecognized; health_score := score |}.

End Analyzer.
End Analyzer.

(** ** The two arithmetics *)

(** [num/den] rounded to the nearest integer, a tie to the even one *)
Definition nearest_even (num : Z) (den : positive) : Z :=
  let q := num / Zpos den in
  let r := num mod Zpos den in
  match 2 * r ?= Zpos den with
  | Lt => q
  | Gt => q + 1
  | Eq => if Z.even q then q else q + 1
  end.

(** *** Exact arithmetic on the rationals *)

Module Exact.

Definition round_half_even (q : Q) : Z := nearest_even (Qnum q) (Qden q).

Definition Qltb (a b : Q) : bool := negb (Qle_bool b a).

Lemma Qltb_lt (a b : Q) : Qltb a b = true <-> (a < b)%Q.
Proof.
  unfold Qltb. rewrite negb_true_iff, <- not_true_iff_false, Qle_bool_iff.
  split; [apply Qnot_le_lt | apply Qlt_not_le].
Qed.

Lemma Qle_bool_refl_r (a b : Q) : Qle_bool a b = true -> Qle_bool b b = true.
Proof. intros _. apply Qle_bool_iff. apply Qle_refl. Qed.

Lemma Qltb_Qle_bool (a b : Q) : Qltb a b = true -> Qle_bool a b = true.
Proof.
  intros H. apply Qltb_lt in H. apply Qle_bool_iff. now apply Qlt_le_weak.
Qed.

Lemma Qltb_not_Qle_bool (a b : Q) : Qltb a b = true -> Qle_bool b a = false.
Proof.
  intros H. apply Qltb_lt in H.
  apply not_true_iff_false. rewrite Qle_bool_iff. now apply Qlt_not_le.
Qed.

Lemma Qle_bool_Qltb_trans (a b c : Q) :
  Qle_bool a b = true -> Qltb b c = true -> Qltb a c = true.
Proof.
  intros Hab Hbc. apply Qle_bool_iff in Hab. apply Qltb_lt in Hbc.
  apply Qltb_lt. eapply Qle_lt_trans; eassumption.
Qed.

Lemma not_Qle_bool_Qltb (a b : Q) :
  Qle_bool a a = true -> Qle_bool b b = true -> Qle_bool a b = false ->
  Qltb b a = true.
Proof. intros _ _ H. unfold Qltb. now rewrite H. Qed.

Lemma ints_ordered (a b : Z) :
  0 <= a -> a < b -> b <= 100 -> Qltb (a # 1) (b # 1) = true.
Proof. intros _ Hab _. apply Qltb_lt. unfold Qlt. simpl. lia. Qed.

Lemma ints_comparable (a : Z) : 0 <= a <= 100 -> Qle_bool (a # 1) (a # 1) = true.
Proof. intros _. apply Qle_bool_iff. apply Qle_refl. Qed.

#[export] Instance rational : PyFloat := {|
  F := Q;
  of_ratio n d := n # d;
  fadd := Qplus;
  fsub := Qminus;
  fmul := Qmult;
  fquot := Qdiv;
  fabs := Qabs;
  feqb := Qeq_bool;
  fltb := Qltb;
  fleb := Qle_bool;
  round1 q := nearest_even (Qnum (q * 10)) (Qden (q * 10)) # 10;
  round_int q := Ok (round_half_even q);
  one_is_not_zero := eq_refl;
  fltb_fleb := Qltb_Qle_bool;
  fleb_refl_r := Qle_bool_refl_r;
  fltb_not_fleb := Qltb_not_Qle_bool;
  fleb_fltb_trans := Qle_bool_Qltb_trans;
  not_fleb_fltb := not_Qle_bool_Qltb;
  of_int_lt := ints_ordered;
  of_int_refl := ints_comparable
|}.

End Exact.

(** *** IEEE 754 binary64, round to nearest even *)

Module B64.

Definition prec : Z := 53.
Definition emax : Z := 1024.

(** the binary64 number nearest to [n/d]: one correctly rounded division
    of two integers *)
Definition b64_of_ratio (n : Z) (d : positive) : spec_float :=
  match n with
  | Z0 => S754_zero false
  | Zpos p => SFdiv prec emax (S754_finite false p 0) (S754_finite false d 0)
  | Zneg p => SFdiv prec emax (S754_finite true p 0) (S754_finite false d 0)
  end.

(** [c * m * 2^e] rounded to the nearest integer, a tie to the even one *)
Definition scaled_nearest (c : Z) (m : positive) (e : Z) : Z :=
  match e with
  | Zneg k => nearest_even (c * Zpos m) (Pos.pow 2 k)
  | _ => c * Zpos m * 2 ^ e
  end.

(** [round(x, 1)]: the exact value of [x] is rounded to one decimal, and
    that decimal to the nearest binary64 number; nan, the infinities and
    the zeros are returned as they are. *)
Definition b64_round1 (x : spec_float) : spec_float :=
  match x with
  | S754_finite s m e =>
      match scaled_nearest 10 m e with
      | Zpos k => SFdiv prec emax (S754_finite s k 0) (S754_finite false 10 0)
      | _ => S754_zero s
      end
  | _ => x
  end.

(** [round(x)] *)
Definition b64_round_int (x : spec_float) : result Z :=
  match x with
  | S754_nan => Raise ValueError
  | S754_infinity _ => Raise OverflowError
  | S754_zero _ => Ok 0
  | S754_finite s m e => Ok (cond_Zopp s (scaled_nearest 1 m e))
  end.

(** the order of [SFcompare] *)

Ltac compare_cases :=
  repeat match goal with
    | H : context [Pos.compare_cont Eq ?x ?y] |- _ =>
        change (Pos.compare_cont Eq x y) with (Pos.compare x y) in H
    | |- context [Pos.compare_cont Eq ?x ?y] =>
        change (Pos.compare_cont Eq x y) with (Pos.compare x y)
    end;
  repeat match goal with
    | H : context [Z.compare ?x ?y] |- _ => destruct (Z.compare_spec x y)
    | |- context [Z.compare ?x ?y] => destruct (Z.compare_spec x y)
    | H : context [Pos.compare ?x ?y] |- _ => destruct (Pos.compare_spec x y)
    | |- context [Pos.compare ?x ?y] => destruct (Pos.compare_spec x y)
    end;
  simpl in *; try reflexivity; try discriminate; try lia.

Lemma SFcompare_swap (a b : spec_float) :
  SFcompare b a = option_map CompOpp (SFcompare a b).
Proof.
  destruct a as [[]|[]| |[] ma ea], b as [[]|[]| |[] mb eb]; simpl;
    try reflexivity; compare_cases.
Qed.

Lemma SFltb_not_SFleb (a b : spec_float) :
  SFltb a b = true -> SFleb b a = false.
Proof.
  unfold SFltb, SFleb. rewrite (SFcompare_swap a b).
  destruct (SFcompare a b) as [[]|]; simpl; congruence.
Qed.

Lemma SFltb_SFleb (a b : spec_float) : SFltb a b = true -> SFleb a b = true.
Proof.
  unfold SFltb, SFleb. destruct (SFcompare a b) as [[]|]; congruence.
Qed.

Lemma SFleb_refl_r (a b : spec_float) : SFleb a b = true -> SFleb b b = true.
Proof.
  unfold SFleb.
  destruct a as [[]|[]| |[] ma ea], b as [[]|[]| |[] mb eb]; simpl;
    try congruence; intros _; rewrite Z.compare_refl;
    change (Pos.compare_cont Eq mb mb) with (Pos.compare mb mb);
    rewrite Pos.compare_refl; reflexivity.
Qed.

Lemma not_SFleb_SFltb (a b : spec_float) :
  SFleb a a = true -> SFleb b b = true -> SFleb a b = false -> SFltb b a = true.
Proof.
  unfold SFltb, SFleb. rewrite (SFcompare_swap a b).
  destruct a as [[]|[]| |[] ma ea], b as [[]|[]| |[] mb eb]; simpl;
    try congruence; intros _ _; compare_cases.
Qed.

Lemma SFleb_SFltb_trans (a b c : spec_float) :
  SFleb a b = true -> SFltb b c = true -> SFltb a c = true.
Proof.
  unfold SFltb, SFleb.
  destruct a as [[]|[]| |[] ma ea], b as [[]|[]| |[] mb eb],
           c as [[]|[]| |[] mc ec]; simpl;
    try congruence; compare_cases.
Qed.

(** the integers 0..100 as floats *)
Definition small_ints : list Z := map Z.of_nat (seq 0 101).

Lemma small_ints_spec (a : Z) : 0 <= a <= 100 -> In a small_ints.
Proof.
  intros H. unfold small_ints. rewrite <- (Z2Nat.id a) by lia.
  apply in_map, in_seq. lia.
Qed.

Lemma small_ints_ordered :
  forallb (fun a => forallb (fun b =>
    implb (a <? b) (SFltb (b64_of_ratio a 1) (b64_of_ratio b 1))) small_ints)
    small_ints = true.
Proof. vm_compute. reflexivity. Qed.

Lemma small_ints_not_nan :
  forallb (fun a => SFleb (b64_of_ratio a 1) (b64_of_ratio a 1)) small_ints = true.
Proof. vm_compute. reflexivity. Qed.

Lemma b64_one_is_not_zero :
  SFeqb (b64_of_ratio 10 10) (b64_of_ratio 0 1) = false.
Proof. reflexivity. Qed.

Lemma b64_ints_ordered (a b : Z) :
  0 <= a -> a < b -> b <= 100 ->
  SFltb (b64_of_ratio a 1) (b64_of_ratio b 1) = true.
Proof.
  intros Ha Hab Hb.
  pose proof small_ints_ordered as H.
  rewrite forallb_forall in H. specialize (H a (small_ints_spec a ltac:(lia))).
  rewrite forallb_forall in H. specialize (H b (small_ints_spec b ltac:(lia))).
  apply Z.ltb_lt in Hab. rewrite Hab in H. exact H.
Qed.

Lemma b64_ints_comparable (a : Z) :
  0 <= a <= 100 -> SFleb (b64_of_ratio a 1) (b64_of_ratio a 1) = true.
Proof.
  intros Ha. pose proof small_ints_not_nan as H.
  rewrite forallb_forall in H. exact (H a (small_ints_spec a Ha)).
Qed.

#[export] Instance binary64 : PyFloat := {|
  F := spec_float;
  of_ratio := b64_of_ratio;
  fadd := SFadd prec emax;
  fsub := SFsub prec emax;
  fmul := SFmul prec emax;
  fquot := SFdiv prec emax;
  fabs := SFabs;
  feqb := SFeqb;
  fltb := SFltb;
  fleb := SFleb;
  round1 := b64_round1;
  round_int := b64_round_int;
  one_is_not_zero := b64_one_is_not_zero;
  fltb_fleb := SFltb_SFleb;
  fleb_refl_r := SFleb_refl_r;
  fltb_not_fleb := SFltb_not_SFleb;
  fleb_fltb_trans := SFleb_SFltb_trans;
  not_fleb_fltb := not_SFleb_SFltb;
  of_int_lt := b64_ints_ordered;
  of_int_refl := b64_ints_comparable
|}.

End B64.

(** * Properties *)

Import Str Re Parser Catalog Analyzer.

(** ** The classifier, for every arithmetic *)

Section ClassifierProperties.
Context {PF : PyFloat}.

Lemma flit_one : flit "1.0" = of_ratio 10 10.
Proof. reflexivity. Qed.

Lemma flit_zero : flit "0.0" = of_ratio 0 10.
Proof. reflexivity. Qed.

Lemma flit_hundred : flit "100.0" = of_ratio 1000 10.
Proof. reflexivity. Qed.

Lemma fdiv_by_one (x : F) : fdiv x (flit "1.0") = Ok (fquot x (flit "1.0")).
Proof.
  unfold fdiv, of_int. rewrite flit_one, one_is_not_zero. reflexivity.
Qed.

Lemma fdiv_nonzero (x y : F) :
  feqb y (of_int 0) = false -> fdiv x y = Ok (fquot x y).
Proof. intros H. unfold fdiv. now rewrite H. Qed.

(** the divisor that [_classify] chooses for the boundary [b] *)
Definition span_of (b : F) : F :=
  if negb (feqb b (of_int 0)) then b else flit "1.0".

Lemma fdiv_span (x b : F) : fdiv x (span_of b) = Ok (fquot x (span_of b)).
Proof.
  unfold span_of. destruct (feqb b (of_int 0)) eqn:E; simpl.
  - apply fdiv_by_one.
  - now apply fdiv_nonzero.
Qed.

Lemma classify_cases (value : F) (ref : ReferenceRange) :
  _classify value ref =
    if fltb value (min_value ref) then
      Ok (LOW, round1 (fmul (fquot (fabs (fsub (min_value ref) value))
                                   (span_of (min_value ref))) (of_int 100)))
    else if fltb (max_value ref) value then
      Ok (HIGH, round1 (fmul (fquot (fabs (fsub value (max_value ref)))
                                    (span_of (max_value ref))) (of_int 100)))
    else Ok (NORMAL, flit "0.0").
Proof.
  unfold _classify.
  destruct (fltb value (min_value ref)).
  - fold (span_of (min_value ref)). now rewrite fdiv_span.
  - destruct (fltb (max_value ref) value); [|reflexivity].
    fold (span_of (max_value ref)). now rewrite fdiv_span.
Qed.

Lemma classify_returns (value : F) (ref : ReferenceRange) :
  returns (_classify value ref).
Proof.
  rewrite classify_cases.
  destruct (fltb value (min_value ref)); [eexists; reflexivity|].
  destruct (fltb (max_value ref) value); eexists; reflexivity.
Qed.

(** C5. [_classify] returns for every value and every reference range: the
    division it performs never has a zero divisor.  When the boundary that
    the value violates is zero, the divisor is the literal [1.0], and the
    deviation is computed with it. *)
Theorem classify_never_divides_by_zero (value : F) (ref : ReferenceRange) :
  returns (_classify value ref) /\
  (fltb value (min_value ref) = true ->
   feqb (min_value ref) (of_int 0) = true ->
   _classify value ref =
     Ok (LOW, round1 (fmul (fquot (fabs (fsub (min_value ref) value)) (flit "1.0"))
                           (of_int 100)))) /\
  (fltb value (min_value ref) = false ->
   fltb (max_value ref) value = true ->
   feqb (max_value ref) (of_int 0) = true ->
   _classify value ref =
     Ok (HIGH, round1 (fmul (fquot (fabs (fsub value (max_value ref))) (flit "1.0"))
                            (of_int 100)))).
Proof.
  refine (conj (classify_returns value ref) (conj _ _));
    rewrite classify_cases; unfold span_of.
  - intros -> ->. reflexivity.
  - intros -> -> ->. reflexivity.
Qed.

Lemma severity_normal_iff (st : Status) (d : F) :
  _severity_level st d = SEV_NORMAL <-> st = NORMAL.
Proof.
  unfold _severity_level. destruct st; simpl;
    repeat match goal with |- context [if ?b then _ else _] => destruct b end;
    split; congruence.
Qed.

Lemma classify_normal_deviation (value : F) (ref : ReferenceRange) (d : F) :
  _classify value ref = Ok (NORMAL, d) -> d = flit "0.0".
Proof.
  rewrite classify_cases.
  destruct (fltb value (min_value ref)); [discriminate|].
  destruct (fltb (max_value ref) value); [discriminate|].
  congruence.
Qed.

Lemma lt_not_le_small (a : Z) (d : F) :
  fltb (of_int a) d = true -> fleb d (of_int a) = false.
Proof. apply fltb_not_fleb. Qed.

Lemma gt_above_smaller (a b : Z) (d : F) :
  0 <= a -> a < b -> b <= 100 ->
  fltb (of_int b) d = true -> fleb d (of_int a) = false.
Proof.
  intros Ha Hab Hb H. apply fltb_not_fleb.
  eapply fleb_fltb_trans; [|exact H].
  apply fltb_fleb. now apply of_int_lt.
Qed.

Lemma small_trichotomy (a : Z) (d : F) :
  0 <= a <= 100 -> fleb d d = true ->
  fleb d (of_int a) = true \/ fltb (of_int a) d = true.
Proof.
  intros Ha Hd. destruct (fleb d (of_int a)) eqn:E; [now left|right].
  apply not_fleb_fltb; auto. now apply of_int_refl.
Qed.

(** C4. For a deviation [d >= 0]: a High test is Mild when [d <= 10],
    Moderate when [10 < d <= 30] and Critical when [d > 30]; a Low test is
    Mild when [d <= 10], Moderate when [10 < d <= 25] and Critical when
    [d > 25]; and one of the three cases always applies. *)
Theorem severity_level_thresholds (d : F) (Hd : fleb (of_int 0) d = true) :
  (fleb d (of_int 10) = true ->
   _severity_level HIGH d = MILD /\ _severity_level LOW d = MILD) /\
  (fltb (of_int 10) d = true -> fleb d (of_int 30) = true ->
   _severity_level HIGH d = MODERATE) /\
  (fltb (of_int 30) d = true -> _severity_level HIGH d = CRITICAL) /\
  (fltb (of_int 10) d = true -> fleb d (of_int 25) = true ->
   _severity_level LOW d = MODERATE) /\
  (fltb (of_int 25) d = true -> _severity_level LOW d = CRITICAL) /\
  (fleb d (of_int 10) = true \/
   (fltb (of_int 10) d = true /\ fleb d (of_int 30) = true) \/
   fltb (of_int 30) d = true) /\
  (fleb d (of_int 10) = true \/
   (fltb (of_int 10) d = true /\ fleb d (of_int 25) = true) \/
   fltb (of_int 25) d = true).
Proof.
  pose proof (fleb_refl_r _ _ Hd) as Hdd.
  unfold _severity_level; simpl.
  refine (conj _ (conj _ (conj _ (conj _ (conj _ (conj _ _)))))).
  - now intros ->.
  - intros H10 ->. now rewrite (lt_not_le_small 10 d) by assumption.
  - intros H30.
    rewrite (gt_above_smaller 10 30 d), (lt_not_le_small 30 d);
      (lia || assumption || reflexivity).
  - intros H10 ->. now rewrite (lt_not_le_small 10 d) by assumption.
  - intros H25.
    rewrite (gt_above_smaller 10 25 d), (lt_not_le_small 25 d);
      (lia || assumption || reflexivity).
  - destruct (small_trichotomy 10 d) as [H|H]; [lia|assumption|now left|].
    destruct (small_trichotomy 30 d) as [H'|H']; [lia|assumption| |]; auto.
  - destruct (small_trichotomy 10 d) as [H|H]; [lia|assumption|now left|].
    destruct (small_trichotomy 25 d) as [H'|H']; [lia|assumption| |]; auto.
Qed.

End ClassifierProperties.

(** ** Strings *)

Section StringFacts.

Fixpoint all_chars (p : ascii -> bool) (s : string) : bool :=
  match s with
  | EmptyString => true
  | String c s' => p c && all_chars p s'
  end.

Lemma is_space_lower_char (c : ascii) : is_space (lower_char c) = is_space c.
Proof. destruct c as [[] [] [] [] [] [] [] []]; reflexivity. Qed.

Lemma lower_char_idem (c : ascii) : lower_char (lower_char c) = lower_char c.
Proof. destruct c as [[] [] [] [] [] [] [] []]; reflexivity. Qed.

Lemma lower_idem (s : string) : lower (lower s) = lower s.
Proof.
  induction s as [|c s IH]; simpl; [reflexivity|].
  now rewrite lower_char_idem, IH.
Qed.

Lemma lstrip_lower (s : string) :
  lstrip_by is_space (lower s) = lower (lstrip_by is_space s).
Proof.
  induction s as [|c s IH]; simpl; [reflexivity|].
  rewrite is_space_lower_char. destruct (is_space c); [exact IH|reflexivity].
Qed.

Lemma rstrip_lower (s : string) :
  rstrip_by is_space (lower s) = lower (rstrip_by is_space s).
Proof.
  induction s as [|c s IH]; simpl; [reflexivity|].
  rewrite IH, is_space_lower_char.
  destruct (rstrip_by is_space s); simpl; [|reflexivity].
  destruct (is_space c); reflexivity.
Qed.

Lemma strip_lower (s : string) : strip (lower s) = lower (strip s).
Proof. unfold strip. now rewrite lstrip_lower, rstrip_lower. Qed.

Lemma rstrip_all (p : ascii -> bool) (s : string) :
  all_chars p s = true -> rstrip_by p s = EmptyString.
Proof.
  induction s as [|c s IH]; simpl; [reflexivity|].
  intros H. apply andb_prop in H as [Hc Hs]. now rewrite IH, Hc.
Qed.

Lemma lstrip_all (p : ascii -> bool) (s : string) :
  all_chars p s = true -> lstrip_by p s = EmptyString.
Proof.
  induction s as [|c s IH]; simpl; [reflexivity|].
  intros H. apply andb_prop in H as [Hc Hs]. rewrite Hc. now apply IH.
Qed.

Lemma rstrip_app (p : ascii -> bool) (s post : string) :
  all_chars p post = true -> rstrip_by p (s ++ post) = rstrip_by p s.
Proof.
  intros H. induction s as [|c s IH]; simpl.
  - now apply rstrip_all.
  - now rewrite IH.
Qed.

Lemma lstrip_app (p : ascii -> bool) (pre s : string) :
  all_chars p pre = true -> lstrip_by p (pre ++ s) = lstrip_by p s.
Proof.
  induction pre as [|c pre IH]; simpl; [reflexivity|].
  intros H. apply andb_prop in H as [Hc Hs]. rewrite Hc. now apply IH.
Qed.

Lemma strip_lstrip_app (p : ascii -> bool) (s post : string) :
  all_chars p post = true ->
  rstrip_by p (lstrip_by p (s ++ post)) = rstrip_by p (lstrip_by p s).
Proof.
  intros H. induction s as [|c s IH]; simpl.
  - now rewrite (lstrip_all p post H).
  - destruct (p c); [exact IH|].
    change (String c (s ++ post)) with (String c s ++ post).
    now apply rstrip_app.
Qed.

Lemma strip_padding (pre s post : string) :
  all_chars is_space pre = true -> all_chars is_space post = true ->
  strip (pre ++ s ++ post) = strip s.
Proof.
  intros Hpre Hpost. unfold strip.
  rewrite lstrip_app by assumption. now apply strip_lstrip_app.
Qed.

Lemma string_eqb_eq (a b : string) : String.eqb a b = true -> a = b.
Proof. apply String.eqb_eq. Qed.

End StringFacts.

(** ** Dicts *)

Section DictFacts.
Context {V : Type}.

Lemma get_In (k : string) (v : V) (d : list (string * V)) :
  Dict.get k d = Some v -> In (k, v) d.
Proof.
  induction d as [|[k' w] d IH]; simpl; [discriminate|].
  destruct (String.eqb k' k) eqn:E.
  - intros [= ->]. apply String.eqb_eq in E. subst. now left.
  - intros H. right. now apply IH.
Qed.

Lemma get_absent (k : string) (d : list (string * V)) :
  ~ In k (map fst d) -> Dict.get k d = None.
Proof.
  induction d as [|[k' w] d IH]; simpl; [reflexivity|].
  intros H. destruct (String.eqb k' k) eqn:E.
  - apply String.eqb_eq in E. tauto.
  - apply IH. tauto.
Qed.

Lemma get_present (k : string) (v : V) (d : list (string * V)) :
  NoDup (map fst d) -> In (k, v) d -> Dict.get k d = Some v.
Proof.
  induction d as [|[k' w] d IH]; simpl; [tauto|].
  intros Hnd [H|H].
  - injection H as -> ->. now rewrite String.eqb_refl.
  - inversion Hnd as [|? ? Hnot Hnd']; subst.
    destruct (String.eqb k' k) eqn:E.
    + apply String.eqb_eq in E. subst. exfalso. apply Hnot.
      change k with (fst (k, v)). now apply in_map.
    + now apply IH.
Qed.

End DictFacts.

(** ** The catalog and [lookup], for every arithmetic *)

Section CatalogProperties.
Context {PF : PyFloat}.

#[local] Opaque NORMAL_RANGES _ALIAS_MAP.

Definition string_in (k : string) (l : list string) : bool :=
  existsb (String.eqb k) l.

Lemma string_in_In (k : string) (l : list string) :
  string_in k l = true <-> In k l.
Proof.
  unfold string_in. rewrite existsb_exists. split.
  - intros (x & Hx & E). apply String.eqb_eq in E. now subst.
  - intros H. exists k. split; [assumption|apply String.eqb_refl].
Qed.

Fixpoint nodup_strings (l : list string) : bool :=
  match l with
  | [] => true
  | x :: l' => negb (string_in x l') && nodup_strings l'
  end.

Lemma nodup_strings_NoDup (l : list string) : nodup_strings l = true -> NoDup l.
Proof.
  induction l as [|x l IH]; simpl; [constructor|].
  intros H. apply andb_prop in H as [Hx Hl]. constructor; [|now apply IH].
  rewrite <- string_in_In. now destruct (string_in x l).
Qed.

(** a name of the catalog: a canonical name, or an alias in lower case *)
Definition catalog_name (key : string) : Prop :=
  exists c ref, In (c, ref) NORMAL_RANGES /\
                (key = c \/ In key (map lower (aliases ref))).

Definition catalog_nameb_in (ranges : list (string * ReferenceRange))
           (key : string) : bool :=
  existsb (fun entry => String.eqb key (fst entry)
                        || string_in key (map lower (aliases (snd entry))))
          ranges.

Definition catalog_nameb (key : string) : bool := catalog_nameb_in NORMAL_RANGES key.

Lemma catalog_nameb_spec (key : string) :
  catalog_nameb key = true -> catalog_name key.
Proof.
  unfold catalog_nameb, catalog_nameb_in. rewrite existsb_exists.
  intros ([c ref] & Hin & H). exists c, ref. split; [assumption|].
  cbv beta iota delta [fst snd] in H. apply orb_prop in H as [H|H].
  - left. now apply String.eqb_eq.
  - right. now apply string_in_In.
Qed.

Definition option_is (o : option string) (c : string) : bool :=
  match o with
  | Some x => String.eqb x c
  | None => false
  end.

Lemma option_is_spec (o : option string) (c : string) :
  option_is o c = true -> o = Some c.
Proof.
  destruct o as [x|]; simpl; [|discriminate].
  intros H. apply String.eqb_eq in H. now subst.
Qed.

Lemma canonical_names_distinct : NoDup (map fst NORMAL_RANGES).
Proof. apply nodup_strings_NoDup. vm_compute. reflexivity. Qed.

(** In the alias map every canonical name and every alias, in lower case
    and trimmed as [lookup] does, leads to its own canonical name. *)
Definition entries_lead_home (alias_map : list (string * string))
           (ranges : list (string * ReferenceRange)) : bool :=
  forallb (fun entry =>
             option_is (Dict.get (lower (strip (fst entry))) alias_map) (fst entry)
             && forallb (fun a => option_is (Dict.get (lower (strip a)) alias_map)
                                            (fst entry))
                        (aliases (snd entry)))
          ranges.

Lemma alias_map_entries : entries_lead_home _ALIAS_MAP NORMAL_RANGES = true.
Proof. vm_compute. reflexivity. Qed.

Lemma alias_map_values :
  forallb (fun kv => string_in (snd kv) (map fst NORMAL_RANGES)) _ALIAS_MAP = true.
Proof. vm_compute. reflexivity. Qed.

Definition keys_are_names (alias_map : list (string * string))
           (ranges : list (string * ReferenceRange)) : bool :=
  forallb (fun kv => catalog_nameb_in ranges (fst kv)) alias_map.

Lemma alias_map_keys : keys_are_names _ALIAS_MAP NORMAL_RANGES = true.
Proof. vm_compute. reflexivity. Qed.

Lemma lookup_canonical (c : string) (ref : ReferenceRange) :
  In (c, ref) NORMAL_RANGES -> lookup c = Ok (Some (c, ref)).
Proof.
  intros Hin. unfold lookup.
  pose proof alias_map_entries as H. unfold entries_lead_home in H.
  rewrite forallb_forall in H.
  specialize (H _ Hin). cbv beta iota delta [fst snd] in H. apply andb_prop in H as [H _].
  rewrite (option_is_spec _ _ H).
  now rewrite (get_present c ref NORMAL_RANGES canonical_names_distinct Hin).
Qed.

Lemma lookup_alias (c a : string) (ref : ReferenceRange) :
  In (c, ref) NORMAL_RANGES -> In a (aliases ref) -> lookup a = Ok (Some (c, ref)).
Proof.
  intros Hin Ha. unfold lookup.
  pose proof alias_map_entries as H. unfold entries_lead_home in H.
  rewrite forallb_forall in H.
  specialize (H _ Hin). cbv beta iota delta [fst snd] in H. apply andb_prop in H as [_ H].
  rewrite forallb_forall in H. specialize (H a Ha).
  rewrite (option_is_spec _ _ H).
  now rewrite (get_present c ref NORMAL_RANGES canonical_names_distinct Hin).
Qed.

Lemma lookup_cases (s : string) :
  lookup s = Ok None \/
  exists c ref, lookup s = Ok (Some (c, ref)) /\ In (c, ref) NORMAL_RANGES.
Proof.
  unfold lookup. destruct (Dict.get (lower (strip s)) _ALIAS_MAP) as [c|] eqn:E;
    [right|now left].
  apply get_In in E.
  pose proof alias_map_values as H. rewrite forallb_forall in H.
  specialize (H _ E). cbv beta iota delta [fst snd] in H. apply string_in_In in H.
  apply in_map_iff in H as ([c' ref] & Hc & Hin). simpl in Hc. subst c'.
  exists c, ref. split; [|assumption].
  now rewrite (get_present c ref NORMAL_RANGES canonical_names_distinct Hin).
Qed.

Lemma lookup_unknown (s : string) :
  ~ catalog_name (lower (strip s)) -> lookup s = Ok None.
Proof.
  intros Hn. unfold lookup. rewrite get_absent; [reflexivity|].
  intros Hk. apply Hn. apply in_map_iff in Hk as (kv & Hkv & Hin).
  pose proof alias_map_keys as H. unfold keys_are_names in H.
  rewrite forallb_forall in H.
  specialize (H _ Hin). rewrite Hkv in H. now apply catalog_nameb_spec.
Qed.

Lemma lookup_same_key (s t : string) :
  lower (strip s) = lower (strip t) -> lookup s = lookup t.
Proof. intros H. unfold lookup. now rewrite H. Qed.

(** C6. Every alias of the catalog is looked up to the same pair as its
    canonical name, which is that name with its own range.  Two names with
    the same lower-case form are looked up alike, and so are a name and the
    name with whitespace around it.  A name that, trimmed and in lower case,
    is no canonical name and no alias gives [None]; and [lookup] returns
    for every name. *)
Theorem lookup_alias_symmetry :
  (forall c ref a,
      In (c, ref) NORMAL_RANGES -> In a (aliases ref) ->
      lookup a = lookup c /\ lookup c = Ok (Some (c, ref))) /\
  (forall s t, lower s = lower t -> lookup s = lookup t) /\
  (forall pre s post,
      all_chars is_space pre = true -> all_chars is_space post = true ->
      lookup (pre ++ s ++ post) = lookup s) /\
  (forall s, ~ catalog_name (lower (strip s)) -> lookup s = Ok None) /\
  (forall s, returns (lookup s)).
Proof.
  refine (conj _ (conj _ (conj _ (conj _ _)))).
  - intros c ref a Hin Ha.
    now rewrite (lookup_alias c a ref Hin Ha), (lookup_canonical c ref Hin).
  - intros s t H. apply lookup_same_key.
    now rewrite <- !strip_lower, H.
  - intros pre s post Hpre Hpost. apply lookup_same_key.
    now rewrite strip_padding.
  - exact lookup_unknown.
  - intros s. destruct (lookup_cases s) as [H|(c & ref & H & _)];
      rewrite H; eexists; reflexivity.
Qed.

End CatalogProperties.

(** ** The extractor, for every arithmetic *)

Section ParserProperties.
Context {PF : PyFloat}.

Definition first_of (l : seen_t) : option (string * ExtractedTest) :=
  match l with
  | [] => None
  | kv :: _ => Some kv
  end.

(** what a line contributes when nothing was seen before: its key and its
    test *)
Definition candidate (line : string) : option (string * ExtractedTest) :=
  first_of (parse_line [] line).

(** a candidate enters [seen] when its key is new *)
Definition add_new (seen : seen_t) (cand : option (string * ExtractedTest)) : seen_t :=
  match cand with
  | None => seen
  | Some (key, t) => if contains_key key seen then seen else (seen ++ [(key, t)])%list
  end.

Definition with_key (key : string) (seen : seen_t) : seen_t :=
  filter (fun kv => String.eqb (fst kv) key) seen.

(** the first candidate of a list with the key [key] *)
Fixpoint first_with_key (key : string) (cands : list (option (string * ExtractedTest)))
  : option (string * ExtractedTest) :=
  match cands with
  | [] => None
  | Some (k, t) :: cands' =>
      if String.eqb k key then Some (k, t) else first_with_key key cands'
  | None :: cands' => first_with_key key cands'
  end.

Definition key_of_name (kv : string * ExtractedTest) : Prop :=
  fst kv = lower (raw_name (snd kv)).

Lemma add_spec (seen : seen_t) (name value_str line : string) :
  _add seen name value_str line = add_new seen (first_of (_add [] name value_str line)) /\
  (forall kv, first_of (_add [] name value_str line) = Some kv -> key_of_name kv).
Proof.
  unfold _add.
  destruct (String.eqb (_clean_name name) "" || (String.length (_clean_name name) <? 2)%nat);
    [split; [reflexivity|discriminate]|].
  destruct (re_fullmatch _ (_clean_name name)); [split; [reflexivity|discriminate]|].
  destruct (float_of_string value_str) as [val|]; [|split; [reflexivity|discriminate]].
  simpl. split; [reflexivity|]. intros kv [= <-]. reflexivity.
Qed.

Lemma parse_line_add_new (seen : seen_t) (line : string) :
  parse_line seen line = add_new seen (candidate line).
Proof.
  unfold candidate, parse_line.
  destruct (_is_noise line); [reflexivity|].
  destruct (re_match _COLON_PATTERN line) as [m|].
  - apply (proj1 (add_spec _ _ _ _)).
  - destruct (re_match _TABULAR_PATTERN line) as [m|]; [apply (proj1 (add_spec _ _ _ _))|reflexivity].
Qed.

Lemma candidate_key (line : string) (kv : string * ExtractedTest) :
  candidate line = Some kv -> key_of_name kv.
Proof.
  unfold candidate, parse_line.
  destruct (_is_noise line); [discriminate|].
  destruct (re_match _COLON_PATTERN line) as [m|].
  - apply (proj2 (add_spec [] _ _ _)).
  - destruct (re_match _TABULAR_PATTERN line) as [m|]; [apply (proj2 (add_spec [] _ _ _))|discriminate].
Qed.

Lemma fold_parse_line (lines : list string) (seen : seen_t) :
  fold_left parse_line lines seen = fold_left add_new (map candidate lines) seen.
Proof.
  revert seen. induction lines as [|l lines IH]; intros seen; simpl; [reflexivity|].
  now rewrite parse_line_add_new, IH.
Qed.

Lemma contains_key_In (key : string) (seen : seen_t) :
  contains_key key seen = true <-> In key (map fst seen).
Proof.
  induction seen as [|[k t] seen IH]; simpl; [split; [discriminate|tauto]|].
  rewrite orb_true_iff, IH, String.eqb_eq. tauto.
Qed.

Lemma contains_key_with_key (key : string) (seen : seen_t) :
  contains_key key seen = false <-> with_key key seen = [].
Proof.
  unfold with_key. induction seen as [|[k t] seen IH]; simpl; [tauto|].
  destruct (String.eqb k key); simpl; [split; discriminate|exact IH].
Qed.

Lemma with_key_add_new (key : string) (seen : seen_t)
      (cand : option (string * ExtractedTest)) :
  with_key key (add_new seen cand) =
    match with_key key seen with
    | [] => match first_with_key key [cand] with
            | Some kv => [kv]
            | None => []
            end
    | l => l
    end.
Proof.
  destruct cand as [[k t]|]; simpl.
  - destruct (contains_key k seen) eqn:Ek.
    + destruct (String.eqb k key) eqn:E.
      * apply String.eqb_eq in E. subst k.
        destruct (with_key key seen) eqn:Ew; [|reflexivity].
        apply contains_key_with_key in Ew. congruence.
      * now destruct (with_key key seen).
    + unfold with_key. rewrite filter_app. simpl.
      destruct (String.eqb k key) eqn:E.
      * apply String.eqb_eq in E. subst k.
        apply contains_key_with_key in Ek. unfold with_key in Ek.
        now rewrite Ek.
      * rewrite app_nil_r. now destruct (filter _ seen).
  - now destruct (with_key key seen).
Qed.

Lemma with_key_fold (key : string) (cands : list (option (string * ExtractedTest)))
      (seen : seen_t) :
  with_key key (fold_left add_new cands seen) =
    match with_key key seen with
    | [] => match first_with_key key cands with
            | Some kv => [kv]
            | None => []
            end
    | l => l
    end.
Proof.
  revert seen. induction cands as [|c cands IH]; intros seen; simpl.
  - now destruct (with_key key seen).
  - rewrite IH, with_key_add_new.
    destruct (with_key key seen) as [|kv l]; [|reflexivity].
    destruct c as [[k t]|]; simpl; [|reflexivity].
    destruct (String.eqb k key); reflexivity.
Qed.


Lemma add_new_keys (seen : seen_t) (cand : option (string * ExtractedTest)) :
  (forall kv, cand = Some kv -> key_of_name kv) ->
  Forall key_of_name seen -> NoDup (map fst seen) ->
  Forall key_of_name (add_new seen cand) /\ NoDup (map fst (add_new seen cand)).
Proof.
  intros Hc Hk Hnd. destruct cand as [[k t]|]; simpl; [|now split].
  destruct (contains_key k seen) eqn:E; [now split|]. split.
  - apply Forall_app. split; [assumption|]. constructor; [|constructor].
    now apply Hc.
  - rewrite map_app. simpl.
    apply NoDup_app; [assumption|constructor; [intros []|constructor]|].
    intros x Hx [<-|[]]. apply contains_key_In in Hx. congruence.
Qed.

Lemma fold_keys (lines : list string) (seen : seen_t) :
  Forall key_of_name seen -> NoDup (map fst seen) ->
  Forall key_of_name (fold_left add_new (map candidate lines) seen) /\
  NoDup (map fst (fold_left add_new (map candidate lines) seen)).
Proof.
  revert seen. induction lines as [|l lines IH]; intros seen Hk Hnd; simpl;
    [now split|].
  destruct (add_new_keys seen (candidate l)) as [Hk' Hnd']; try assumption.
  - intros kv. apply candidate_key.
  - now apply IH.
Qed.


Lemma keys_by_name (seen : seen_t) :
  Forall key_of_name seen ->
  map (fun e => lower (raw_name e)) (map snd seen) = map fst seen.
Proof.
  induction 1 as [|[k t] seen Hkv Hseen IH]; simpl; [reflexivity|].
  unfold key_of_name in Hkv. simpl in Hkv. now rewrite IH, Hkv.
Qed.


(** C8, for every line: a line shorter than 4 characters once trimmed, or
    one that a noise pattern matches, is noise and adds no candidate. *)
Lemma noise_adds_nothing (seen : seen_t) (line : string) :
  (String.length (strip line) < 4)%nat \/
  (exists m, re_search _NOISE_PATTERNS (strip line) = Some m) ->
  _is_noise line = true /\ parse_line seen line = seen /\ candidate line = None.
Proof.
  intros H.
  assert (Hn : _is_noise line = true).
  { unfold _is_noise. destruct H as [H|[m H]].
    - apply Nat.ltb_lt in H. now rewrite H.
    - rewrite H. now destruct (_ <? _)%nat. }
  unfold candidate, parse_line. rewrite Hn. auto.
Qed.

End ParserProperties.

(** ** [analyze], for every arithmetic *)

Section AnalyzeProperties.
Context {PF : PyFloat}.

(** the name of the test is a name of the catalog *)
Definition recognized (ext : ExtractedTest) : bool :=
  match lookup (raw_name ext) with
  | Ok (Some _) => true
  | _ => false
  end.

Definition unknown (ext : ExtractedTest) : bool := negb (recognized ext).

Arguments recognized ext : simpl never.
Arguments unknown ext : simpl never.

(** the test that [analyze] builds from a recognised test and its range *)
Definition analyzed_of (ext : ExtractedTest) (canonical : string)
           (ref : ReferenceRange) (st : Status) (deviation : F) : AnalyzedTest :=
  {| canonical_name := canonical;
     a_raw_name := raw_name ext;
     a_value := value ext;
     a_min_value := min_value ref;
     a_max_value := max_value ref;
     a_unit := unit ref;
     status := st;
     deviation_pct := deviation;
     severity := _severity_level st deviation |}.

(** the score of a run of [analyze], or its exception *)
Definition score_of (r : result AnalysisReport) : result Z :=
  report <- r ;; Ok (health_score report).

Definition matched_of (r : result AnalysisReport) : result (list AnalyzedTest) :=
  report <- r ;; Ok (matched report).

Lemma analyze_loop_step (ext : ExtractedTest) (tests : list ExtractedTest)
      (m : list AnalyzedTest) (u : list ExtractedTest) :
  analyze_loop (ext :: tests) m u =
    match lookup (raw_name ext) with
    | Ok None => analyze_loop tests m (u ++ [ext])
    | Ok (Some (c, ref)) =>
        match _classify (value ext) ref with
        | Ok (st, d) => analyze_loop tests (m ++ [analyzed_of ext c ref st d]) u
        | Raise e => Raise e
        end
    | Raise e => Raise e
    end.
Proof.
  cbn [analyze_loop].
  destruct (lookup (raw_name ext)) as [[[c ref]|]|e]; cbn [bind]; try reflexivity.
Qed.

(** a property of the tests that [analyze] builds holds for all of
    [matched] *)
Lemma analyze_loop_Forall (P : AnalyzedTest -> Prop) :
  (forall ext c ref st d,
      In (c, ref) NORMAL_RANGES ->
      _classify (value ext) ref = Ok (st, d) ->
      P (analyzed_of ext c ref st d)) ->
  forall tests m u m' u',
    Forall P m -> analyze_loop tests m u = Ok (m', u') -> Forall P m'.
Proof.
  intros HP. induction tests as [|ext tests IH]; intros m u m' u' Hm.
  - simpl. now intros [= <- _].
  - rewrite analyze_loop_step.
    destruct (lookup_cases (raw_name ext)) as [E|(c & ref & E & Hin)]; rewrite E.
    + apply IH. assumption.
    + destruct (_classify (value ext) ref) as [[st d]|e] eqn:Ec; [|discriminate].
      apply IH. apply Forall_app. split; [assumption|].
      constructor; [|constructor]. now apply HP.
Qed.

(** [analyze_loop] runs on the recognised tests; the others are collected *)
Lemma analyze_loop_filter (tests : list ExtractedTest)
      (m : list AnalyzedTest) (u : list ExtractedTest) :
  analyze_loop tests m u =
    match analyze_loop (filter recognized tests) m [] with
    | Ok (m', _) => Ok (m', (u ++ filter unknown tests)%list)
    | Raise e => Raise e
    end.
Proof.
  revert m u. induction tests as [|ext tests IH]; intros m u.
  - cbn [analyze_loop filter]. now rewrite app_nil_r.
  - change (filter unknown (ext :: tests))
      with (if unknown ext then ext :: filter unknown tests else filter unknown tests).
    change (filter recognized (ext :: tests))
      with (if recognized ext then ext :: filter recognized tests
            else filter recognized tests).
    rewrite analyze_loop_step. unfold unknown at 1.
    destruct (lookup_cases (raw_name ext)) as [E|(c & ref & E & Hin)].
    + assert (Hr : recognized ext = false) by (unfold recognized; now rewrite E).
      rewrite E, Hr, IH. simpl negb. cbv iota.
      destruct (analyze_loop (filter recognized tests) m []) as [[m' u']|e];
        [|reflexivity].
      now rewrite <- app_assoc.
    + assert (Hr : recognized ext = true) by (unfold recognized; now rewrite E).
      rewrite E, Hr. simpl negb. cbv iota. rewrite analyze_loop_step, E.
      destruct (_classify (value ext) ref) as [[st d]|e]; [|reflexivity].
      apply IH.
Qed.

Lemma filter_unknown_recognized (tests : list ExtractedTest) :
  filter unknown (filter recognized tests) = [].
Proof.
  induction tests as [|ext tests IH]; cbn [filter]; [reflexivity|].
  destruct (recognized ext) eqn:E; [|assumption].
  cbn [filter]. unfold unknown at 1. now rewrite E.
Qed.

Lemma filter_recognized_idem (tests : list ExtractedTest) :
  filter recognized (filter recognized tests) = filter recognized tests.
Proof.
  induction tests as [|ext tests IH]; cbn [filter]; [reflexivity|].
  destruct (recognized ext) eqn:E; [|assumption].
  cbn [filter]. now rewrite E, IH.
Qed.

(** the run on all tests, from the run on the recognised ones *)
Lemma analyze_filter (tests : list ExtractedTest) :
  analyze tests =
    match analyze (filter recognized tests) with
    | Ok report => Ok {| matched := matched report;
                         unrecognized := filter unknown tests;
                         health_score := health_score report |}
    | Raise e => Raise e
    end.
Proof.
  unfold analyze.
  rewrite (analyze_loop_filter tests [] []).
  rewrite (analyze_loop_filter (filter recognized tests) [] []).
  rewrite filter_recognized_idem.
  destruct (analyze_loop (filter recognized tests) [] []) as [[m u]|e];
    [|reflexivity].
  simpl. destruct (_compute_health_score m) as [z|e]; reflexivity.
Qed.

Lemma filter_recognized_remove (before after : list ExtractedTest)
      (ext : ExtractedTest) :
  recognized ext = false ->
  filter recognized (before ++ ext :: after) = filter recognized (before ++ after).
Proof. intros H. rewrite !filter_app. cbn [filter]. now rewrite H. Qed.

Lemma analyze_loop_returns (tests : list ExtractedTest)
      (m : list AnalyzedTest) (u : list ExtractedTest) :
  returns (analyze_loop tests m u).
Proof.
  revert m u. induction tests as [|ext tests IH]; intros m u.
  - eexists. reflexivity.
  - rewrite analyze_loop_step.
    destruct (lookup_cases (raw_name ext)) as [E|(c & ref & E & Hin)]; rewrite E.
    + apply IH.
    + destruct (classify_returns (value ext) ref) as [[st d] ->]. apply IH.
Qed.

(** the matched tests are the recognised tests, in their order *)
Lemma analyze_loop_names (tests : list ExtractedTest)
      (m m' : list AnalyzedTest) (u u' : list ExtractedTest) :
  analyze_loop tests m u = Ok (m', u') ->
  map a_raw_name m' = (map a_raw_name m ++ map raw_name (filter recognized tests))%list.
Proof.
  revert m u. induction tests as [|ext tests IH]; intros m u.
  - cbn [analyze_loop filter map]. intros [= <- _]. now rewrite app_nil_r.
  - change (filter recognized (ext :: tests))
      with (if recognized ext then ext :: filter recognized tests
            else filter recognized tests).
    rewrite analyze_loop_step.
    destruct (lookup_cases (raw_name ext)) as [E|(c & ref & E & Hin)].
    + assert (Hr : recognized ext = false) by (unfold recognized; now rewrite E).
      rewrite E, Hr. apply IH.
    + assert (Hr : recognized ext = true) by (unfold recognized; now rewrite E).
      rewrite E, Hr.
      destruct (_classify (value ext) ref) as [[st d]|e]; [|discriminate].
      intros H. apply IH in H. rewrite H, map_app, <- app_assoc. reflexivity.
Qed.

Lemma analyze_names (tests : list ExtractedTest) (report : AnalysisReport) :
  analyze tests = Ok report ->
  map a_raw_name (matched report) = map raw_name (filter recognized tests).
Proof.
  unfold analyze. intros H.
  destruct (analyze_loop tests [] []) as [[m u]|e] eqn:E; [|discriminate].
  cbn [bind] in H. destruct (_compute_health_score m) as [z|e]; [|discriminate].
  injection H as <-. cbn [matched]. now apply analyze_loop_names in E.
Qed.

(** the status and the severity of every matched test agree on Normal, and
    a Normal test has the deviation [0.0] *)
Lemma matched_status_severity (tests : list ExtractedTest) (report : AnalysisReport)
      (t : AnalyzedTest) :
  analyze tests = Ok report -> In t (matched report) ->
  (status t = NORMAL <-> severity t = SEV_NORMAL) /\
  (status t = NORMAL -> deviation_pct t = flit "0.0").
Proof.
  unfold analyze. intros H Hin.
  destruct (analyze_loop tests [] []) as [[m u]|e] eqn:E; [|discriminate].
  simpl in H. destruct (_compute_health_score m) as [z|e]; [|discriminate].
  injection H as <-. simpl in Hin.
  revert t Hin. apply Forall_forall.
  eapply analyze_loop_Forall; [|constructor|exact E].
  intros ext c ref st d _ Hc. simpl. split.
  - symmetry. apply severity_normal_iff.
  - intros ->. now apply classify_normal_deviation in Hc.
Qed.

End AnalyzeProperties.

(** ** Rounding to the nearest integer *)

Section Rounding.

Lemma nearest_even_lower (n : Z) (d : positive) (z : Z) :
  z * Zpos d <= n -> z <= nearest_even n d.
Proof.
  intros H. unfold nearest_even.
  pose proof (Z.div_mod n (Zpos d) ltac:(lia)) as Hdm.
  pose proof (Z.mod_pos_bound n (Zpos d) ltac:(lia)) as Hr.
  destruct (Z.compare_spec (2 * (n mod Zpos d)) (Zpos d));
    try destruct (Z.even (n / Zpos d)); nia.
Qed.

Lemma nearest_even_upper (n : Z) (d : positive) (z : Z) :
  n <= z * Zpos d -> nearest_even n d <= z.
Proof.
  intros H. unfold nearest_even.
  pose proof (Z.div_mod n (Zpos d) ltac:(lia)) as Hdm.
  pose proof (Z.mod_pos_bound n (Zpos d) ltac:(lia)) as Hr.
  destruct (Z.compare_spec (2 * (n mod Zpos d)) (Zpos d));
    try destruct (Z.even (n / Zpos d)); nia.
Qed.


End Rounding.

(** ** The scorer and [analyze] in exact arithmetic *)

Section ExactProperties.
#[local] Existing Instance Exact.rational.
Local Open Scope Q_scope.
Local Open Scope string_scope.

(** the data model of [AnalyzedTest]: [deviation_pct >= 0] *)
Definition deviation_nonneg (t : AnalyzedTest) : Prop := 0 <= deviation_pct t.

(** the part of its budget that a test of deviation [d] uses *)
Definition penalty_ratio (d : F) : F :=
  let raw := py_min d (flit "100.0") in raw / (raw + 20).

Lemma py_min_bounds (d : F) : 0 <= d -> 0 <= py_min d (flit "100.0") <= 100.
Proof.
  intros Hd. unfold py_min. change (@flit Exact.rational "100.0") with (1000 # 10).
  change (@fltb Exact.rational (1000 # 10) d) with (Exact.Qltb (1000 # 10) d).
  destruct (Exact.Qltb (1000 # 10) d) eqn:E.
  - split; [discriminate|]. unfold Qle. simpl. lia.
  - split; [assumption|].
    unfold Exact.Qltb in E. apply negb_false_iff, Qle_bool_iff in E.
    eapply Qle_trans; [exact E|]. unfold Qle. simpl. lia.
Qed.

Lemma penalty_ratio_bounds (d : F) :
  0 <= d ->
  fdiv (py_min d (flit "100.0")) (fadd (py_min d (flit "100.0")) (of_int 20))
    = Ok (penalty_ratio d) /\
  0 <= penalty_ratio d <= 100 # 120.
Proof.
  intros Hd. destruct (py_min_bounds d Hd) as [H0 H100].
  unfold penalty_ratio. set (raw := py_min d (flit "100.0")) in *.
  assert (Hpos : 0 < raw + 20) by lra.
  split.
  - unfold fdiv. change (@feqb Exact.rational (@fadd Exact.rational raw (of_int 20)) (of_int 0))
      with (Qeq_bool (raw + 20) 0).
    destruct (Qeq_bool (raw + 20) 0) eqn:E; [|reflexivity].
    apply Qeq_bool_iff in E. lra.
  - split.
    + apply Qle_shift_div_l; [assumption|]. lra.
    + apply Qle_shift_div_r; [assumption|]. lra.
Qed.

Lemma add_penalties_bounds (m : F) (ts : list AnalyzedTest) (p : F) :
  0 <= m -> Forall deviation_nonneg ts ->
  exists p', add_penalties m ts p = Ok p' /\
             p <= p' <= p + inject_Z (Z.of_nat (List.length ts)) * (m * (100 # 120)).
Proof.
  intros Hm Hts. revert p. induction Hts as [|t ts Ht Hts IH]; intros p.
  - exists p. split; [reflexivity|]. cbn [List.length Z.of_nat].
    change (inject_Z 0) with 0. lra.
  - cbn [add_penalties List.length]. rewrite Nat2Z.inj_succ. unfold Z.succ.
    rewrite inject_Z_plus.
    assert (Hc : 0 <= m * (100 # 120)) by (apply Qmult_le_0_compat; [assumption|discriminate]).
    destruct (negb (Status_eqb (status t) NORMAL)).
    + destruct (penalty_ratio_bounds _ Ht) as [-> [Hq0 Hq1]]. cbn [bind].
      change (@fadd Exact.rational p (@fmul Exact.rational m (penalty_ratio (deviation_pct t))))
        with (p + m * penalty_ratio (deviation_pct t)).
      assert (0 <= m * penalty_ratio (deviation_pct t)) by now apply Qmult_le_0_compat.
      assert (m * penalty_ratio (deviation_pct t) <= m * (100 # 120)).
      { rewrite !(Qmult_comm m). now apply Qmult_le_compat_r. }
      destruct (IH (p + m * penalty_ratio (deviation_pct t))) as (p' & -> & Hlo & Hhi).
      exists p'. split; [reflexivity|].
      revert Hhi. set (c := m * (100 # 120)) in *.
      set (n := inject_Z (Z.of_nat (List.length ts))). intros Hhi.
      change (inject_Z 1) with 1. lra.
    + destruct (IH p) as (p' & -> & Hlo & Hhi). exists p'. split; [reflexivity|].
      revert Hhi. set (c := m * (100 # 120)) in *.
      set (n := inject_Z (Z.of_nat (List.length ts))). intros Hhi.
      change (inject_Z 1) with 1. lra.
Qed.

Lemma whole_budget (n : nat) :
  n <> 0%nat -> inject_Z (Z.of_nat n) * (100 # Pos.of_nat n) == 100.
Proof.
  intros Hn.
  assert (E : Zpos (Pos.of_nat n) = Z.of_nat n).
  { rewrite <- positive_nat_Z, Nat2Pos.id by assumption. reflexivity. }
  unfold Qeq, Qmult, inject_Z. cbn [Qnum Qden].
  rewrite Pos2Z.inj_mul, E. lia.
Qed.

Lemma round_half_even_le (q : Q) (z : Z) :
  q <= inject_Z z -> (Exact.round_half_even q <= z)%Z.
Proof.
  unfold Qle, inject_Z. simpl. intros H. apply nearest_even_upper. lia.
Qed.



(** what [_compute_health_score] computes for a list that is not empty *)
Lemma health_score_penalty (tests : list AnalyzedTest) :
  tests <> [] -> Forall deviation_nonneg tests ->
  exists penalty,
    add_penalties (of_ratio 100 (Pos.of_nat (List.length tests))) tests (flit "0.0")
      = Ok penalty /\
    0 <= penalty <= 500 # 6 /\
    _compute_health_score tests
      = Ok (py_max 0 (Exact.round_half_even (100 - penalty))).
Proof.
  intros Hne Hts.
  assert (Hn : List.length tests <> 0%nat) by (destruct tests; [congruence|discriminate]).
  destruct (add_penalties_bounds (100 # Pos.of_nat (List.length tests)) tests
              (flit "0.0") ltac:(discriminate) Hts) as (p & Hp & Hlo & Hhi).
  exists p. split; [exact Hp|]. split.
  - change (@flit Exact.rational "0.0") with (0 # 10) in *.
    rewrite Qmult_assoc, (whole_budget _ Hn) in Hhi. split.
    + eapply Qle_trans; [|exact Hlo]. discriminate.
    + eapply Qle_trans; [exact Hhi|]. discriminate.
  - unfold _compute_health_score. destruct tests as [|t ts]; [congruence|].
    change (100 # Pos.of_nat (List.length (t :: ts)))
      with (@of_ratio Exact.rational 100 (Pos.of_nat (List.length (t :: ts)))) in Hp.
    rewrite Hp. reflexivity.
Qed.

Lemma health_score_bounds (tests : list AnalyzedTest) :
  Forall deviation_nonneg tests ->
  exists z, _compute_health_score tests = Ok z /\ (0 <= z <= 100)%Z.
Proof.
  intros Hts. destruct tests as [|t ts].
  - exists 100%Z. split; [reflexivity|lia].
  - destruct (health_score_penalty (t :: ts) ltac:(discriminate) Hts)
      as (p & _ & [Hlo Hhi] & ->).
    eexists. split; [reflexivity|].
    assert (Exact.round_half_even (100 - p) <= 100)%Z.
    { apply round_half_even_le. change (inject_Z 100) with 100. lra. }
    unfold py_max. destruct (Z.ltb_spec 0 (Exact.round_half_even (100 - p))); lia.
Qed.

Lemma round1_nonneg (q : F) : 0 <= q -> 0 <= round1 q.
Proof.
  intros Hq. change (round1 q) with (nearest_even (Qnum (q * 10)) (Qden (q * 10)) # 10).
  assert (H10 : 0 <= q * 10) by (apply Qmult_le_0_compat; [assumption|discriminate]).
  unfold Qle in *. simpl in *.
  pose proof (nearest_even_lower (Qnum (q * 10)) (Qden (q * 10)) 0) as H.
  simpl in H. lia.
Qed.

Lemma span_of_nonneg (b : F) : 0 <= b -> 0 <= span_of b.
Proof.
  intros Hb. unfold span_of.
  destruct (negb (feqb b (of_int 0))); [assumption|discriminate].
Qed.

Lemma deviation_nonneg_formula (x b : F) :
  0 <= b -> 0 <= round1 (fmul (fquot (fabs x) (span_of b)) (of_int 100)).
Proof.
  intros Hb. apply round1_nonneg.
  change (0 <= Qabs x / span_of b * (100 # 1)).
  apply Qmult_le_0_compat; [|discriminate].
  apply Qmult_le_0_compat; [apply Qabs_nonneg|].
  apply Qinv_le_0_compat. now apply span_of_nonneg.
Qed.

Definition bounds_nonneg (ranges : list (string * ReferenceRange)) : bool :=
  forallb (fun entry => Qle_bool 0 (min_value (snd entry))
                        && Qle_bool 0 (max_value (snd entry))) ranges.

Lemma catalog_bounds_nonneg : bounds_nonneg NORMAL_RANGES = true.
Proof. vm_compute. reflexivity. Qed.

Lemma classify_deviation_nonneg (c : string) (ref : ReferenceRange)
      (v : F) (st : Status) (d : F) :
  In (c, ref) NORMAL_RANGES -> _classify v ref = Ok (st, d) -> 0 <= d.
Proof.
  intros Hin. pose proof catalog_bounds_nonneg as H.
  unfold bounds_nonneg in H. rewrite forallb_forall in H. specialize (H _ Hin).
  cbv beta iota delta [snd] in H. apply andb_prop in H as [Hmin Hmax].
  apply Qle_bool_iff in Hmin, Hmax.
  rewrite classify_cases.
  destruct (fltb v (min_value ref)); [|destruct (fltb (max_value ref) v)];
    intros E;
    match type of E with
    | Ok (_, ?x) = _ => replace d with x by congruence
    end.
  - now apply deviation_nonneg_formula.
  - now apply deviation_nonneg_formula.
  - discriminate.
Qed.

(** [analyze] returns for every list, and its report is well formed *)
Lemma analyze_returns (tests : list ExtractedTest) :
  exists report,
    analyze tests = Ok report /\
    Forall deviation_nonneg (matched report) /\
    _compute_health_score (matched report) = Ok (health_score report) /\
    unrecognized report = filter unknown tests /\
    (0 <= health_score report <= 100)%Z.
Proof.
  destruct (analyze_loop_returns tests [] []) as [[m u] Hloop].
  assert (Hm : Forall deviation_nonneg m).
  { eapply (analyze_loop_Forall deviation_nonneg); [|constructor|exact Hloop].
    intros ext c ref st d Hin Hc. unfold deviation_nonneg. simpl.
    eapply classify_deviation_nonneg; eassumption. }
  destruct (health_score_bounds m Hm) as (z & Hz & Hb).
  assert (Ha : analyze tests = Ok {| matched := m; unrecognized := u; health_score := z |}).
  { unfold analyze. rewrite Hloop. cbn [bind]. rewrite Hz. reflexivity. }
  eexists. split; [exact Ha|]. cbn [matched unrecognized health_score].
  repeat split; try assumption; try apply Hb.
  rewrite analyze_filter in Ha.
  destruct (analyze (filter recognized tests)) as [r|e]; [|discriminate].
  now injection Ha as _ <- _.
Qed.




End ExactProperties.

(** ** Unrecognised names *)

(** C9. For every arithmetic, [lookup] returns on the name of every test,
    and a run of [analyze] is the run on the recognised tests with the
    others collected in [unrecognized]: it has the same matched tests and
    the same score, or raises the same exception; so a run with an
    unrecognised test more or less has the same score.  In exact arithmetic
    [analyze] returns for every list, its [unrecognized] holds the tests
    with no catalog match, its [matched] the recognised tests in their
    order, and its score is that of [matched]. *)
Theorem analyze_sets_unrecognized_aside :
  (forall (PF : PyFloat) (tests : list ExtractedTest),
      (forall ext, In ext tests -> returns (lookup (raw_name ext))) /\
      analyze tests =
        match analyze (filter recognized tests) with
        | Ok report => Ok {| matched := matched report;
                             unrecognized := filter unknown tests;
                             health_score := health_score report |}
        | Raise e => Raise e
        end) /\
  (forall (PF : PyFloat) (before after : list ExtractedTest) (ext : ExtractedTest),
      recognized ext = false ->
      score_of (analyze (before ++ ext :: after)) = score_of (analyze (before ++ after)) /\
      matched_of (analyze (before ++ ext :: after))
        = matched_of (analyze (before ++ after))) /\
  (forall tests : list (@ExtractedTest Exact.rational),
      exists report,
        analyze tests = Ok report /\
        unrecognized report = filter unknown tests /\
        map a_raw_name (matched report) = map raw_name (filter recognized tests) /\
        _compute_health_score (matched report) = Ok (health_score report)).
Proof.
  refine (conj _ (conj _ _)).
  - intros PF tests. split; [|apply analyze_filter].
    intros ext _. destruct (lookup_cases (raw_name ext)) as [H|(c & ref & H & _)];
      rewrite H; eexists; reflexivity.
  - intros PF before after ext Hext.
    rewrite (analyze_filter (before ++ ext :: after)), (analyze_filter (before ++ after)).
    rewrite (filter_recognized_remove before after ext Hext).
    destruct (analyze (filter recognized (before ++ after))); split; reflexivity.
  - intros tests. destruct (analyze_returns tests) as (r & Hr & _ & Hs & Hu & _).
    exists r. pose proof (analyze_names tests r Hr). auto.
Qed.

(** ** Scenarios, in binary64 arithmetic *)

Definition newline : string := String (ascii_of_N 10) EmptyString.

Definition single_high_text : string := "Fasting Glucose 118 mg/dL 70 - 100".

Definition noise_text : string :=
  "Page 1/2" ++ newline ++ "Patient Name: John Doe" ++ newline
  ++ "Hemoglobin 11.2 g/dL 12.0 - 17.5".

(** evaluation of a closed scenario: the results are computed, and named as
    the witnesses *)
Ltac scenario :=
  repeat match goal with
    | |- exists x, ?run = Ok x /\ _ =>
        let r := eval vm_compute in run in
        match r with Ok ?v => exists v end
    | |- exists x, ?run = [x] /\ _ =>
        let r := eval vm_compute in run in
        match r with [?v] => exists v end
    | |- _ /\ _ => split
    | |- _ => reflexivity
    end.

(** C3. The line ["Fasting Glucose 118 mg/dL 70 - 100"] gives one matched
    test, High, with deviation 18.0 and severity Moderate, no unrecognised
    test, and a score above 50 and below 100. *)
Theorem single_high_value :
  exists report,
    analyze (PF := B64.binary64) (parse_lab_values single_high_text) = Ok report /\
    unrecognized report = [] /\
    50 < health_score report < 100 /\
    exists t, matched report = [t] /\
              canonical_name t = "fasting glucose" /\
              status t = HIGH /\
              deviation_pct t = flit "18.0" /\
              severity t = MODERATE.
Proof.
  scenario.
Qed.

(** C8. Of the three lines ["Page 1/2"], ["Patient Name: John Doe"] and
    ["Hemoglobin 11.2 g/dL 12.0 - 17.5"] the first two are noise and the
    third gives the only test, Hemoglobin with value 11.2, which [analyze]
    classifies Low.  For every arithmetic, a line shorter than 4 characters
    once trimmed, or matched by a noise pattern, adds nothing. *)
Theorem noise_lines_are_dropped :
  (map _is_noise (splitlines noise_text) = [true; true; false] /\
   exists e,
     parse_lab_values (PF := B64.binary64) noise_text = [e] /\
     raw_name e = "Hemoglobin" /\ value e = flit "11.2" /\
     exists report,
       analyze [e] = Ok report /\
       unrecognized report = [] /\
       exists t, matched report = [t] /\ canonical_name t = "hemoglobin" /\
                 status t = LOW) /\
  (forall (PF : PyFloat) (seen : seen_t) (line : string),
      (String.length (strip line) < 4)%nat \/
      (exists m, re_search _NOISE_PATTERNS (strip line) = Some m) ->
      _is_noise line = true /\ parse_line seen line = seen /\ candidate line = None).
Proof.
  split; [scenario|intros PF; apply noise_adds_nothing].
Qed.

Definition just_above_text : string := "Platelet Count 400.1".

Definition just_above_text' : string := "Fasting Glucose 100.01 mg/dL 70 - 100".

(** C1, where it fails.  A platelet count of 400.1 is above the maximum
    400.0 by 0.025 %, which [round(deviation, 1)] makes 0.0: the test is High
    and Mild with the deviation 0.0 of a Normal test.  The same happens to a
    fasting glucose of 100.01, and in exact arithmetic. *)
Theorem high_status_with_zero_deviation :
  (exists report,
      analyze (PF := B64.binary64) (parse_lab_values just_above_text) = Ok report /\
      exists t, matched report = [t] /\ canonical_name t = "platelets" /\
                status t = HIGH /\ severity t = MILD /\
                deviation_pct t = flit "0.0" /\
                feqb (deviation_pct t) (flit "0.0") = true) /\
  (exists report,
      analyze (PF := B64.binary64) (parse_lab_values just_above_text') = Ok report /\
      exists t, matched report = [t] /\ canonical_name t = "fasting glucose" /\
                status t = HIGH /\ severity t = MILD /\
                deviation_pct t = flit "0.0" /\
                feqb (deviation_pct t) (flit "0.0") = true) /\
  (exists report,
      analyze (PF := Exact.rational) (parse_lab_values just_above_text) = Ok report /\
      exists t, matched report = [t] /\ canonical_name t = "platelets" /\
                status t = HIGH /\ severity t = MILD /\
                feqb (deviation_pct t) (flit "0.0") = true).
Proof.
  scenario.
Qed.

(** a test as far above its range as the scorer distinguishes *)
Definition far_above : @AnalyzedTest B64.binary64 :=
  {| canonical_name := "crp"; a_raw_name := "CRP";
     a_value := flit "10.5"; a_min_value := flit "0.0"; a_max_value := flit "3.0";
     a_unit := "mg/L"; status := HIGH; deviation_pct := flit "250.0";
     severity := CRITICAL |}.

(** In binary64 arithmetic too, 1 to 60 such tests score 17. *)
Lemma binary64_lowest_scores :
  forallb (fun n => match _compute_health_score (repeat far_above n) with
                    | Ok z => z =? 17
                    | Raise _ => false
                    end)
          (List.seq 1 60) = true.
Proof. vm_compute. reflexivity. Qed.

(** * More of the program *)

(** ** PDF text extraction *)

(** [extract_text_from_pdf] of [parser.py].  The library is what it is
    called with: every call of [pdfplumber] returns a value or raises an
    exception of the class [Exception], of which the function uses the text
    [str(exc)] only; [pdf.pages] is the same list each time it is read.  The
    messages have characters beyond those of [string], so they are lists of
    code points. *)
Module Pdf.
Import Str.

Definition codes (s : string) : list N := map code (list_ascii_of_string s).

(** the outcome of a call of the library *)
Inductive lib (A : Type) : Type :=
| Returns (a : A)
| Fails (str_exc : list N).

Arguments Returns {A} a.
Arguments Fails {A} str_exc.

(** [page.extract_text()]: a text or [None] *)
Definition page : Type := lib (option string).

(** the object that [pdfplumber.open] returns: [pdf.pages] and the call of
    [pdf.close()] that leaving the [with] block makes *)
Record pdf : Type := {
  pages : lib (list page);
  close : lib Datatypes.unit
}.

(** the file: [pdfplumber.open(file)] *)
Definition file : Type := lib pdf.

Inductive pdf_exn : Type :=
| EmptyPDFError (message : list N)
| PDFExtractionError (message : list N).

Inductive extraction : Type :=
| Text (full_text : string)
| Raised (e : pdf_exn).

(** what the body of the [with] block does *)
Inductive body_outcome : Type :=
| Return (full_text : string)
| RaiseEmpty (message : list N)
| RaiseOther (str_exc : list N).

Definition no_pages_message : list N :=
  codes "The uploaded PDF has no pages. Please upload a valid lab report.".

Definition no_text_message : list N :=
  (codes "Could not extract any text from the PDF. The file may be a scanned image "
   ++ [8212%N]
   ++ codes " please upload a text" ++ [8209%N] ++ codes "based PDF.")%list.

Definition failed_to_read (str_exc : list N) : list N :=
  (codes "Failed to read PDF: " ++ str_exc)%list.

(** [sep.join(parts)] *)
Fixpoint join (sep : string) (parts : list string) : string :=
  match parts with
  | [] => EmptyString
  | [part] => part
  | part :: parts' => part ++ sep ++ join sep parts'
  end.

(** the loop over the pages; [if text:] holds for a text that is not empty *)
Fixpoint extract_pages (ps : list page) (pages_text : list string)
  : lib (list string) :=
  match ps with
  | [] => Returns pages_text
  | Fails e :: _ => Fails e
  | Returns (Some (String c t)) :: ps' =>
      extract_pages ps' (pages_text ++ [String c t])
  | Returns _ :: ps' => extract_pages ps' pages_text
  end.

Definition with_body (p : pdf) : body_outcome :=
  match pages p with
  | Fails e => RaiseOther e
  | Returns [] => RaiseEmpty no_pages_message
  | Returns ps =>
      match extract_pages ps [] with
      | Fails e => RaiseOther e
      | Returns pages_text =>
          let full_text := strip (join newline pages_text) in
          match full_text with
          | EmptyString => RaiseEmpty no_text_message
          | _ => Return full_text
          end
      end
  end.

(** An exception of [close] replaces what the body did; [EmptyPDFError]
    is raised again as it is; every other exception is wrapped. *)
Definition extract_text_from_pdf (f : file) : extraction :=
  match f with
  | Fails e => Raised (PDFExtractionError (failed_to_read e))
  | Returns p =>
      let outcome := with_body p in
      match close p with
      | Fails e => Raised (PDFExtractionError (failed_to_read e))
      | Returns _ =>
          match outcome with
          | Return full_text => Text full_text
          | RaiseEmpty message => Raised (EmptyPDFError message)
          | RaiseOther e => Raised (PDFExtractionError (failed_to_read e))
          end
      end
  end.

End Pdf.

(** ** The dashboard: banner, colours and risk categories *)

(** The functions of [app.py] that compute from the report.  What they
    pass to [st.markdown] is their result. *)
Module App.

Definition quote : string := String (ascii_of_N 34) EmptyString.





(** [status.value] and [severity.value] *)
Definition status_value (s : Status) : string :=
  match s with
  | LOW => "Low"
  | NORMAL => "Normal"
  | HIGH => "High"
  end.

Definition severity_value (s : Severity) : string :=
  match s with
  | SEV_NORMAL => "Normal"
  | MILD => "Mild"
  | MODERATE => "Moderate"
  | CRITICAL => "Critical"
  end.

(** the class and the label of [_status_badge] *)
Definition status_badge (status : Status) (severity : Severity) : string * string :=
  if Status_eqb status NORMAL then ("badge-normal", status_value status)
  else
    let sev_key := Str.lower (severity_value severity) in
    let base := if Status_eqb status HIGH then "high" else "low" in
    ("badge-" ++ base ++ "-" ++ sev_key,
     status_value status ++ " <span class=" ++ quote ++ "sev-label" ++ quote ++ ">("
     ++ severity_value severity ++ ")</span>").

Definition _status_badge (status : Status) (severity : Severity) : string :=
  let '(cls, label) := status_badge status severity in
  "<span class=" ++ quote ++ "badge " ++ cls ++ quote ++ ">" ++ label ++ "</span>".

(** the classes of badges that the style sheet of [app.py] defines *)
Definition badge_classes : list string :=
  [ "badge-normal";
    "badge-high-mild"; "badge-high-moderate"; "badge-high-critical";
    "badge-low-mild"; "badge-low-moderate"; "badge-low-critical" ].

(** the value of a category in [_RISK_CATEGORIES]: the icon, as code points,
    and the set of the canonical names, of which only membership is asked *)
Record RiskCategory : Type := {
  icon : list N;
  tests : list string
}.

Definition _RISK_CATEGORIES : list (string * RiskCategory) :=
  [ ("Cardiovascular",
     {| icon := [10084; 65039]%N;
        tests := ["total cholesterol"; "ldl"; "hdl"; "triglycerides"; "vldl"] |});
    ("Metabolic / Diabetes",
     {| icon := [127852]%N;
        tests := ["fasting glucose"; "random glucose"; "hba1c"; "pp glucose"] |});
    ("Kidney",
     {| icon := [129752]%N;
        tests := ["creatinine"; "bun"; "urea"; "uric acid"; "egfr"] |});
    ("Liver",
     {| icon := [129729]%N;
        tests := ["sgot"; "sgpt"; "alkaline phosphatase"; "total bilirubin"; "direct bilirubin"; "albumin"; "globulin"; "total protein"; "ag ratio"; "ggt"] |});
    ("Thyroid",
     {| icon := [129419]%N;
        tests := ["tsh"; "t3"; "t4"; "free t3"; "free t4"] |});
    ("Bone & Minerals",
     {| icon := [129460]%N;
        tests := ["vitamin d"; "calcium"; "phosphorus"; "magnesium"] |});
    ("Blood (CBC)",
     {| icon := [129656]%N;
        tests := ["hemoglobin"; "hematocrit"; "rbc"; "wbc"; "platelets"; "mcv"; "mch"; "mchc"; "rdw"; "mpv"] |});
    ("Iron & Vitamins",
     {| icon := [128138]%N;
        tests := ["iron"; "ferritin"; "tibc"; "vitamin b12"; "folate"] |});
    ("Electrolytes",
     {| icon := [9889]%N;
        tests := ["sodium"; "potassium"; "chloride"] |});
    ("Inflammation",
     {| icon := [128293]%N;
        tests := ["esr"; "crp"] |}) ].

(** an entry of the result of [_categorize_risks], without its
    [test_details], which list the matched tests of the category once more *)
Record CategoryRisk : Type := {
  category : string;
  r_icon : list N;
  risk_level : string;
  abnormal : Z;
  total : Z
}.

(** [order.get(x["risk_level"], 4)] *)
Definition order (level : string) : Z :=
  if String.eqb level "high" then 0
  else if String.eqb level "moderate" then 1
  else if String.eqb level "low" then 2
  else if String.eqb level "normal" then 3
  else 4.

(** [list.sort(key=...)]: the stable sort *)
Fixpoint insert_by {A : Type} (key : A -> Z) (x : A) (l : list A) : list A :=
  match l with
  | [] => [x]
  | y :: l' => if key x <=? key y then x :: l else y :: insert_by key x l'
  end.

Fixpoint sort_by {A : Type} (key : A -> Z) (l : list A) : list A :=
  match l with
  | [] => []
  | x :: l' => insert_by key x (sort_by key l')
  end.

Section App.
Context {PF : PyFloat}.

Definition is_abnormal (t : AnalyzedTest) : bool := negb (Status_eqb (status t) NORMAL).




(** the level of a category with [abnormal] tests out of range among
    [matched] *)
Definition level_of (abnormal matched : nat) : string :=
  let ratio := match matched with
               | O => of_int 0
               | _ => of_ratio (Z.of_nat abnormal) (Pos.of_nat matched)
               end in
  if feqb ratio (of_int 0) then "normal"
  else if fltb ratio (flit "0.4") then "low"
  else if fltb ratio (flit "0.7") then "moderate"
  else "high".

(** the loop of [_categorize_risks] *)
Fixpoint categorize_loop (categories : list (string * RiskCategory))
         (tests_ : list AnalyzedTest) (results : list CategoryRisk)
  : list CategoryRisk :=
  match categories with
  | [] => results
  | (cat_name, cat_info) :: categories' =>
      let matched :=
        filter (fun t => existsb (String.eqb (canonical_name t)) (tests cat_info)) tests_ in
      match matched with
      | [] => categorize_loop categories' tests_ results
      | _ =>
          let abnormal := filter is_abnormal matched in
          let level := level_of (List.length abnormal) (List.length matched) in
          categorize_loop categories' tests_
            (results ++ [{| category := cat_name;
                            r_icon := icon cat_info;
                            risk_level := level;
                            abnormal := Z.of_nat (List.length abnormal);
                            total := Z.of_nat (List.length matched) |}])
      end
  end.

Definition _categorize_risks (tests_ : list AnalyzedTest) : list CategoryRisk :=
  sort_by (fun x => order (risk_level x)) (categorize_loop _RISK_CATEGORIES tests_ []).

End App.
End App.

(** ** Strings and lists *)

Section StringMore.

Lemma lstrip_head (p : ascii -> bool) (s : string) :
  lstrip_by p s = EmptyString \/
  exists c t, lstrip_by p s = String c t /\ p c = false.
Proof.
  induction s as [|c s IH]; [now left|]. cbn [lstrip_by].
  destruct (p c) eqn:E; [exact IH|]. right. now exists c, s.
Qed.

Lemma rstrip_cons (p : ascii -> bool) (c : ascii) (s : string) :
  p c = false -> rstrip_by p (String c s) = String c (rstrip_by p s).
Proof.
  intros H. cbn [rstrip_by]. rewrite H. now destruct (rstrip_by p s).
Qed.

Lemma rstrip_idem (p : ascii -> bool) (s : string) :
  rstrip_by p (rstrip_by p s) = rstrip_by p s.
Proof.
  induction s as [|c s IH]; [reflexivity|]. cbn [rstrip_by].
  destruct (rstrip_by p s) as [|d t] eqn:E.
  - destruct (p c) eqn:Ec; [reflexivity|]. cbn [rstrip_by]. now rewrite Ec.
  - change (rstrip_by p (String c (String d t)))
      with (match rstrip_by p (String d t) with
            | EmptyString => if p c then EmptyString else String c EmptyString
            | x => String c x
            end).
    now rewrite IH.
Qed.

Lemma strip_idem (s : string) : strip (strip s) = strip s.
Proof.
  unfold strip. destruct (lstrip_head is_space s) as [->|(c & t & -> & Hc)].
  - reflexivity.
  - rewrite (rstrip_cons _ _ _ Hc). cbn [lstrip_by]. rewrite Hc.
    now rewrite (rstrip_cons _ _ _ Hc), rstrip_idem.
Qed.

Lemma rstrip_empty (p : ascii -> bool) (s : string) :
  rstrip_by p s = EmptyString -> all_chars p s = true.
Proof.
  induction s as [|c s IH]; [reflexivity|]. cbn [rstrip_by all_chars].
  destruct (rstrip_by p s); [|discriminate].
  destruct (p c); [|discriminate]. intros _. now rewrite IH.
Qed.

Lemma lstrip_suffix (p : ascii -> bool) (s : string) :
  all_chars p (lstrip_by p s) = true -> all_chars p s = true.
Proof.
  induction s as [|c s IH]; [reflexivity|]. cbn [lstrip_by].
  destruct (p c) eqn:E.
  - intros H. cbn [all_chars]. now rewrite E, IH.
  - cbn [all_chars]. now rewrite E.
Qed.

(** a text is trimmed to nothing exactly when it is whitespace *)
Lemma strip_empty (s : string) :
  strip s = EmptyString <-> all_chars is_space s = true.
Proof.
  unfold strip. split.
  - intros H. apply lstrip_suffix. now apply rstrip_empty.
  - intros H. now rewrite (lstrip_all _ _ H).
Qed.

Lemma all_chars_app (p : ascii -> bool) (a b : string) :
  all_chars p (a ++ b) = all_chars p a && all_chars p b.
Proof.
  induction a as [|c a IH]; [reflexivity|]. cbn [append all_chars].
  now rewrite IH, andb_assoc.
Qed.

End StringMore.

Section ListMore.

Lemma filter_none {A : Type} (f : A -> bool) (l : list A) :
  (forall x, In x l -> f x = false) -> filter f l = [].
Proof.
  induction l as [|x l IH]; intros H; [reflexivity|]. simpl.
  rewrite (H x (or_introl eq_refl)). apply IH. intros y Hy. apply H. now right.
Qed.

Lemma filter_length_le {A : Type} (f : A -> bool) (l : list A) :
  (List.length (filter f l) <= List.length l)%nat.
Proof.
  induction l as [|x l IH]; cbn [filter List.length]; [lia|].
  destruct (f x); cbn [List.length]; lia.
Qed.

Lemma NoDup_map_filter {A B : Type} (g : A -> B) (f : A -> bool) (l : list A) :
  NoDup (map g l) -> NoDup (map g (filter f l)).
Proof.
  induction l as [|x l IH]; cbn [map filter]; [constructor|].
  intros H. inversion H as [|? ? Hx Hl]; subst.
  destruct (f x); [|now apply IH]. cbn [map]. constructor; [|now apply IH].
  intros Hin. apply Hx. apply in_map_iff in Hin as (y & <- & Hy).
  apply in_map. now apply filter_In in Hy.
Qed.

End ListMore.

(** ** The extractor: what it keeps, in which order, and where from *)

Section ExtractorMore.
Context {PF : PyFloat}.

(** the tests that the lines give one by one, in the order of the lines *)
Definition tests_of (cands : list (option (string * ExtractedTest)))
  : list ExtractedTest :=
  flat_map (fun c => match c with Some (_, t) => [t] | None => [] end) cands.

Definition line_tests (lines : list string) : list ExtractedTest :=
  tests_of (map candidate lines).

(** [s] is [l] with some elements left out *)
Inductive subsequence {A : Type} : list A -> list A -> Prop :=
| sub_nil : forall l, subsequence [] l
| sub_take : forall x s l, subsequence s l -> subsequence (x :: s) (x :: l)
| sub_skip : forall x s l, subsequence s l -> subsequence s (x :: l).

Lemma subsequence_length {A : Type} (s l : list A) :
  subsequence s l -> (List.length s <= List.length l)%nat.
Proof. induction 1; simpl; lia. Qed.

Lemma subsequence_In {A : Type} (s l : list A) (x : A) :
  subsequence s l -> In x s -> In x l.
Proof.
  induction 1 as [l|y s l _ IH|y s l _ IH]; simpl; [tauto| |]; intros H.
  - destruct H as [H|H]; [now left|right; now apply IH].
  - right. now apply IH.
Qed.

Lemma fold_add_new_extends (cands : list (option (string * ExtractedTest)))
      (seen : seen_t) :
  exists extra,
    fold_left add_new cands seen = (seen ++ extra)%list /\
    subsequence (map snd extra) (tests_of cands) /\
    (forall kv, In kv extra -> In (Some kv) cands).
Proof.
  revert seen. induction cands as [|c cands IH]; intros seen.
  - exists []. simpl. rewrite app_nil_r. repeat split; [constructor|tauto].
  - simpl fold_left. destruct c as [[k t]|]; simpl add_new.
    + destruct (contains_key k seen).
      * destruct (IH seen) as (extra & -> & Hsub & Hin). exists extra.
        repeat split; [now constructor|]. intros kv H. right. now apply Hin.
      * destruct (IH (seen ++ [(k, t)])%list) as (extra & -> & Hsub & Hin).
        exists ((k, t) :: extra). rewrite <- app_assoc. repeat split.
        -- simpl. now constructor.
        -- intros kv [<-|H]; [now left|right; now apply Hin].
    + destruct (IH seen) as (extra & -> & Hsub & Hin). exists extra.
      repeat split; [assumption|]. intros kv H. right. now apply Hin.
Qed.

Lemma first_with_key_found (key : string) (t : ExtractedTest)
      (cands : list (option (string * ExtractedTest))) :
  In (Some (key, t)) cands -> exists t', first_with_key key cands = Some (key, t').
Proof.
  induction cands as [|c cands IH]; simpl; [tauto|].
  intros [->|H].
  - rewrite String.eqb_refl. now exists t.
  - destruct c as [[k t0]|]; [|now apply IH].
    destruct (String.eqb k key) eqn:E; [|now apply IH].
    apply String.eqb_eq in E. subst k. now exists t0.
Qed.

Lemma digits_value_nonneg (s : string) (acc n : Z) :
  0 <= acc -> digits_value acc s = Some n -> 0 <= n.
Proof.
  revert acc. induction s as [|c s IH]; intros acc Hacc; cbn [digits_value].
  - now intros [= <-].
  - destruct (is_digit c) eqn:E; [|discriminate].
    apply IH. unfold is_digit, in_range in E.
    apply andb_prop in E as [E _]. apply N.leb_le in E. lia.
Qed.

Lemma float_of_string_nonneg (s : string) (x : F) :
  float_of_string s = Some x -> exists n d, 0 <= n /\ x = of_ratio n d.
Proof.
  unfold float_of_string.
  destruct (split_dot s) as [whole [frac|]]; destruct whole as [|c whole];
    try discriminate.
  - destruct frac as [|c' frac]; [discriminate|].
    destruct (digits_value 0 _) as [n|] eqn:E; [|discriminate].
    intros [= <-]. apply digits_value_nonneg in E; [|lia]. eauto.
  - destruct (digits_value 0 _) as [n|] eqn:E; [|discriminate].
    intros [= <-]. apply digits_value_nonneg in E; [|lia]. eauto.
Qed.

(** what is known of the test that a line gives *)
Definition from_line (l : string) (kv : string * ExtractedTest) : Prop :=
  _is_noise l = false /\
  line (snd kv) = strip l /\
  fst kv = lower (raw_name (snd kv)) /\
  (2 <= String.length (raw_name (snd kv)))%nat /\
  exists n d, 0 <= n /\ value (snd kv) = of_ratio n d.

Lemma add_shape (name value_str l : string) (kv : string * ExtractedTest) :
  first_of (_add [] name value_str l) = Some kv ->
  line (snd kv) = strip l /\
  fst kv = lower (raw_name (snd kv)) /\
  (2 <= String.length (raw_name (snd kv)))%nat /\
  exists n d, 0 <= n /\ value (snd kv) = of_ratio n d.
Proof.
  unfold _add.
  destruct (String.eqb (_clean_name name) "") eqn:E1; [discriminate|].
  destruct (String.length (_clean_name name) <? 2)%nat eqn:E2; [discriminate|].
  cbn [orb].
  destruct (re_fullmatch _ (_clean_name name)); [discriminate|].
  destruct (float_of_string value_str) as [val|] eqn:Ev; [|discriminate].
  cbn. intros [= <-]. cbn. apply Nat.ltb_ge in E2.
  repeat split; try assumption. now apply float_of_string_nonneg in Ev.
Qed.

Lemma candidate_shape (l : string) (kv : string * ExtractedTest) :
  candidate l = Some kv -> from_line l kv.
Proof.
  unfold candidate, parse_line, from_line.
  destruct (_is_noise l); [discriminate|].
  destruct (re_match _COLON_PATTERN l) as [m|].
  - intros H. split; [reflexivity|]. now apply add_shape in H.
  - destruct (re_match _TABULAR_PATTERN l) as [m|]; [|discriminate].
    intros H. split; [reflexivity|]. now apply add_shape in H.
Qed.

Lemma parsed_from_candidate (text : string) (e : ExtractedTest) :
  In e (parse_lab_values text) ->
  exists l key, In l (splitlines text) /\ candidate l = Some (key, e).
Proof.
  unfold parse_lab_values. rewrite fold_parse_line.
  destruct (fold_add_new_extends (map candidate (splitlines text)) [])
    as (extra & -> & _ & Hin).
  simpl. intros H. apply in_map_iff in H as ([k t] & <- & H).
  apply Hin, in_map_iff in H as (l & Hl & Hlin). now exists l, k.
Qed.

Lemma parse_lab_values_subsequence (text : string) :
  subsequence (parse_lab_values text) (line_tests (splitlines text)).
Proof.
  unfold parse_lab_values, line_tests. rewrite fold_parse_line.
  destruct (fold_add_new_extends (map candidate (splitlines text)) [])
    as (extra & -> & Hsub & _). exact Hsub.
Qed.

(** X1. The tests come out in the order of the lines: the result is the
    list of the tests of the lines with some left out, and no name is
    lost: a line that parses has a test of its name, up to case, in the
    result. *)
Theorem parse_lab_values_keeps_line_order (text : string) :
  subsequence (parse_lab_values text) (line_tests (splitlines text)) /\
  (forall l key t,
      In l (splitlines text) -> candidate l = Some (key, t) ->
      exists t', In t' (parse_lab_values text) /\ lower (raw_name t') = key).
Proof.
  split; [apply parse_lab_values_subsequence|].
  unfold parse_lab_values. rewrite fold_parse_line.
  - intros l key t Hl Hc.
    assert (Hin : In (Some (key, t)) (map candidate (splitlines text))).
    { rewrite <- Hc. now apply in_map. }
    destruct (first_with_key_found key t _ Hin) as [t' Hf].
    pose proof (with_key_fold key (map candidate (splitlines text)) []) as Hw.
    simpl in Hw. rewrite Hf in Hw.
    assert (Hin' : In (key, t') (fold_left add_new (map candidate (splitlines text)) [])).
    { assert (H : In (key, t') (with_key key (fold_left add_new
                                   (map candidate (splitlines text)) [])))
        by (rewrite Hw; now left).
      unfold with_key in H. now apply filter_In in H. }
    exists t'. split.
    + change t' with (snd (key, t')). now apply in_map.
    + destruct (fold_keys (splitlines text) []) as [Hk _]; [constructor|constructor|].
      rewrite Forall_forall in Hk. symmetry. exact (Hk _ Hin').
Qed.

(** X2. Every test of the result is the test of a line of the text that is
    not noise, and its field [line] is that line, trimmed. *)
Theorem parsed_test_has_its_line (text : string) (e : ExtractedTest) :
  In e (parse_lab_values text) ->
  exists l, In l (splitlines text) /\ _is_noise l = false /\
            line e = strip l /\
            candidate l = Some (lower (raw_name e), e).
Proof.
  intros H. destruct (parsed_from_candidate text e H) as (l & key & Hl & Hc).
  destruct (candidate_shape l _ Hc) as (Hn & Hline & Hkey & _).
  simpl in *. subst key. now exists l.
Qed.

Lemma parsed_value_of_digits (text : string) (e : ExtractedTest) :
  In e (parse_lab_values text) -> exists n d, 0 <= n /\ value e = of_ratio n d.
Proof.
  intros H. destruct (parsed_from_candidate text e H) as (l & key & Hl & Hc).
  now destruct (candidate_shape l _ Hc) as (_ & _ & _ & _ & Hval).
Qed.

(** X3. Every test of the result has a name of at least two characters and
    a value read from decimal digits: the float nearest to a fraction
    [n/d] with [n >= 0].  No sign is ever read. *)
Theorem parsed_test_shape (text : string) (e : ExtractedTest) :
  In e (parse_lab_values text) ->
  (2 <= String.length (raw_name e))%nat /\
  exists n d, 0 <= n /\ value e = of_ratio n d.
Proof.
  intros H. destruct (parsed_from_candidate text e H) as (l & key & Hl & Hc).
  destruct (candidate_shape l _ Hc) as (_ & _ & _ & Hlen & Hval). now split.
Qed.

Lemma line_tests_length (lines : list string) :
  (List.length (line_tests lines)
   <= List.length (filter (fun l => negb (_is_noise l)) lines))%nat.
Proof.
  unfold line_tests. induction lines as [|l lines IH]; simpl; [lia|].
  destruct (candidate l) as [[k t]|] eqn:E.
  - apply candidate_shape in E as [-> _]. simpl. lia.
  - destruct (negb (_is_noise l)); simpl; lia.
Qed.

(** X4. There is at most one test for each line that is not noise; a text
    of noise lines only, or of no line, gives the empty list. *)
Theorem parse_lab_values_at_most_one_per_line (text : string) :
  (List.length (parse_lab_values text)
   <= List.length (filter (fun l => negb (_is_noise l)) (splitlines text)))%nat /\
  ((forall l, In l (splitlines text) -> _is_noise l = true) ->
   parse_lab_values text = []).
Proof.
  assert (Hlen : (List.length (parse_lab_values text)
      <= List.length (filter (fun l => negb (_is_noise l)) (splitlines text)))%nat).
  { etransitivity; [|apply line_tests_length].
    apply subsequence_length, parse_lab_values_subsequence. }
  split; [exact Hlen|].
  intros Hnoise.
  assert (Hf : filter (fun l => negb (_is_noise l)) (splitlines text) = []).
  { apply filter_none. intros l Hl. now rewrite (Hnoise l Hl). }
  rewrite Hf in Hlen. simpl in Hlen.
  destruct (parse_lab_values text); [reflexivity|simpl in Hlen; lia].
Qed.

End ExtractorMore.

(** ** Names in normal form *)

Section CleanName.

(** a text as [re.sub(r"\s+", " ", s)] leaves it: every whitespace
    character is a single space, and no two follow each other; after a
    space ([in_run]) the text does not start with one *)
Fixpoint collapsed (in_run : bool) (s : string) : bool :=
  match s with
  | EmptyString => true
  | String c s' =>
      if is_space c then negb in_run && Ascii.eqb c " " && collapsed true s'
      else collapsed false s'
  end.

Lemma sub_spaces_collapsed (in_run : bool) (s : string) :
  collapsed in_run (sub_spaces in_run s) = true.
Proof.
  revert in_run. induction s as [|c s IH]; intros in_run; [reflexivity|].
  cbn [sub_spaces]. destruct (is_space c) eqn:E.
  - destruct in_run; [apply IH|]. cbn [collapsed].
    change (is_space " "%char) with true. cbn. apply IH.
  - cbn [collapsed]. rewrite E. apply IH.
Qed.

Lemma collapsed_fixed (in_run : bool) (s : string) :
  collapsed in_run s = true -> sub_spaces in_run s = s.
Proof.
  revert in_run. induction s as [|c s IH]; intros in_run; [reflexivity|].
  cbn [collapsed sub_spaces]. destruct (is_space c).
  - intros H. apply andb_prop in H as [H Hs]. apply andb_prop in H as [Hr Hc].
    apply Ascii.eqb_eq in Hc. subst c. destruct in_run; [discriminate|].
    now rewrite (IH true Hs).
  - intros H. now rewrite (IH false H).
Qed.

Lemma collapsed_weaken (s : string) : collapsed true s = true -> collapsed false s = true.
Proof.
  destruct s as [|c s]; [reflexivity|]. cbn [collapsed].
  destruct (is_space c); [discriminate|auto].
Qed.

Lemma collapsed_lstrip (in_run : bool) (s : string) :
  collapsed in_run s = true -> collapsed false (lstrip_by is_space s) = true.
Proof.
  revert in_run. induction s as [|c s IH]; intros in_run; [reflexivity|].
  cbn [lstrip_by]. destruct (is_space c) eqn:E.
  - cbn [collapsed]. rewrite E. intros H. apply andb_prop in H as [_ Hs].
    now apply (IH true).
  - cbn [collapsed]. rewrite E. intros H. exact H.
Qed.

Lemma collapsed_rstrip (p : ascii -> bool) (in_run : bool) (s : string) :
  collapsed in_run s = true -> collapsed in_run (rstrip_by p s) = true.
Proof.
  revert in_run. induction s as [|c s IH]; intros in_run; [reflexivity|].
  cbn [collapsed rstrip_by]. destruct (is_space c) eqn:E.
  - intros H. apply andb_prop in H as [H Hs]. specialize (IH true Hs).
    destruct (rstrip_by p s) as [|d t].
    + destruct (p c); [reflexivity|]. cbn [collapsed]. now rewrite E, H.
    + cbn [collapsed] in *. now rewrite E, H, IH.
  - intros H. specialize (IH false H).
    destruct (rstrip_by p s) as [|d t].
    + destruct (p c); [reflexivity|]. cbn [collapsed]. now rewrite E.
    + cbn [collapsed] in *. now rewrite E, IH.
Qed.

(** the last character of a text, if it has one *)
Fixpoint last_char (s : string) : option ascii :=
  match s with
  | EmptyString => None
  | String c EmptyString => Some c
  | String _ s' => last_char s'
  end.

Definition first_char (s : string) : option ascii :=
  match s with
  | EmptyString => None
  | String c _ => Some c
  end.

Definition not_char (p : ascii -> bool) (c : option ascii) : Prop :=
  match c with
  | None => True
  | Some c => p c = false
  end.

Lemma rstrip_last (p : ascii -> bool) (s : string) :
  not_char p (last_char (rstrip_by p s)).
Proof.
  induction s as [|c s IH]; [exact I|]. cbn [rstrip_by].
  destruct (rstrip_by p s) as [|d t].
  - destruct (p c) eqn:E; [exact I | exact E].
  - exact IH.
Qed.

Lemma rstrip_fixed (p : ascii -> bool) (s : string) :
  not_char p (last_char s) -> rstrip_by p s = s.
Proof.
  induction s as [|c s IH]; [reflexivity|]. cbn [rstrip_by].
  destruct s as [|d t].
  - cbn. intros ->. reflexivity.
  - intros H. rewrite (IH H). reflexivity.
Qed.

Lemma lstrip_first (p : ascii -> bool) (s : string) :
  not_char p (first_char (lstrip_by p s)).
Proof.
  induction s as [|c s IH]; [exact I|]. cbn [lstrip_by].
  destruct (p c) eqn:E; [exact IH | exact E].
Qed.

Lemma lstrip_fixed (p : ascii -> bool) (s : string) :
  not_char p (first_char s) -> lstrip_by p s = s.
Proof. destruct s as [|c s]; [reflexivity|]. cbn. now intros ->. Qed.

Lemma rstrip_first (p q : ascii -> bool) (s : string) :
  not_char q (first_char s) -> not_char q (first_char (rstrip_by p s)).
Proof.
  destruct s as [|c s]; [intros _; exact I|]. cbn [rstrip_by first_char not_char].
  intros H. destruct (rstrip_by p s); [destruct (p c)|]; cbn; auto.
Qed.

(** in a collapsed text the whitespace is the space *)
Lemma collapsed_last (p : ascii -> bool) (in_run : bool) (s : string) :
  p " "%char = true -> collapsed in_run s = true ->
  not_char p (last_char s) -> not_char is_space (last_char s).
Proof.
  intros Hp. revert in_run. induction s as [|c s IH]; intros in_run; [auto|].
  cbn [collapsed]. destruct s as [|d t].
  - cbn [last_char not_char]. destruct (is_space c) eqn:E; [|auto].
    intros H Hc. apply andb_prop in H as [H _]. apply andb_prop in H as [_ H].
    apply Ascii.eqb_eq in H. subst c. congruence.
  - change (last_char (String c (String d t))) with (last_char (String d t)).
    destruct (is_space c).
    + intros H. apply andb_prop in H as [_ H]. now apply (IH true).
    + now apply (IH false).
Qed.

Lemma clean_name_normal (raw : string) :
  collapsed false (_clean_name raw) = true /\
  not_char is_space (first_char (_clean_name raw)) /\
  not_char (fun c => one_of ":.- " c || is_space c) (last_char (_clean_name raw)) /\
  _clean_name (_clean_name raw) = _clean_name raw.
Proof.
  unfold _clean_name, rstrip_chars, strip. cbv zeta.
  set (p := one_of ":.- ").
  set (n := rstrip_by is_space (lstrip_by is_space (sub_spaces false raw))).
  assert (Hn : collapsed false n = true).
  { apply collapsed_rstrip. apply (collapsed_lstrip false). apply sub_spaces_collapsed. }
  assert (Hr : collapsed false (rstrip_by p n) = true) by now apply collapsed_rstrip.
  assert (Hfirst : not_char is_space (first_char (rstrip_by p n))).
  { apply rstrip_first. unfold n. apply rstrip_first. apply lstrip_first. }
  pose proof (rstrip_last p n) as Hlast.
  assert (Hsp : not_char is_space (last_char (rstrip_by p n)))
    by (apply (collapsed_last p false); auto).
  refine (conj Hr (conj Hfirst (conj _ _))).
  - destruct (last_char (rstrip_by p n)) as [c|]; [|exact I].
    cbn in *. now rewrite Hlast, Hsp.
  - rewrite (collapsed_fixed false _ Hr).
    rewrite (lstrip_fixed is_space _ Hfirst).
    rewrite (rstrip_fixed is_space _ Hsp).
    now apply rstrip_fixed.
Qed.

Lemma clean_name_idem (raw : string) : _clean_name (_clean_name raw) = _clean_name raw.
Proof. apply clean_name_normal. Qed.

(** X5. [_clean_name] gives a normal form: its result has no whitespace
    but single spaces, starts with no whitespace, and ends with neither
    whitespace nor a colon, period or hyphen; and cleaning a clean name
    changes nothing. *)
Theorem clean_name_is_a_normal_form (raw : string) :
  collapsed false (_clean_name raw) = true /\
  not_char is_space (first_char (_clean_name raw)) /\
  not_char (fun c => one_of ":.- " c || is_space c) (last_char (_clean_name raw)) /\
  _clean_name (_clean_name raw) = _clean_name raw.
Proof. apply clean_name_normal. Qed.

End CleanName.

(** ** The patterns: what a match has read *)

Section MatcherFacts.

(** the states that the continuation of [rmatch r st] can be called with:
    where the cursor is, what was read and which groups are closed *)
Fixpoint reaches (r : regex) (st st' : mstate) : Prop :=
  match r with
  | Eps => st' = st
  | Chr p =>
      exists c s', rest st = String c s' /\ p c = true /\
                   st' = {| pos := S (pos st); prev := Some c; rest := s';
                            groups := groups st |}
  | Seq r1 r2 => exists mid, reaches r1 st mid /\ reaches r2 mid st'
  | Alt r1 r2 => reaches r1 st st' \/ reaches r2 st st'
  | Rep p lo hi greedy =>
      exists w last s,
        rest st = w ++ s /\ all_chars p w = true /\ (lo <= String.length w)%nat /\
        st' = {| pos := (pos st + String.length w)%nat;
                 prev := match last with Some c => Some c | None => prev st end;
                 rest := s; groups := groups st |}
  | Grp name r1 =>
      exists st1, reaches r1 st st1 /\
                  st' = {| pos := pos st1; prev := prev st1; rest := rest st1;
                           groups := (name, substring 0 (pos st1 - pos st) (rest st))
                                       :: groups st1 |}
  | Bos => pos st = 0%nat /\ st' = st
  | WordB => xorb (word_before st) (word_after st) = true /\ st' = st
  end.

Lemma rep_loop_sound {A : Type} (p : ascii -> bool) (lo : nat) (hi : option nat)
      (greedy : bool) (k : nat -> option ascii -> string -> option A)
      (s : string) (n : nat) (last : option ascii) (x : A) :
  rep_loop p lo hi greedy k n last s = Some x ->
  exists w last' s',
    s = w ++ s' /\ all_chars p w = true /\ (lo <= n + String.length w)%nat /\
    k (n + String.length w)%nat last' s' = Some x.
Proof.
  assert (Hstop : forall s,
             (if (lo <=? n)%nat then k n last s else None) = Some x ->
             exists w last' s',
               s = w ++ s' /\ all_chars p w = true /\ (lo <= n + String.length w)%nat /\
               k (n + String.length w)%nat last' s' = Some x).
  { intros s0 H. destruct (Nat.leb_spec lo n) as [Hlo|Hlo]; [|discriminate].
    exists EmptyString, last, s0. cbn [append all_chars String.length].
    rewrite Nat.add_0_r. auto. }
  revert n last Hstop. induction s as [|c s IH]; intros n last Hstop; cbn [rep_loop].
  - destruct greedy; [apply Hstop|].
    destruct (if (lo <=? n)%nat then k n last EmptyString else None) eqn:E;
      [|discriminate].
    intros [= <-]. now apply Hstop.
  - assert (Hmore : rep_loop p lo hi greedy k (S n) (Some c) s = Some x ->
                    p c && below n hi = true ->
                    exists w last' s',
                      String c s = w ++ s' /\ all_chars p w = true /\
                      (lo <= n + String.length w)%nat /\
                      k (n + String.length w)%nat last' s' = Some x).
    { intros H Hp. apply andb_prop in Hp as [Hp _].
      apply IH in H as (w & last' & s' & -> & Hw & Hlo & Hk).
      - exists (String c w), last', s'. cbn [append all_chars String.length].
        rewrite Hp, Hw, <- plus_n_Sm. auto.
      - intros s0 H0. destruct (Nat.leb_spec lo (S n)) as [Hlo|Hlo]; [|discriminate].
        exists EmptyString, (Some c), s0. cbn [append all_chars String.length].
        rewrite Nat.add_0_r. auto. }
    destruct greedy.
    + destruct (p c && below n hi) eqn:Ep.
      * destruct (rep_loop p lo hi true k (S n) (Some c) s) eqn:E.
        -- intros [= <-]. now apply Hmore.
        -- apply Hstop.
      * apply Hstop.
    + destruct (if (lo <=? n)%nat then k n last (String c s) else None) eqn:E.
      * intros [= <-]. now apply Hstop.
      * destruct (p c && below n hi) eqn:Ep; [|discriminate].
        intros H. now apply Hmore.
Qed.

(** a match comes from a state that the continuation was called with *)
Lemma rmatch_sound {A : Type} (r : regex) (st : mstate) (k : mstate -> option A) (x : A) :
  rmatch r st k = Some x -> exists st', reaches r st st' /\ k st' = Some x.
Proof.
  revert st k. induction r as [|p|r1 IH1 r2 IH2|r1 IH1 r2 IH2|p lo hi greedy|name r1 IH1| |];
    intros st k; cbn [rmatch reaches].
  - intros H. now exists st.
  - destruct (rest st) as [|c s'] eqn:E; [discriminate|].
    destruct (p c) eqn:Ep; [|discriminate]. intros H.
    eexists. split; [|exact H]. now exists c, s'.
  - intros H. apply IH1 in H as (mid & Hmid & H1). apply IH2 in H1 as (st' & Hst' & H2).
    exists st'. split; [now exists mid | exact H2].
  - destruct (rmatch r1 st k) eqn:E.
    + intros [= <-]. apply IH1 in E as (st' & Hst' & H1). exists st'. auto.
    + intros H. apply IH2 in H as (st' & Hst' & H2). exists st'. auto.
  - intros H. apply rep_loop_sound in H as (w & last & s & Hw & Hp & Hlo & H1).
    eexists. split; [|exact H1]. now exists w, last, s.
  - intros H. apply IH1 in H as (st1 & Hst1 & H1).
    eexists. split; [|exact H1]. now exists st1.
  - destruct (pos st =? 0)%nat eqn:E; [|discriminate]. intros H.
    exists st. apply Nat.eqb_eq in E. auto.
  - destruct (xorb (word_before st) (word_after st)) eqn:E; [|discriminate].
    intros H. exists st. auto.
Qed.

(** the characters that can start a name are no whitespace, no separator
    and no part of a number *)
Lemma letter_is_kept (c : ascii) :
  is_ascii_letter c = true ->
  is_space c = false /\ one_of ":.- " c = false /\
  (is_digit c || is_space c || Ascii.eqb c ".") = false.
Proof. destruct c as [[] [] [] [] [] [] [] []]; cbn; intros H; auto; discriminate H. Qed.

Lemma clean_name_keeps_letter (c : ascii) (t : string) :
  is_ascii_letter c = true -> exists t', _clean_name (String c t) = String c t'.
Proof.
  intros H. destruct (letter_is_kept c H) as (Hs & Hp & _).
  unfold _clean_name, rstrip_chars, strip. cbv zeta. cbn [sub_spaces]. rewrite Hs.
  cbn [lstrip_by]. rewrite Hs. rewrite (rstrip_cons _ _ _ Hs), (rstrip_cons _ _ _ Hp).
  eexists. reflexivity.
Qed.

Lemma no_number_starts_with_a_letter (c : ascii) (t : string) :
  is_ascii_letter c = true ->
  re_fullmatch (plus (fun c => is_digit c || is_space c || Ascii.eqb c ".")) (String c t)
    = None.
Proof.
  intros H. destruct (letter_is_kept c H) as (_ & _ & Hn).
  unfold re_fullmatch, plus. cbn [rmatch start rest rep_loop]. now rewrite Hn.
Qed.

(** the group [name] of a match of a pattern that starts as the two
    patterns of the extractor do *)
Lemma name_starts_with_letter (body tail : regex) (l : string) (m : mstate) :
  (forall st st', reaches body st st' -> groups st' = groups st /\ (pos st <= pos st')%nat) ->
  (forall st st', reaches tail st st' ->
                  assoc "name" (groups st') = assoc "name" (groups st)) ->
  re_match (Seq Bos (Seq (star is_space)
             (Seq (Grp "name" (Seq (Chr is_ascii_letter) body)) tail))) l = Some m ->
  exists c t, group m "name" = String c t /\ is_ascii_letter c = true.
Proof.
  intros Hbody Htail H. unfold re_match in H.
  apply rmatch_sound in H as (st' & Hr & [= <-]).
  cbn [reaches] in Hr.
  destruct Hr as (st0 & [_ ->] & st1 & (w & last & s & _ & _ & _ & ->) & st2 & Hname & Htl).
  destruct Hname as (st3 & (st4 & (c & s' & Hrest & Hc & ->) & Hb) & ->).
  apply Htail in Htl. unfold group. rewrite Htl. cbn [groups assoc].
  change (String.eqb "name" "name") with true. cbv iota.
  apply Hbody in Hb as [_ Hpos]. cbn [pos rest] in *.
  rewrite Hrest.
  change (pos (start l)) with 0%nat in *.
  destruct (pos st3 - (0 + String.length w))%nat as [|d] eqn:E; [lia|].
  cbn [substring]. now exists c, (substring 0 d s').
Qed.


(** the patterns that close no group, and those that close no group [name] *)
Fixpoint group_free (r : regex) : bool :=
  match r with
  | Seq r1 r2 | Alt r1 r2 => group_free r1 && group_free r2
  | Grp _ _ => false
  | _ => true
  end.

Fixpoint keeps_name (r : regex) : bool :=
  match r with
  | Seq r1 r2 | Alt r1 r2 => keeps_name r1 && keeps_name r2
  | Grp name r1 => negb (String.eqb name "name") && keeps_name r1
  | _ => true
  end.

Lemma group_free_reaches (r : regex) (st st' : mstate) :
  group_free r = true -> reaches r st st' ->
  groups st' = groups st /\ (pos st <= pos st')%nat.
Proof.
  revert st st'.
  induction r as [|p|r1 IH1 r2 IH2|r1 IH1 r2 IH2|p lo hi greedy|name r1 IH1| |];
    intros st st'; cbn [group_free reaches]; intros Hf.
  - intros ->. auto.
  - intros (c & s' & _ & _ & ->). cbn. auto.
  - apply andb_prop in Hf as [H1 H2]. intros (mid & Hm & Hr).
    apply (IH1 _ _ H1) in Hm as [Hg Hp]. apply (IH2 _ _ H2) in Hr as [Hg' Hp'].
    split; [congruence|lia].
  - apply andb_prop in Hf as [H1 H2]. intros [Hr|Hr]; [now apply IH1|now apply IH2].
  - intros (w & last & s & _ & _ & _ & ->). cbn. split; [reflexivity|lia].
  - discriminate.
  - intros [_ ->]. auto.
  - intros [_ ->]. auto.
Qed.

Lemma keeps_name_reaches (r : regex) (st st' : mstate) :
  keeps_name r = true -> reaches r st st' ->
  assoc "name" (groups st') = assoc "name" (groups st).
Proof.
  revert st st'.
  induction r as [|p|r1 IH1 r2 IH2|r1 IH1 r2 IH2|p lo hi greedy|name r1 IH1| |];
    intros st st'; cbn [keeps_name reaches]; intros Hf.
  - now intros ->.
  - now intros (c & s' & _ & _ & ->).
  - apply andb_prop in Hf as [H1 H2]. intros (mid & Hm & Hr).
    rewrite (IH2 _ _ H2 Hr). now apply IH1.
  - apply andb_prop in Hf as [H1 H2]. intros [Hr|Hr]; [now apply IH1|now apply IH2].
  - now intros (w & last & s & _ & _ & _ & ->).
  - apply andb_prop in Hf as [H1 H2]. intros (st1 & Hr & ->). cbn [groups assoc].
    apply negb_true_iff in H1. rewrite H1. now apply IH1.
  - now intros [_ ->].
  - now intros [_ ->].
Qed.

Lemma pattern_name (l : string) (m : mstate) :
  re_match _COLON_PATTERN l = Some m \/ re_match _TABULAR_PATTERN l = Some m ->
  exists c t, group m "name" = String c t /\ is_ascii_letter c = true.
Proof.
  intros [H|H]; eapply name_starts_with_letter; try exact H.
  - intros st st'. apply group_free_reaches. reflexivity.
  - intros st st'. apply keeps_name_reaches. reflexivity.
  - intros st st'. apply group_free_reaches. reflexivity.
  - intros st st'. apply keeps_name_reaches. reflexivity.
Qed.

End MatcherFacts.

Section ExtractedNames.
Context {PF : PyFloat}.

Lemma add_name (name value_str l : string) (kv : string * ExtractedTest) :
  first_of (_add [] name value_str l) = Some kv ->
  raw_name (snd kv) = _clean_name name.
Proof.
  unfold _add.
  destruct (String.eqb (_clean_name name) "" || (String.length (_clean_name name) <? 2)%nat);
    [discriminate|].
  destruct (re_fullmatch _ (_clean_name name)); [discriminate|].
  destruct (float_of_string value_str) as [val|]; [|discriminate].
  cbn. now intros [= <-].
Qed.

Lemma candidate_name (l : string) (kv : string * ExtractedTest) :
  candidate l = Some kv ->
  exists c t, is_ascii_letter c = true /\
              raw_name (snd kv) = _clean_name (String c t).
Proof.
  unfold candidate, parse_line.
  destruct (_is_noise l); [discriminate|].
  destruct (re_match _COLON_PATTERN l) as [m|] eqn:Ec.
  - intros H. apply add_name in H.
    destruct (pattern_name l m (or_introl Ec)) as (c & t & E & Hc).
    exists c, t. now rewrite <- E.
  - destruct (re_match _TABULAR_PATTERN l) as [m|] eqn:Et; [|discriminate].
    intros H. apply add_name in H.
    destruct (pattern_name l m (or_intror Et)) as (c & t & E & Hc).
    exists c, t. now rewrite <- E.
Qed.

(** X6. The name that a pattern captures starts with an ASCII letter, and
    cleaning keeps it: so the name of every extracted test starts with an
    ASCII letter and is in normal form, and the check of [_add] for a name
    made of digits, whitespace and periods never rejects a captured name. *)
Theorem extracted_name_starts_with_letter :
  (forall (l : string) (m : mstate),
      re_match _COLON_PATTERN l = Some m \/ re_match _TABULAR_PATTERN l = Some m ->
      re_fullmatch (plus (fun c => is_digit c || is_space c || Ascii.eqb c "."))
                   (_clean_name (group m "name")) = None) /\
  (forall (text : string) (e : ExtractedTest),
      In e (parse_lab_values text) ->
      _clean_name (raw_name e) = raw_name e /\
      exists c t, raw_name e = String c t /\ is_ascii_letter c = true).
Proof.
  split.
  - intros l m H. destruct (pattern_name l m H) as (c & t & -> & Hc).
    destruct (clean_name_keeps_letter c t Hc) as [t' ->].
    now apply no_number_starts_with_a_letter.
  - intros text e H.
    destruct (parsed_from_candidate text e H) as (l & key & _ & Hc).
    destruct (candidate_name l _ Hc) as (c & t & Hl & E). cbn [snd] in E.
    split.
    + rewrite E. apply clean_name_idem.
    + destruct (clean_name_keeps_letter c t Hl) as [t' E'].
      exists c, t'. split; [congruence|assumption].
Qed.

End ExtractedNames.

(** ** The value that a pattern captures *)

Section CapturedValue.
Context {PF : PyFloat}.

(** digits, or digits, a period and digits *)
Definition decimal (v : string) : Prop :=
  exists whole,
    whole <> EmptyString /\ all_chars is_digit whole = true /\
    (v = whole \/
     exists frac, frac <> EmptyString /\ all_chars is_digit frac = true /\
                  v = whole ++ "." ++ frac).

Lemma substring_prefix (w s : string) : substring 0 (String.length w) (w ++ s) = w.
Proof.
  induction w as [|c w IH]; cbn [String.length append substring].
  - now destruct s.
  - now rewrite IH.
Qed.

Lemma str_app_assoc (a b c : string) : (a ++ b) ++ c = a ++ b ++ c.
Proof. induction a as [|x a IH]; cbn [append]; [reflexivity|now rewrite IH]. Qed.

Lemma str_length_app (a b : string) :
  String.length (a ++ b) = (String.length a + String.length b)%nat.
Proof. induction a as [|x a IH]; cbn [append String.length]; [reflexivity|now rewrite IH]. Qed.

Lemma digit_is_no_period (c : ascii) : is_digit c = true -> Ascii.eqb c "." = false.
Proof. destruct c as [[] [] [] [] [] [] [] []]; cbn; intros H; auto; discriminate H. Qed.

Lemma split_dot_digits (w : string) :
  all_chars is_digit w = true -> split_dot w = (w, None).
Proof.
  induction w as [|c w IH]; [reflexivity|]. cbn [all_chars split_dot].
  intros H. apply andb_prop in H as [Hc Hw].
  now rewrite (digit_is_no_period c Hc), (IH Hw).
Qed.

Lemma split_dot_point (w f : string) :
  all_chars is_digit w = true -> split_dot (w ++ "." ++ f) = (w, Some f).
Proof.
  induction w as [|c w IH]; [reflexivity|]. cbn [all_chars append split_dot].
  intros H. apply andb_prop in H as [Hc Hw].
  rewrite (digit_is_no_period c Hc). cbn [append] in IH. now rewrite (IH Hw).
Qed.

Lemma digits_value_digits (w : string) (acc : Z) :
  all_chars is_digit w = true -> exists n, digits_value acc w = Some n.
Proof.
  revert acc. induction w as [|c w IH]; intros acc; cbn [all_chars digits_value].
  - now exists acc.
  - intros H. apply andb_prop in H as [Hc Hw]. rewrite Hc. now apply IH.
Qed.

Lemma float_of_decimal (v : string) :
  decimal v -> exists x, float_of_string v = Some x.
Proof.
  intros (whole & Hne & Hw & [->|(frac & Hf & Hfd & ->)]); unfold float_of_string.
  - rewrite (split_dot_digits whole Hw).
    destruct whole as [|c w]; [congruence|].
    destruct (digits_value_digits (String c w) 0 Hw) as [n ->]. eauto.
  - rewrite (split_dot_point whole frac Hw).
    destruct whole as [|c w]; [congruence|].
    destruct frac as [|d f]; [congruence|].
    assert (Hall : all_chars is_digit (String c w ++ String d f) = true)
      by (rewrite all_chars_app, Hw, Hfd; reflexivity).
    destruct (digits_value_digits _ 0 Hall) as [n ->]. eauto.
Qed.

Lemma plus_reaches (p : ascii -> bool) (st st' : mstate) :
  reaches (plus p) st st' ->
  exists w, w <> EmptyString /\ all_chars p w = true /\
            rest st = w ++ rest st' /\
            pos st' = (pos st + String.length w)%nat /\ groups st' = groups st.
Proof.
  cbn [plus reaches]. intros (w & last & s & Hr & Hp & Hlo & ->).
  exists w. cbn. repeat split; auto. intros ->. cbn in Hlo. lia.
Qed.

Lemma number_reaches (st st' : mstate) :
  reaches number st st' ->
  exists v, decimal v /\ rest st = v ++ rest st' /\
            pos st' = (pos st + String.length v)%nat.
Proof.
  unfold number, seq, opt. cbn [fold_right].
  change (reaches (Seq (plus is_digit)
                       (Seq (Alt (Seq (chr ".") (Seq (plus is_digit) Eps)) Eps) Eps))
                  st st')
    with (exists mid, reaches (plus is_digit) st mid /\
            exists mid', (((exists m1, reaches (chr ".") mid m1 /\
                            exists m2, reaches (plus is_digit) m1 m2 /\ mid' = m2)
                           \/ mid' = mid) /\ st' = mid')).
  intros (mid & Hw & mid' & Hopt & ->).
  apply plus_reaches in Hw as (w & Hne & Hd & Hr & Hp & _).
  destruct Hopt as [(m1 & Hc & m2 & Hf & ->)| ->].
  - apply plus_reaches in Hf as (f & Hfne & Hfd & Hfr & Hfp & _).
    cbn [chr reaches] in Hc. destruct Hc as (c & s' & Hm & Hc & ->).
    apply Ascii.eqb_eq in Hc. subst c. cbn [rest pos] in *.
    exists (w ++ "." ++ f). split.
    + exists w. split; [assumption|]. split; [assumption|]. right.
      exists f. auto.
    + rewrite Hr, Hm, Hfr, Hfp, Hp.
      rewrite !str_app_assoc, !str_length_app. cbn [append String.length].
      split; [reflexivity|]. lia.
  - exists w. split; [|auto]. exists w. auto.
Qed.

(** the two patterns end with the group [value], closed by a word boundary *)
Lemma value_group (r1 rn r2 r3 r4 : regex) (l : string) (m : mstate) :
  re_match (Seq Bos (Seq r1 (Seq (Grp "name" rn) (Seq r2 (Seq r3 (Seq r4
              (Seq (Grp "value" number) (Seq WordB Eps)))))))) l = Some m ->
  decimal (group m "value").
Proof.
  unfold re_match. intros H. apply rmatch_sound in H as (st' & Hr & [= <-]).
  cbn [reaches] in Hr.
  destruct Hr as (s0 & _ & s1 & _ & s2 & _ & s3 & _ & s4 & _ & s5 & _ & s6 & Hv & Hend).
  destruct Hv as (s7 & Hn & ->). destruct Hend as (s8 & [_ ->] & ->).
  apply number_reaches in Hn as (v & Hd & Hrest & Hpos).
  unfold group. cbn [groups assoc].
  change (String.eqb "value" "value") with true. cbv iota.
  rewrite Hrest, Hpos.
  replace (pos s5 + String.length v - pos s5)%nat with (String.length v) by lia.
  now rewrite substring_prefix.
Qed.

Lemma pattern_value (l : string) (m : mstate) :
  re_match _COLON_PATTERN l = Some m \/ re_match _TABULAR_PATTERN l = Some m ->
  exists x, float_of_string (group m "value") = Some x.
Proof.
  intros [H|H]; apply float_of_decimal; eapply value_group; exact H.
Qed.

(** X7. The text that a pattern captures as the value always converts:
    [float] never raises in [_add].  So a line that is not noise and that a
    pattern matches gives a candidate as soon as its cleaned name has two
    characters: the name cleaned, the value converted, the line trimmed. *)
Theorem captured_value_always_converts (l : string) (m : mstate) :
  re_match _COLON_PATTERN l = Some m \/
  (re_match _COLON_PATTERN l = None /\ re_match _TABULAR_PATTERN l = Some m) ->
  exists x,
    float_of_string (group m "value") = Some x /\
    (_is_noise l = false ->
     (2 <= String.length (_clean_name (group m "name")))%nat ->
     candidate l = Some (lower (_clean_name (group m "name")),
                         {| raw_name := _clean_name (group m "name");
                            value := x;
                            line := strip l |})).
Proof.
  intros H.
  assert (Hm : re_match _COLON_PATTERN l = Some m \/ re_match _TABULAR_PATTERN l = Some m)
    by (destruct H as [H|[_ H]]; auto).
  destruct (pattern_value l m Hm) as [x Hx]. exists x. split; [exact Hx|].
  intros Hnoise Hlen.
  destruct (pattern_name l m Hm) as (c & t & En & Hc).
  destruct (clean_name_keeps_letter c t Hc) as [t' Ec].
  assert (Hadd : first_of (_add [] (group m "name") (group m "value") l)
                 = Some (lower (_clean_name (group m "name")),
                         {| raw_name := _clean_name (group m "name");
                            value := x; line := strip l |})).
  { unfold _add. rewrite En in *. rewrite Ec in *.
    rewrite (no_number_starts_with_a_letter c t' Hc), Hx.
    change (String.eqb (String c t') "") with false. cbn [orb].
    apply Nat.ltb_ge in Hlen. rewrite Hlen. reflexivity. }
  unfold candidate, parse_line. rewrite Hnoise.
  destruct H as [H|[H0 H]]; [now rewrite H | now rewrite H0, H].
Qed.

End CapturedValue.

(** ** The catalog: every name has one owner *)

Section CatalogMore.
Context {PF : PyFloat}.

#[local] Opaque NORMAL_RANGES _ALIAS_MAP.

(** the names of an entry: its canonical name, then its aliases in lower
    case, as [_build_alias_map] enters them *)
Definition names_of (entry : string * ReferenceRange) : list string :=
  fst entry :: map lower (aliases (snd entry)).

(** the alias map when no assignment of [_build_alias_map] overwrites
    another: every name with its owner, in the order of the table *)
Definition names_with_owner (ranges : list (string * ReferenceRange))
  : list (string * string) :=
  flat_map (fun entry => map (fun name => (name, fst entry)) (names_of entry)) ranges.

Definition same_pairs (a b : list (string * string)) : bool :=
  (List.length a =? List.length b)%nat
  && forallb (fun p => String.eqb (fst (fst p)) (fst (snd p))
                       && String.eqb (snd (fst p)) (snd (snd p)))
             (combine a b).

Lemma same_pairs_eq (a b : list (string * string)) : same_pairs a b = true -> a = b.
Proof.
  unfold same_pairs. revert b.
  induction a as [|[k v] a IH]; intros [|[k' v'] b]; simpl; try discriminate;
    [reflexivity|].
  intros H. apply andb_prop in H as [Hlen H]. apply andb_prop in H as [Hp H].
  apply andb_prop in Hp as [Hk Hv]. apply String.eqb_eq in Hk, Hv. subst.
  f_equal. apply IH. now rewrite Hlen, H.
Qed.

Lemma alias_map_is_names_with_owner : _ALIAS_MAP = names_with_owner NORMAL_RANGES.
Proof. apply same_pairs_eq. vm_compute. reflexivity. Qed.

Lemma catalog_names_distinct : NoDup (map fst (names_with_owner NORMAL_RANGES)).
Proof. apply nodup_strings_NoDup. vm_compute. reflexivity. Qed.

Definition normalized_names (ranges : list (string * ReferenceRange)) : bool :=
  forallb (fun entry => String.eqb (lower (strip (fst entry))) (fst entry)) ranges.

Lemma canonical_names_normalized : normalized_names NORMAL_RANGES = true.
Proof. vm_compute. reflexivity. Qed.

Lemma names_with_owner_In (ranges : list (string * ReferenceRange))
      (name owner : string) :
  In (name, owner) (names_with_owner ranges) <->
  exists entry, In entry ranges /\ owner = fst entry /\ In name (names_of entry).
Proof.
  unfold names_with_owner. rewrite in_flat_map. split.
  - intros (entry & Hin & H). apply in_map_iff in H as (n & [= <- <-] & Hn).
    now exists entry.
  - intros (entry & Hin & -> & Hn). exists entry. split; [assumption|].
    apply in_map_iff. now exists name.
Qed.

Lemma lookup_by_names (s c : string) (ref : ReferenceRange) :
  lookup s = Ok (Some (c, ref)) <->
  In (c, ref) NORMAL_RANGES /\ In (lower (strip s)) (names_of (c, ref)).
Proof.
  unfold lookup. split.
  - destruct (Dict.get (lower (strip s)) _ALIAS_MAP) as [c'|] eqn:E; [|discriminate].
    apply get_In in E. rewrite alias_map_is_names_with_owner in E.
    apply names_with_owner_In in E as ([c0 ref0] & Hin & -> & Hn).
    cbn [fst]. rewrite (get_present c0 ref0 NORMAL_RANGES canonical_names_distinct Hin).
    intros [= <- <-]. now split.
  - intros [Hin Hn].
    assert (H : In (lower (strip s), c) (names_with_owner NORMAL_RANGES)).
    { apply names_with_owner_In. exists (c, ref). auto. }
    rewrite alias_map_is_names_with_owner.
    rewrite (get_present _ _ _ catalog_names_distinct H).
    now rewrite (get_present c ref NORMAL_RANGES canonical_names_distinct Hin).
Qed.

(** X8. [lookup] finds a test exactly under its names: a name gives the
    pair of a canonical name and its range when, trimmed and in lower
    case, it is that canonical name or one of its aliases in lower case. *)
Theorem lookup_finds_exactly_the_names (s c : string) (ref : ReferenceRange) :
  lookup s = Ok (Some (c, ref)) <->
  In (c, ref) NORMAL_RANGES /\ In (lower (strip s)) (names_of (c, ref)).
Proof. apply lookup_by_names. Qed.

(** X9. No name of the catalog has two owners: the canonical names and the
    aliases in lower case are all different, so no assignment of
    [_build_alias_map] overwrites another, and the alias map holds every
    name with its own canonical name, in the order of the table. *)
Theorem alias_map_never_overwrites :
  NoDup (flat_map names_of NORMAL_RANGES) /\
  _ALIAS_MAP = names_with_owner NORMAL_RANGES /\
  (forall e1 e2 name,
      In e1 NORMAL_RANGES -> In e2 NORMAL_RANGES ->
      In name (names_of e1) -> In name (names_of e2) -> e1 = e2).
Proof.
  assert (Hkeys : map fst (names_with_owner NORMAL_RANGES)
                  = flat_map names_of NORMAL_RANGES).
  { unfold names_with_owner. induction NORMAL_RANGES as [|e l IH]; [reflexivity|].
    cbn [flat_map]. rewrite map_app, IH, map_map. cbn [fst]. now rewrite map_id. }
  split; [rewrite <- Hkeys; apply catalog_names_distinct|].
  split; [apply alias_map_is_names_with_owner|].
  intros [c1 r1] [c2 r2] name H1 H2 Hn1 Hn2.
  assert (Ha : In (name, c1) (names_with_owner NORMAL_RANGES))
    by (apply names_with_owner_In; exists (c1, r1); auto).
  assert (Hb : In (name, c2) (names_with_owner NORMAL_RANGES))
    by (apply names_with_owner_In; exists (c2, r2); auto).
  apply (get_present _ _ _ catalog_names_distinct) in Ha, Hb.
  assert (c1 = c2) by congruence. subst c2.
  apply (get_present _ _ _ canonical_names_distinct) in H1, H2. congruence.
Qed.

(** X10. A canonical name that [lookup] returns is looked up to the same
    pair, and is its own trimmed lower-case form. *)
Theorem lookup_of_its_result (s c : string) (ref : ReferenceRange) :
  lookup s = Ok (Some (c, ref)) ->
  lookup c = Ok (Some (c, ref)) /\ lower (strip c) = c.
Proof.
  intros H. destruct (lookup_cases s) as [E|(c' & ref' & E & Hin)];
    rewrite E in H; [discriminate|].
  injection H as <- <-. split; [now apply lookup_canonical|].
  pose proof canonical_names_normalized as Hn. unfold normalized_names in Hn.
  rewrite forallb_forall in Hn. specialize (Hn _ Hin).
  now apply String.eqb_eq in Hn.
Qed.

End CatalogMore.

(** ** From the extractor to the catalog: one key *)

Section ExtractedKeys.
Context {PF : PyFloat}.

Lemma clean_name_trimmed (raw : string) : strip (_clean_name raw) = _clean_name raw.
Proof.
  destruct (clean_name_normal raw) as (_ & Hfirst & Hlast & _).
  unfold strip. rewrite (lstrip_fixed is_space _ Hfirst).
  apply rstrip_fixed. destruct (last_char (_clean_name raw)) as [c|]; [|exact I].
  cbn in *. now apply orb_false_iff in Hlast.
Qed.

Lemma parsed_name_clean (text : string) (e : ExtractedTest) :
  In e (parse_lab_values text) -> exists raw, raw_name e = _clean_name raw.
Proof.
  intros H. destruct (parsed_from_candidate text e H) as (l & key & _ & Hc).
  destruct (candidate_name l _ Hc) as (c & t & _ & E). now exists (String c t).
Qed.

(** X11. The key under which the extractor keeps one test per name is the
    key under which [lookup] finds the name: an extracted name has no
    whitespace around it, so [lookup] finds it exactly when its lower-case
    form is a name of the catalog, and the matched tests of the report of
    an extracted text have pairwise different names, up to case. *)
Theorem extracted_name_is_its_lookup_key (text : string) :
  (forall e, In e (parse_lab_values text) ->
             strip (raw_name e) = raw_name e /\
             forall c ref,
               lookup (raw_name e) = Ok (Some (c, ref)) <->
               In (c, ref) NORMAL_RANGES /\ In (lower (raw_name e)) (names_of (c, ref))) /\
  (forall report,
      analyze (parse_lab_values text) = Ok report ->
      NoDup (map (fun t => lower (a_raw_name t)) (matched report))).
Proof.
  split.
  - intros e He. destruct (parsed_name_clean text e He) as [raw E].
    assert (Hs : strip (raw_name e) = raw_name e)
      by (rewrite E; apply clean_name_trimmed).
    split; [exact Hs|]. intros c ref. rewrite lookup_by_names, Hs. reflexivity.
  - intros report Hr. apply analyze_names in Hr.
    rewrite <- (map_map a_raw_name lower), Hr, map_map.
    apply (NoDup_map_filter (fun e => lower (raw_name e)) recognized).
    destruct (fold_keys (splitlines text) []) as [Hk Hnd]; [constructor|constructor|].
    unfold parse_lab_values. rewrite fold_parse_line.
    now rewrite (keys_by_name _ Hk).
Qed.

End ExtractedKeys.

(** ** The classifier and the range *)

Section ClassifierMore.
Context {PF : PyFloat}.

(** the status that [_classify] gives *)
Definition status_of (value : F) (ref : ReferenceRange) : option Status :=
  match _classify value ref with
  | Ok (st, _) => Some st
  | Raise _ => None
  end.

(** X12. For a range with [min_value <= max_value], the status is Low
    exactly when the value is below the minimum, High exactly when it is
    above the maximum, and Normal exactly when it is neither. *)
Theorem classify_status_by_range (value : F) (ref : ReferenceRange) :
  fleb (min_value ref) (max_value ref) = true ->
  (status_of value ref = Some LOW <-> fltb value (min_value ref) = true) /\
  (status_of value ref = Some HIGH <-> fltb (max_value ref) value = true) /\
  (status_of value ref = Some NORMAL <->
   fltb value (min_value ref) = false /\ fltb (max_value ref) value = false).
Proof.
  intros Hord. unfold status_of. rewrite classify_cases.
  destruct (fltb value (min_value ref)) eqn:Elo.
  - assert (Ehi : fltb (max_value ref) value = false).
    { destruct (fltb (max_value ref) value) eqn:E; [|reflexivity].
      pose proof (fleb_fltb_trans _ _ _ Hord E) as H.
      apply fltb_fleb in Elo. apply fltb_not_fleb in H. congruence. }
    rewrite Ehi. repeat split; intros; try discriminate; try tauto.
    destruct H; discriminate.
  - destruct (fltb (max_value ref) value) eqn:Ehi;
      repeat split; intros; try discriminate; try tauto.
    destruct H; discriminate.
Qed.

End ClassifierMore.

(** ** Rounding to the nearest integer, a tie to the even one *)

Section RoundingMore.




End RoundingMore.

(** ** The classifier in exact arithmetic: what rounding does to a deviation *)

Section ClassifierExact.
#[local] Existing Instance Exact.rational.
Local Open Scope Q_scope.
Local Open Scope string_scope.















End ClassifierExact.

(** ** From the text to the status: no value is negative *)

Lemma SFdiv_nonneg (p d : positive) (z : bool) :
  SFltb (SFdiv B64.prec B64.emax (S754_finite false p 0) (S754_finite false d 0))
        (S754_zero z) = false.
Proof.
  unfold SFdiv.
  destruct (SFdiv_core_binary B64.prec B64.emax (Zpos p) 0 (Zpos d) 0) as [[mz ez] lz].
  unfold binary_round_aux.
  destruct (shr_fexp B64.prec B64.emax mz ez lz) as [mrs' e'].
  destruct (shr_fexp B64.prec B64.emax _ e' loc_Exact) as [mrs'' e''].
  cbn [xorb].
  destruct (shr_m mrs'') as [|m|m]; [reflexivity| |reflexivity].
  destruct (e'' <=? B64.emax - B64.prec); reflexivity.
Qed.

Lemma b64_of_ratio_nonneg (n : Z) (d : positive) (z : spec_float) :
  0 <= n -> SFeqb z (S754_zero false) = true ->
  SFltb (B64.b64_of_ratio n d) z = false.
Proof.
  intros Hn Hz.
  assert (exists s, z = S754_zero s) as [s ->].
  { destruct z as [s|[]| |[] m e]; try discriminate. now exists s. }
  destruct n as [|p|p]; [reflexivity | apply SFdiv_nonneg | lia].
Qed.

Lemma rational_of_ratio_nonneg (n : Z) (d : positive) (z : Q) :
  0 <= n -> Qeq_bool z (0 # 1) = true -> Exact.Qltb (n # d) z = false.
Proof.
  intros Hn Hz. apply Qeq_bool_iff in Hz.
  apply not_true_iff_false. rewrite Exact.Qltb_lt. rewrite Hz.
  unfold Qlt. cbn [Qnum Qden]. lia.
Qed.

(** X15. In binary64 arithmetic and in exact arithmetic: the extractor reads
    no sign, so no extracted value is below zero, and [_classify] never
    gives the status Low to an extracted value for a range whose minimum is
    zero. *)
Theorem extracted_value_never_low_from_zero :
  (forall (text : string) (e : @ExtractedTest B64.binary64) (ref : ReferenceRange),
      In e (parse_lab_values text) ->
      feqb (min_value ref) (of_int 0) = true ->
      fltb (value e) (min_value ref) = false /\
      forall d, _classify (value e) ref <> Ok (LOW, d)) /\
  (forall (text : string) (e : @ExtractedTest Exact.rational) (ref : ReferenceRange),
      In e (parse_lab_values text) ->
      feqb (min_value ref) (of_int 0) = true ->
      fltb (value e) (min_value ref) = false /\
      forall d, _classify (value e) ref <> Ok (LOW, d)).
Proof.
  split; intros text e ref Hin Hz;
    destruct (parsed_value_of_digits text e Hin) as (n & d & Hn & Hv).
  - assert (Hlt : fltb (value e) (min_value ref) = false)
      by (rewrite Hv; now apply b64_of_ratio_nonneg).
    split; [exact Hlt|]. intros dv. rewrite classify_cases, Hlt.
    destruct (fltb (max_value ref) (value e)); discriminate.
  - assert (Hlt : fltb (value e) (min_value ref) = false)
      by (rewrite Hv; now apply rational_of_ratio_nonneg).
    split; [exact Hlt|]. intros dv. rewrite classify_cases, Hlt.
    destruct (fltb (max_value ref) (value e)); discriminate.
Qed.

(** ** The scorer in exact arithmetic: the loop as a sum *)

Section ScoreMore.
#[local] Existing Instance Exact.rational.
Local Open Scope Q_scope.
Local Open Scope string_scope.




























End ScoreMore.

(** ** The scorer on tests that are all Normal *)

Section ScorerMore.
Context {PF : PyFloat}.

(** the loop of the scorer passes over the Normal tests *)
Lemma add_penalties_normal (m : F) (ts : list AnalyzedTest) (p : F) :
  Forall (fun t => status t = NORMAL) ts -> add_penalties m ts p = Ok p.
Proof.
  induction 1 as [|t ts Ht _ IH]; cbn [add_penalties]; [reflexivity|].
  rewrite Ht. cbn [Status_eqb negb]. exact IH.
Qed.

Lemma score_all_normal (ts : list AnalyzedTest) :
  Forall (fun t => status t = NORMAL) ts ->
  round_int (fsub (of_int 100) (flit "0.0")) = Ok 100 ->
  _compute_health_score ts = Ok 100.
Proof.
  intros Hts Hr. destruct ts as [|t ts]; [reflexivity|].
  unfold _compute_health_score. rewrite (add_penalties_normal _ _ _ Hts).
  cbn [bind]. rewrite Hr. reflexivity.
Qed.

End ScorerMore.

Lemma binary64_full_score :
  round_int (PyFloat := B64.binary64) (fsub (of_int 100) (flit "0.0")) = Ok 100.
Proof.
  let r := eval vm_compute in
    (round_int (PyFloat := B64.binary64) (fsub (of_int 100) (flit "0.0"))) in
  change (r = Ok 100). reflexivity.
Qed.

Lemma rational_full_score :
  round_int (PyFloat := Exact.rational) (fsub (of_int 100) (flit "0.0")) = Ok 100.
Proof. reflexivity. Qed.

(** X21. In binary64 arithmetic and in exact arithmetic, a list of tests
    that are all Normal scores 100, whatever their number and their
    deviations. *)
Theorem all_normal_scores_100 :
  (forall tests : list (@AnalyzedTest B64.binary64),
      Forall (fun t => status t = NORMAL) tests ->
      _compute_health_score tests = Ok 100) /\
  (forall tests : list (@AnalyzedTest Exact.rational),
      Forall (fun t => status t = NORMAL) tests ->
      _compute_health_score tests = Ok 100).
Proof.
  split; intros tests H.
  - exact (score_all_normal tests H binary64_full_score).
  - exact (score_all_normal tests H rational_full_score).
Qed.

(** ** The report and the tests it is built from *)

Section AnalyzeMore.
Context {PF : PyFloat}.

(** [t] is the test that [analyze] builds from [ext]: the range is the one
    that [lookup] finds, the status and the deviation are those of
    [_classify], the severity that of [_severity_level] *)
Definition built_from (ext : ExtractedTest) (t : AnalyzedTest) : Prop :=
  exists c ref st d,
    lookup (raw_name ext) = Ok (Some (c, ref)) /\
    In (c, ref) NORMAL_RANGES /\
    _classify (value ext) ref = Ok (st, d) /\
    t = analyzed_of ext c ref st d.

Lemma analyze_loop_built (tests : list ExtractedTest)
      (m m' : list AnalyzedTest) (u u' : list ExtractedTest) :
  analyze_loop tests m u = Ok (m', u') ->
  exists new, m' = (m ++ new)%list /\
              Forall2 built_from (filter recognized tests) new.
Proof.
  revert m u. induction tests as [|ext tests IH]; intros m u.
  - cbn [analyze_loop filter]. intros [= <- _]. exists [].
    split; [now rewrite app_nil_r | constructor].
  - change (filter recognized (ext :: tests))
      with (if recognized ext then ext :: filter recognized tests
            else filter recognized tests).
    rewrite analyze_loop_step.
    destruct (lookup_cases (raw_name ext)) as [E|(c & ref & E & Hin)].
    + assert (Hr : recognized ext = false) by (unfold recognized; now rewrite E).
      rewrite E, Hr. apply IH.
    + assert (Hr : recognized ext = true) by (unfold recognized; now rewrite E).
      rewrite E, Hr.
      destruct (_classify (value ext) ref) as [[st d]|e] eqn:Ec; [|discriminate].
      intros H. apply IH in H as (new & -> & Hnew).
      exists (analyzed_of ext c ref st d :: new).
      split; [now rewrite <- app_assoc|].
      constructor; [|assumption]. exists c, ref, st, d. auto.
Qed.

Lemma filter_recognized_unknown_length (tests : list ExtractedTest) :
  (List.length (filter recognized tests) + List.length (filter unknown tests)
   = List.length tests)%nat.
Proof.
  induction tests as [|ext tests IH]; [reflexivity|].
  cbn [filter]. unfold unknown at 1.
  destruct (recognized ext); cbn [negb List.length]; lia.
Qed.

(** X22. For every arithmetic, a report of [analyze] has one matched test
    for each recognised test, in the order of the input, built from it with
    the range that [lookup] finds for its name: the canonical name, the
    bounds and the unit are those of the catalog entry, the raw name and the
    value those of the test, the status and the deviation those of
    [_classify], the severity that of [_severity_level].  Every test is
    either matched or unrecognised. *)
Theorem matched_tests_built_in_order (tests : list ExtractedTest)
        (report : AnalysisReport) :
  analyze tests = Ok report ->
  Forall2 built_from (filter recognized tests) (matched report) /\
  (List.length (matched report) + List.length (unrecognized report)
   = List.length tests)%nat.
Proof.
  intros H.
  assert (Hu : unrecognized report = filter unknown tests).
  { rewrite analyze_filter in H.
    destruct (analyze (filter recognized tests)) as [r|e]; [|discriminate].
    now injection H as <-. }
  unfold analyze in H.
  destruct (analyze_loop tests [] []) as [[m u]|e] eqn:E; [|discriminate].
  cbn [bind] in H. destruct (_compute_health_score m) as [z|e]; [|discriminate].
  injection H as <-. cbn [matched unrecognized] in *.
  apply analyze_loop_built in E as (new & -> & Hnew). cbn [app].
  split; [exact Hnew|].
  rewrite <- (Forall2_length Hnew), Hu. apply filter_recognized_unknown_length.
Qed.

End AnalyzeMore.

(** ** PDF text extraction: what comes out, and what is raised *)

Section PdfProperties.
Import Pdf.

Lemma join_blank (parts : list string) :
  all_chars is_space (join newline parts) = forallb (all_chars is_space) parts.
Proof.
  induction parts as [|part parts IH]; [reflexivity|].
  destruct parts as [|part' parts].
  - cbn [join forallb]. now rewrite andb_true_r.
  - change (join newline (part :: part' :: parts))
      with (part ++ newline ++ join newline (part' :: parts)).
    rewrite !all_chars_app, IH. reflexivity.
Qed.

(** the texts that the loop keeps: those of the pages that have one *)
Definition kept (ps : list page) : list string :=
  flat_map (fun pg => match pg with
                      | Returns (Some (String c t)) => [String c t]
                      | _ => []
                      end) ps.

Definition page_returns (pg : page) : Prop := exists text, pg = Returns text.

Lemma extract_pages_kept (ps : list page) (acc : list string) :
  Forall page_returns ps -> extract_pages ps acc = Returns (acc ++ kept ps)%list.
Proof.
  intros H. revert acc. induction H as [|pg ps [text ->] _ IH]; intros acc.
  - cbn [extract_pages kept flat_map]. now rewrite app_nil_r.
  - cbn [extract_pages kept flat_map]. destruct text as [[|c t]|].
    + rewrite IH. reflexivity.
    + rewrite IH, <- app_assoc. reflexivity.
    + rewrite IH. reflexivity.
Qed.

Lemma extract_pages_fails (ps : list page) (acc : list string) (e : list N) :
  extract_pages ps acc = Fails e -> In (Fails e) ps.
Proof.
  revert acc. induction ps as [|[text|e'] ps IH]; intros acc; cbn [extract_pages].
  - discriminate.
  - destruct text as [[|c t]|]; intros H; right; eapply IH; exact H.
  - intros [= ->]. now left.
Qed.

Lemma extract_pages_returns (ps : list page) (acc out : list string) :
  extract_pages ps acc = Returns out -> Forall page_returns ps.
Proof.
  revert acc. induction ps as [|[text|e'] ps IH]; intros acc; cbn [extract_pages].
  - constructor.
  - intros H. constructor; [now exists text|].
    destruct text as [[|c t]|]; eapply IH; exact H.
  - discriminate.
Qed.

(** X23. A text that [extract_text_from_pdf] returns is never empty and has
    no whitespace at its ends: trimming it again changes nothing.  It is
    returned only when no call of the library failed and the file has a
    page, and it is the trimmed join, with newlines, of the texts of the
    pages that have one. *)
Theorem extracted_text_is_trimmed (f : file) (full_text : string) :
  extract_text_from_pdf f = Text full_text ->
  full_text <> EmptyString /\
  strip full_text = full_text /\
  exists p ps,
    f = Returns p /\ pages p = Returns ps /\ close p = Returns tt /\
    ps <> [] /\ Forall page_returns ps /\
    full_text = strip (join newline (kept ps)).
Proof.
  unfold extract_text_from_pdf. destruct f as [p|e]; [|discriminate].
  cbv zeta. destruct (close p) as [[]|e] eqn:Ec; [|discriminate].
  unfold with_body. destruct (pages p) as [[|pg ps]|e] eqn:Ep; try discriminate.
  destruct (extract_pages (pg :: ps) []) as [texts|e] eqn:El; [|discriminate].
  pose proof (extract_pages_returns _ _ _ El) as Hret.
  rewrite (extract_pages_kept _ [] Hret) in El.
  assert (Et : texts = kept (pg :: ps)) by (now injection El).
  rewrite Et. cbv zeta.
  destruct (strip (join newline (kept (pg :: ps)))) as [|c t] eqn:Es; [discriminate|].
  intros [= <-]. split; [discriminate|]. split.
  - rewrite <- Es. apply strip_idem.
  - exists p, (pg :: ps).
    refine (conj eq_refl (conj Ep (conj Ec (conj _ (conj Hret _))))); [discriminate|].
    now rewrite Es.
Qed.


(** the texts of the pages are whitespace, if there is any *)
Definition blank (ps : list page) : bool := forallb (all_chars is_space) (kept ps).

Lemma with_body_returning (p : pdf) (pg : page) (ps : list page) :
  pages p = Returns (pg :: ps) -> Forall page_returns (pg :: ps) ->
  with_body p = if blank (pg :: ps) then RaiseEmpty no_text_message
                else Return (strip (join newline (kept (pg :: ps)))).
Proof.
  intros Ep Hret. unfold with_body. rewrite Ep.
  rewrite (extract_pages_kept _ [] Hret).
  change ([] ++ kept (pg :: ps))%list with (kept (pg :: ps)). cbv zeta.
  unfold blank. rewrite <- join_blank.
  destruct (strip (join newline (kept (pg :: ps)))) as [|c t] eqn:Es.
  - apply strip_empty in Es. now rewrite Es.
  - destruct (all_chars is_space (join newline (kept (pg :: ps)))) eqn:Eb;
      [|reflexivity].
    apply strip_empty in Eb. congruence.
Qed.

Lemma with_body_other (p : pdf) (e : list N) :
  with_body p = RaiseOther e ->
  pages p = Fails e \/ exists ps, pages p = Returns ps /\ In (Fails e) ps.
Proof.
  unfold with_body. destruct (pages p) as [[|pg ps]|e'] eqn:Ep.
  - discriminate.
  - destruct (extract_pages (pg :: ps) []) as [texts|e'] eqn:El.
    + cbv zeta. destruct (strip (join newline texts)); discriminate.
    + intros [= ->]. right. exists (pg :: ps). split; [reflexivity|].
      now apply extract_pages_fails in El.
  - intros [= ->]. now left.
Qed.

Lemma with_body_empty (p : pdf) (m : list N) :
  with_body p = RaiseEmpty m ->
  exists ps, pages p = Returns ps /\ Forall page_returns ps /\
             ((ps = [] /\ m = no_pages_message) \/
              (ps <> [] /\ blank ps = true /\ m = no_text_message)).
Proof.
  intros H. destruct (pages p) as [[|pg ps]|e'] eqn:Ep.
  - unfold with_body in H. rewrite Ep in H. injection H as <-.
    exists []. split; [reflexivity|]. split; [constructor|]. now left.
  - assert (Hret : Forall page_returns (pg :: ps)).
    { unfold with_body in H. rewrite Ep in H.
      destruct (extract_pages (pg :: ps) []) as [texts|e'] eqn:El; [|discriminate].
      now apply extract_pages_returns in El. }
    rewrite (with_body_returning p pg ps Ep Hret) in H.
    destruct (blank (pg :: ps)) eqn:Eb; [|discriminate]. injection H as <-.
    exists (pg :: ps). split; [reflexivity|]. split; [assumption|].
    right. split; [discriminate|]. now split.
  - unfold with_body in H. rewrite Ep in H. discriminate.
Qed.

(** X24. [extract_text_from_pdf] raises [EmptyPDFError] exactly when no call
    of the library fails and the file has no page, or no page has a text
    with a character that is not whitespace; the message tells which.  The
    message of every [PDFExtractionError] is ["Failed to read PDF: "]
    followed by the text of an exception that a call of the library
    raised. *)
Theorem extraction_failures (f : file) (m : list N) :
  (extract_text_from_pdf f = Raised (EmptyPDFError m) <->
   exists p ps,
     f = Returns p /\ pages p = Returns ps /\ close p = Returns tt /\
     Forall page_returns ps /\
     ((ps = [] /\ m = no_pages_message) \/
      (ps <> [] /\ blank ps = true /\ m = no_text_message))) /\
  (extract_text_from_pdf f = Raised (PDFExtractionError m) ->
   exists e,
     m = failed_to_read e /\
     (f = Fails e \/
      exists p, f = Returns p /\
                (close p = Fails e \/ pages p = Fails e \/
                 exists ps, pages p = Returns ps /\ In (Fails e) ps))).
Proof.
  split; [split|].
  - unfold extract_text_from_pdf. destruct f as [p|e]; [|discriminate].
    cbv zeta. destruct (close p) as [[]|e] eqn:Ec; [|discriminate].
    destruct (with_body p) as [t|m'|e] eqn:Eb; try discriminate.
    intros [= <-]. destruct (with_body_empty p m' Eb) as (ps & Ep & Hret & Hm).
    now exists p, ps.
  - intros (p & ps & -> & Ep & Ec & Hret & Hm).
    unfold extract_text_from_pdf. cbv zeta. rewrite Ec.
    destruct Hm as [[-> ->]|(Hne & Hb & ->)].
    + unfold with_body. now rewrite Ep.
    + destruct ps as [|pg ps]; [congruence|].
      now rewrite (with_body_returning p pg ps Ep Hret), Hb.
  - unfold extract_text_from_pdf. destruct f as [p|e].
    + cbv zeta. destruct (close p) as [[]|e] eqn:Ec.
      * destruct (with_body p) as [t|m'|e] eqn:Eb; try discriminate.
        intros [= <-]. exists e. split; [reflexivity|]. right. exists p.
        split; [reflexivity|]. right. now apply with_body_other.
      * intros [= <-]. exists e. split; [reflexivity|]. right. exists p.
        split; [reflexivity|]. now left.
    + intros [= <-]. exists e. split; [reflexivity|]. now left.
Qed.

End PdfProperties.

(** ** The dashboard *)

Section SortFacts.
Import App.
Context {A : Type} (key : A -> Z).

Definition by_key (x y : A) : Prop := key x <= key y.

Lemma insert_by_Permutation (x : A) (l : list A) :
  Permutation (x :: l) (insert_by key x l).
Proof.
  induction l as [|y l IH]; cbn [insert_by]; [reflexivity|].
  destruct (key x <=? key y); [reflexivity|].
  rewrite perm_swap. now constructor.
Qed.

Lemma sort_by_Permutation (l : list A) : Permutation l (sort_by key l).
Proof.
  induction l as [|x l IH]; cbn [sort_by]; [constructor|].
  rewrite <- insert_by_Permutation. now constructor.
Qed.

Lemma insert_by_sorted (x : A) (l : list A) :
  StronglySorted by_key l -> StronglySorted by_key (insert_by key x l).
Proof.
  induction 1 as [|y l Hl IH Hy]; cbn [insert_by].
  - repeat constructor.
  - destruct (Z.leb_spec (key x) (key y)) as [Hle|Hgt].
    + constructor; [now constructor|]. constructor; [exact Hle|].
      rewrite Forall_forall in *. intros z Hz. specialize (Hy z Hz).
      unfold by_key in *. lia.
    + constructor; [exact IH|].
      rewrite Forall_forall in *. intros z Hz.
      apply (Permutation_in _ (Permutation_sym (insert_by_Permutation x l))) in Hz.
      destruct Hz as [<-|Hz]; [unfold by_key; lia | now apply Hy].
Qed.

Lemma sort_by_sorted (l : list A) : StronglySorted by_key (sort_by key l).
Proof.
  induction l as [|x l IH]; cbn [sort_by]; [constructor|].
  now apply insert_by_sorted.
Qed.

(** stability: the elements of one key keep their order *)
Lemma insert_by_stable (k : Z) (x : A) (l : list A) :
  StronglySorted by_key l ->
  filter (fun y => key y =? k) (insert_by key x l)
    = filter (fun y => key y =? k) (x :: l).
Proof.
  induction 1 as [|y l Hl IH Hy]; cbn [insert_by]; [reflexivity|].
  destruct (Z.leb_spec (key x) (key y)) as [Hle|Hgt]; [reflexivity|].
  cbn [filter] in *. rewrite IH.
  destruct (Z.eqb_spec (key x) k) as [Ex|Ex]; [|reflexivity].
  destruct (Z.eqb_spec (key y) k) as [Ey|Ey]; [lia|reflexivity].
Qed.

Lemma sort_by_stable (k : Z) (l : list A) :
  filter (fun y => key y =? k) (sort_by key l) = filter (fun y => key y =? k) l.
Proof.
  induction l as [|x l IH]; cbn [sort_by]; [reflexivity|].
  rewrite insert_by_stable by apply sort_by_sorted.
  cbn [filter]. now rewrite IH.
Qed.

End SortFacts.

Section CategoryProperties.
Import App.
Context {PF : PyFloat}.

(** the tests of a category among [ts] *)
Definition in_category (cat_info : RiskCategory) (t : AnalyzedTest) : bool :=
  existsb (String.eqb (canonical_name t)) (tests cat_info).

(** the entry that [_categorize_risks] builds for a category with a test *)
Definition entry_of (cat_name : string) (cat_info : RiskCategory)
           (ts : list AnalyzedTest) : CategoryRisk :=
  let matched := filter (in_category cat_info) ts in
  let abnormal := filter is_abnormal matched in
  {| category := cat_name;
     r_icon := icon cat_info;
     risk_level := level_of (List.length abnormal) (List.length matched);
     abnormal := Z.of_nat (List.length abnormal);
     total := Z.of_nat (List.length matched) |}.

Definition has_test (ts : list AnalyzedTest) (c : string * RiskCategory) : bool :=
  match filter (in_category (snd c)) ts with
  | [] => false
  | _ => true
  end.

(** the loop as a map over the categories that have a test *)
Lemma categorize_loop_map (categories : list (string * RiskCategory))
      (ts : list AnalyzedTest) (results : list CategoryRisk) :
  categorize_loop categories ts results
    = (results ++ map (fun c => entry_of (fst c) (snd c) ts)
                      (filter (has_test ts) categories))%list.
Proof.
  revert results. induction categories as [|[cat_name cat_info] cs IH]; intros results.
  - cbn [categorize_loop filter map]. now rewrite app_nil_r.
  - cbn [categorize_loop filter]. unfold has_test at 1. cbn [snd].
    fold (in_category cat_info).
    destruct (filter (in_category cat_info) ts) as [|t m] eqn:E.
    + apply IH.
    + rewrite IH, <- app_assoc. cbn [map app fst snd]. unfold entry_of.
      rewrite E. reflexivity.
Qed.

Definition category_names : list string := map fst _RISK_CATEGORIES.

Lemma category_names_distinct : NoDup category_names.
Proof. apply nodup_strings_NoDup. vm_compute. reflexivity. Qed.

(** X25. For every arithmetic, [_categorize_risks] gives the categories
    worst first: high before moderate before low before normal, and those
    of one level in the order of [_RISK_CATEGORIES].  There is one entry
    for each category that has a test among the given ones, and none for
    the others. *)
Theorem categories_worst_first (ts : list AnalyzedTest) :
  let results := _categorize_risks ts in
  let built := map (fun c => entry_of (fst c) (snd c) ts)
                   (filter (has_test ts) _RISK_CATEGORIES) in
  StronglySorted (fun x y => order (risk_level x) <= order (risk_level y)) results /\
  Permutation built results /\
  (forall k, filter (fun x => order (risk_level x) =? k) results
             = filter (fun x => order (risk_level x) =? k) built) /\
  NoDup (map category results).
Proof.
  cbv zeta. unfold _categorize_risks. rewrite categorize_loop_map. cbn [app].
  set (built := map _ _).
  refine (conj _ (conj _ (conj _ _))).
  - apply (sort_by_sorted (fun x => order (risk_level x))).
  - apply sort_by_Permutation.
  - intros k. apply (sort_by_stable (fun x => order (risk_level x))).
  - eapply Permutation_NoDup.
    + apply Permutation_map. apply sort_by_Permutation.
    + unfold built. rewrite map_map. cbn [entry_of category].
      apply (NoDup_map_filter fst). exact category_names_distinct.
Qed.

(** X26. For every arithmetic, every entry of the result of
    [_categorize_risks] belongs to a category of [_RISK_CATEGORIES] and has
    its icon; [total] counts the given tests whose canonical name is in the
    set of the category, and is at least 1; [abnormal] counts those of them
    that are not Normal, and is at most [total]; and the level is one of
    normal, low, moderate and high. *)
Theorem category_entry_counts (ts : list AnalyzedTest) (r : CategoryRisk) :
  In r (_categorize_risks ts) ->
  exists cat_info,
    In (category r, cat_info) _RISK_CATEGORIES /\
    r_icon r = icon cat_info /\
    total r = Z.of_nat (List.length (filter (in_category cat_info) ts)) /\
    abnormal r
      = Z.of_nat (List.length (filter is_abnormal (filter (in_category cat_info) ts))) /\
    1 <= total r /\
    0 <= abnormal r <= total r /\
    0 <= order (risk_level r) <= 3.
Proof.
  unfold _categorize_risks. rewrite categorize_loop_map. cbn [app]. intros Hin.
  apply (Permutation_in _ (Permutation_sym (sort_by_Permutation _ _))) in Hin.
  apply in_map_iff in Hin as ([cat_name cat_info] & <- & Hc).
  apply filter_In in Hc as [Hc Ht]. cbn [fst snd] in *.
  exists cat_info. unfold entry_of. cbn [category r_icon total abnormal risk_level].
  unfold has_test in Ht. cbn [snd] in Ht.
  pose proof (filter_length_le is_abnormal (filter (in_category cat_info) ts)) as Hle.
  refine (conj Hc (conj eq_refl (conj eq_refl (conj eq_refl (conj _ (conj _ _)))))).
  - destruct (filter (in_category cat_info) ts); [discriminate|].
    cbn [List.length]. lia.
  - lia.
  - unfold level_of. cbv zeta.
    repeat match goal with
      | |- context [if ?b then _ else _] => destruct b
      end; vm_compute; split; discriminate.
Qed.

End CategoryProperties.

Section CategoryCoverage.
Import App.
Context {PF : PyFloat}.
#[local] Opaque NORMAL_RANGES.

(** the number of categories that have the name in their set *)
Definition count_categories (name : string) : nat :=
  List.length (filter (fun c => existsb (String.eqb name) (tests (snd c)))
                      _RISK_CATEGORIES).

Definition totals (results : list CategoryRisk) : Z :=
  fold_right (fun r acc => total r + acc) 0 results.

Definition uncategorised (t : AnalyzedTest) : bool := String.eqb (canonical_name t) "psa".

Lemma totals_cons (r : CategoryRisk) (l : list CategoryRisk) :
  totals (r :: l) = total r + totals l.
Proof. reflexivity. Qed.

Lemma totals_Permutation (l l' : list CategoryRisk) :
  Permutation l l' -> totals l = totals l'.
Proof.
  induction 1 as [|x l l' _ IH|x y l|l l' l'' _ IH1 _ IH2];
    rewrite ?totals_cons; lia.
Qed.

(** the tests counted in the categories [cs] *)
Fixpoint category_total (cs : list (string * RiskCategory)) (ts : list AnalyzedTest)
  : nat :=
  match cs with
  | [] => 0
  | c :: cs' => List.length (filter (in_category (snd c)) ts) + category_total cs' ts
  end.

Lemma totals_built (cs : list (string * RiskCategory)) (ts : list AnalyzedTest) :
  totals (map (fun c => entry_of (fst c) (snd c) ts) (filter (has_test ts) cs))
    = Z.of_nat (category_total cs ts).
Proof.
  induction cs as [|c cs IH]; [reflexivity|].
  cbn [filter category_total]. unfold has_test at 1.
  destruct (filter (in_category (snd c)) ts) as [|t m] eqn:E.
  - rewrite IH. cbn [List.length]. lia.
  - cbn [map]. rewrite totals_cons, IH. unfold entry_of. cbn [total].
    rewrite E. lia.
Qed.

Lemma category_total_cons (cs : list (string * RiskCategory))
      (t : AnalyzedTest) (ts : list AnalyzedTest) :
  category_total cs (t :: ts)
    = (List.length (filter (fun c => in_category (snd c) t) cs)
       + category_total cs ts)%nat.
Proof.
  induction cs as [|c cs IH]; [reflexivity|].
  cbn [category_total filter]. rewrite IH.
  destruct (in_category (snd c) t); cbn [List.length]; lia.
Qed.

Definition one_category_each (ranges : list (string * ReferenceRange)) : bool :=
  forallb (fun entry => Nat.eqb (count_categories (fst entry))
                                (if String.eqb (fst entry) "psa" then 0 else 1))
          ranges.

Lemma catalog_one_category_each : one_category_each NORMAL_RANGES = true.
Proof. vm_compute. reflexivity. Qed.

Lemma category_total_catalog (ts : list AnalyzedTest) :
  Forall (fun t => exists ref, In (canonical_name t, ref) NORMAL_RANGES) ts ->
  category_total _RISK_CATEGORIES ts
    = List.length (filter (fun t => negb (uncategorised t)) ts).
Proof.
  induction 1 as [|t ts [ref Ht] _ IH]; [reflexivity|].
  rewrite category_total_cons, IH. cbn [filter].
  pose proof catalog_one_category_each as H. unfold one_category_each in H.
  rewrite forallb_forall in H. specialize (H _ Ht). cbv beta iota delta [fst] in H.
  apply Nat.eqb_eq in H. unfold count_categories in H.
  unfold in_category, uncategorised. rewrite H.
  destruct (String.eqb (canonical_name t) "psa"); reflexivity.
Qed.

(** X27. For every arithmetic: the sets of the categories are disjoint and
    hold every canonical name of the catalog but ["psa"].  So the totals of
    the categories of a report count every matched test once, but for the
    PSA tests, which are in no category. *)
Theorem every_test_but_psa_in_one_category :
  (forall c ref, In (c, ref) NORMAL_RANGES ->
                 count_categories c = if String.eqb c "psa" then 0%nat else 1%nat) /\
  (forall (tests_ : list ExtractedTest) (report : AnalysisReport),
      analyze tests_ = Ok report ->
      totals (_categorize_risks (matched report))
        = Z.of_nat (List.length (filter (fun t => negb (uncategorised t))
                                        (matched report)))).
Proof.
  split.
  - intros c ref Hin. pose proof catalog_one_category_each as H.
    unfold one_category_each in H. rewrite forallb_forall in H.
    specialize (H _ Hin). now apply Nat.eqb_eq in H.
  - intros tests_ report Hr.
    assert (Hm : Forall (fun t => exists ref, In (canonical_name t, ref) NORMAL_RANGES)
                        (matched report)).
    { unfold analyze in Hr.
      destruct (analyze_loop tests_ [] []) as [[m u]|e] eqn:E; [|discriminate].
      cbn [bind] in Hr. destruct (_compute_health_score m) as [z|e]; [|discriminate].
      injection Hr as <-. cbn [matched].
      eapply analyze_loop_Forall; [|constructor|exact E].
      intros ext c ref st d Hin _. now exists ref. }
    unfold _categorize_risks. rewrite categorize_loop_map. cbn [app].
    rewrite <- (totals_Permutation _ _ (sort_by_Permutation _ _)).
    rewrite totals_built. f_equal. now apply category_total_catalog.
Qed.

End CategoryCoverage.

Section DashboardExact.
Import App.
#[local] Existing Instance Exact.rational.

(** the level by the counts, in integers *)
Definition level_by_counts (a n : nat) : string :=
  if (a =? 0)%nat then "normal"
  else if (10 * a <? 4 * n)%nat then "low"
  else if (10 * a <? 7 * n)%nat then "moderate"
  else "high".

Lemma rational_level (a n : nat) :
  (0 < n)%nat -> level_of (PF := Exact.rational) a n = level_by_counts a n.
Proof.
  intros Hn. unfold level_of, level_by_counts. destruct n as [|n']; [lia|].
  set (n := S n') in *. cbv zeta.
  assert (En : Zpos (Pos.of_nat n) = Z.of_nat n)
    by (rewrite <- positive_nat_Z, Nat2Pos.id by discriminate; reflexivity).
  change (@feqb Exact.rational) with Qeq_bool.
  change (@fltb Exact.rational) with Exact.Qltb.
  change (@of_ratio Exact.rational (Z.of_nat a) (Pos.of_nat n))
    with (Z.of_nat a # Pos.of_nat n).
  change (@of_int Exact.rational 0) with (0 # 1).
  change (@flit Exact.rational "0.4") with (4 # 10).
  change (@flit Exact.rational "0.7") with (7 # 10).
  assert (Hlt : forall k : Z,
             Exact.Qltb (Z.of_nat a # Pos.of_nat n) (k # 10) = (10 * Z.of_nat a <? k * Z.of_nat n)).
  { intros k. unfold Exact.Qltb, Qle_bool. cbn [Qnum Qden]. rewrite En.
    destruct (Z.leb_spec (k * Z.of_nat n) (Z.of_nat a * 10));
      destruct (Z.ltb_spec (10 * Z.of_nat a) (k * Z.of_nat n)); cbn [negb];
      reflexivity || lia. }
  rewrite !Hlt.
  assert (Hz : Qeq_bool (Z.of_nat a # Pos.of_nat n) (0 # 1) = (a =? 0)%nat).
  { destruct (Qeq_bool (Z.of_nat a # Pos.of_nat n) (0 # 1)) eqn:E.
    - apply Qeq_bool_iff in E. unfold Qeq in E. cbn [Qnum Qden] in E.
      symmetry. apply Nat.eqb_eq. lia.
    - apply Qeq_bool_neq in E. symmetry. apply Nat.eqb_neq. intros ->.
      apply E. reflexivity. }
  rewrite Hz.
  destruct (a =? 0)%nat; [reflexivity|].
  replace (10 * Z.of_nat a <? 4 * Z.of_nat n) with (10 * a <? 4 * n)%nat.
  2:{ destruct (Nat.ltb_spec (10 * a) (4 * n));
        destruct (Z.ltb_spec (10 * Z.of_nat a) (4 * Z.of_nat n)); reflexivity || lia. }
  replace (10 * Z.of_nat a <? 7 * Z.of_nat n) with (10 * a <? 7 * n)%nat.
  2:{ destruct (Nat.ltb_spec (10 * a) (7 * n));
        destruct (Z.ltb_spec (10 * Z.of_nat a) (7 * Z.of_nat n)); reflexivity || lia. }
  reflexivity.
Qed.

(** the counts up to [bound], in binary64 *)
Definition agree_at (n a : nat) : bool :=
  String.eqb (level_of (PF := B64.binary64) a n) (level_by_counts a n).

Lemma binary64_levels_60 :
  forallb (fun n => forallb (agree_at n) (List.seq 0 (S n))) (List.seq 1 60) = true.
Proof. vm_compute. reflexivity. Qed.

Lemma forallb_seq (f : nat -> bool) (lo len x : nat) :
  forallb f (List.seq lo len) = true -> (lo <= x < lo + len)%nat -> f x = true.
Proof.
  intros H Hx. rewrite forallb_forall in H. apply H. apply in_seq. exact Hx.
Qed.

Lemma binary64_level (a n : nat) :
  (0 < n)%nat -> (a <= n)%nat -> (n <= 60)%nat ->
  level_of (PF := B64.binary64) a n = level_by_counts a n.
Proof.
  intros Hn Ha Hb. apply String.eqb_eq. change (agree_at n a = true).
  apply (forallb_seq (agree_at n) 0 (S n)); [|lia].
  apply (forallb_seq (fun n => forallb (agree_at n) (List.seq 0 (S n))) 1 60); [|lia].
  exact binary64_levels_60.
Qed.

(** X28. The level of a category with [a] tests out of range among
    [n >= 1]: normal when [a = 0], else low when [a / n < 0.4], moderate when
    [0.4 <= a / n < 0.7] and high from 0.7 on, the comparisons being those
    of the integers [10 a], [4 n] and [7 n]: in exact arithmetic for all
    counts, in binary64 arithmetic for up to 60 tests. *)
Theorem risk_level_thresholds (a n : nat) :
  (0 < n)%nat ->
  level_of (PF := Exact.rational) a n = level_by_counts a n /\
  ((a <= n)%nat -> (n <= 60)%nat ->
   level_of (PF := B64.binary64) a n = level_by_counts a n).
Proof.
  intros Hn. split; [now apply rational_level|]. intros Ha Hb.
  now apply binary64_level.
Qed.

Local Open Scope Q_scope.




End DashboardExact.

(** ** The badges of the results table *)

Section BadgeProperties.
Import App.
Context {PF : PyFloat}.

(** X30. For every arithmetic, the badge of every matched test of a report
    of [analyze] has one of the seven classes that the style sheet defines:
    a test that is not Normal never has the severity Normal, for which
    [_status_badge] would make a class of no style.  The badge of a Normal
    test is the Normal one, whatever its severity. *)
Theorem badge_has_a_style (tests_ : list ExtractedTest) (report : AnalysisReport)
        (t : AnalyzedTest) :
  analyze tests_ = Ok report -> In t (matched report) ->
  In (fst (status_badge (status t) (severity t))) badge_classes /\
  (status t = NORMAL <-> fst (status_badge (status t) (severity t)) = "badge-normal") /\
  ~ In (fst (status_badge HIGH SEV_NORMAL)) badge_classes /\
  ~ In (fst (status_badge LOW SEV_NORMAL)) badge_classes.
Proof.
  intros Hr Hin.
  destruct (matched_status_severity tests_ report t Hr Hin) as [[_ Hs2] _].
  assert (Hbad : forall st, st <> NORMAL ->
                            ~ In (fst (status_badge st SEV_NORMAL)) badge_classes).
  { intros st Hst H. destruct st; [|congruence|]; vm_compute in H;
      repeat (destruct H as [H|H]; [discriminate H|]); exact H. }
  refine (conj _ (conj _ (conj (Hbad HIGH _) (Hbad LOW _)))); try discriminate.
  - destruct (status t) eqn:Est; destruct (severity t) eqn:Esev;
      try (vm_compute; tauto); exfalso; discriminate (Hs2 eq_refl).
  - destruct (status t); split; intros H; try reflexivity; discriminate H.
Qed.

End BadgeProperties.

(** ** The theorems at concrete inputs *)

#[local] Existing Instance B64.binary64.

Lemma catalog_nameb_complete {PF : PyFloat} (key : string) :
  catalog_name key -> catalog_nameb key = true.
Proof.
  intros (c & ref & Hin & H). unfold catalog_nameb, catalog_nameb_in.
  apply existsb_exists. exists (c, ref). split; [assumption|].
  cbv beta iota delta [fst snd]. apply orb_true_iff. destruct H as [->|H].
  - left. apply String.eqb_refl.
  - right. now apply string_in_In.
Qed.

Definition deviation_28 : @F B64.binary64 := flit "28.0".

Lemma severity_level_thresholds_witness :
  fleb (of_int 0) deviation_28 = true /\
  _severity_level HIGH deviation_28 = MODERATE /\
  _severity_level LOW deviation_28 = CRITICAL.
Proof.
  split; [reflexivity|].
  destruct (severity_level_thresholds deviation_28 eq_refl)
    as (_ & Hm & _ & _ & Hc & _).
  split; [apply Hm; reflexivity|apply Hc; reflexivity].
Defined.

(** a range with the lower bound zero, and a value below it *)
Definition zero_anchored : @ReferenceRange B64.binary64 :=
  {| min_value := flit "0.0"; max_value := flit "200.0"; unit := "mg/dL";
     aliases := [] |}.

Definition minus_five : @F B64.binary64 := of_ratio (-5) 1.

Lemma classify_never_divides_by_zero_witness :
  fltb minus_five (min_value zero_anchored) = true /\
  feqb (min_value zero_anchored) (of_int 0) = true /\
  _classify minus_five zero_anchored = Ok (LOW, flit "500.0").
Proof.
  split; [reflexivity|]. split; [reflexivity|].
  destruct (classify_never_divides_by_zero minus_five zero_anchored) as (_ & H & _).
  rewrite (H eq_refl eq_refl). reflexivity.
Defined.

Definition hemoglobin_range : @ReferenceRange B64.binary64 :=
  {| min_value := flit "12.0"; max_value := flit "17.5"; unit := "g/dL";
     aliases := ["hb"; "hgb"; "haemoglobin"] |}.

Lemma lookup_alias_symmetry_witness :
  In ("hemoglobin", hemoglobin_range) NORMAL_RANGES /\
  In "hgb" (aliases hemoglobin_range) /\
  lookup "hgb" = lookup "hemoglobin" /\
  lookup "hemoglobin" = Ok (Some ("hemoglobin", hemoglobin_range)) /\
  lookup "HGB" = lookup "hgb" /\
  lookup ("  " ++ "hgb" ++ " ") = lookup "hgb" /\
  lookup (PF := B64.binary64) "XYZ-Marker" = Ok None.
Proof.
  destruct (lookup_alias_symmetry (PF := B64.binary64)) as (Halias & Hcase & Hpad & Hnone & _).
  assert (Hin : In ("hemoglobin", hemoglobin_range) NORMAL_RANGES)
    by (apply get_In; reflexivity).
  assert (Ha : In "hgb" (aliases hemoglobin_range)) by (right; left; reflexivity).
  destruct (Halias _ _ _ Hin Ha) as [H1 H2].
  refine (conj Hin (conj Ha (conj H1 (conj H2 (conj _ (conj _ _)))))).
  - apply Hcase. reflexivity.
  - apply Hpad; reflexivity.
  - apply Hnone. intros H. apply catalog_nameb_complete in H. discriminate H.
Defined.

Definition dedup_text : string :=
  "Sodium 140" ++ newline ++ "Hemoglobin 11.2 g/dL" ++ newline
  ++ "HEMOGLOBIN : 15.0".

Definition first_hemoglobin : @ExtractedTest B64.binary64 :=
  {| raw_name := "Hemoglobin"; value := flit "11.2"; line := "Hemoglobin 11.2 g/dL" |}.

Definition second_hemoglobin : @ExtractedTest B64.binary64 :=
  {| raw_name := "HEMOGLOBIN"; value := flit "15.0"; line := "HEMOGLOBIN : 15.0" |}.

Definition sodium_140 : @ExtractedTest B64.binary64 :=
  {| raw_name := "Sodium"; value := flit "140"; line := "Sodium 140" |}.

(** a closed equation, by evaluation of its left side *)
Ltac evaluated :=
  match goal with
  | |- ?lhs = _ =>
      let v := eval vm_compute in lhs in
      vm_cast_no_check (@eq_refl _ v)
  end.








Definition xyz_marker : @ExtractedTest B64.binary64 :=
  {| raw_name := "XYZ-Marker"; value := flit "42"; line := "XYZ-Marker 42" |}.

Definition glucose_118 : @ExtractedTest B64.binary64 :=
  {| raw_name := "Fasting Glucose"; value := flit "118";
     line := "Fasting Glucose 118 mg/dL 70 - 100" |}.

Lemma analyze_sets_unrecognized_aside_witness :
  parse_lab_values "XYZ-Marker 42" = [xyz_marker] /\
  recognized xyz_marker = false /\
  score_of (analyze [xyz_marker; glucose_118]) = score_of (analyze [glucose_118]) /\
  score_of (analyze [xyz_marker; glucose_118]) = Ok 53 /\
  exists report, analyze [xyz_marker; glucose_118] = Ok report /\
                 unrecognized report = [xyz_marker].
Proof.
  split; [reflexivity|]. split; [reflexivity|].
  destruct analyze_sets_unrecognized_aside as (_ & H & _).
  split; [exact (proj1 (H B64.binary64 [] [glucose_118] xyz_marker eq_refl))|].
  split; [reflexivity|]. scenario.
Defined.

Lemma noise_lines_are_dropped_witness :
  (exists m, re_search _NOISE_PATTERNS (strip "Page 1/2") = Some m) /\
  _is_noise "Page 1/2" = true /\
  parse_line (PF := B64.binary64) [] "Page 1/2" = [] /\
  (String.length (strip " 7 ") < 4)%nat /\
  _is_noise " 7 " = true.
Proof.
  destruct noise_lines_are_dropped as [_ H].
  assert (Hm : exists m, re_search _NOISE_PATTERNS (strip "Page 1/2") = Some m).
  { let r := eval vm_compute in (re_search _NOISE_PATTERNS (strip "Page 1/2")) in
    match r with Some ?m => exists m end. reflexivity. }
  assert (Hshort : (String.length (strip " 7 ") < 4)%nat) by (vm_compute; lia).
  destruct (H B64.binary64 [] "Page 1/2" (or_intror Hm)) as (H1 & H2 & _).
  refine (conj Hm (conj H1 (conj H2 (conj Hshort _)))).
  apply (H B64.binary64 [] " 7 "). left. exact Hshort.
Defined.

(** ** More theorems at concrete inputs *)

Lemma dedup_lines :
  splitlines dedup_text = ["Sodium 140"; "Hemoglobin 11.2 g/dL"; "HEMOGLOBIN : 15.0"].
Proof. evaluated. Qed.

Lemma dedup_parsed : parse_lab_values dedup_text = [sodium_140; first_hemoglobin].
Proof. evaluated. Qed.

Lemma second_candidate :
  candidate "HEMOGLOBIN : 15.0" = Some ("hemoglobin", second_hemoglobin).
Proof. evaluated. Qed.

Lemma first_hemoglobin_parsed : In first_hemoglobin (parse_lab_values dedup_text).
Proof. rewrite dedup_parsed. right. left. reflexivity. Qed.

Lemma parse_lab_values_keeps_line_order_witness :
  In "HEMOGLOBIN : 15.0" (splitlines dedup_text) /\
  candidate "HEMOGLOBIN : 15.0" = Some ("hemoglobin", second_hemoglobin) /\
  exists t', In t' (parse_lab_values dedup_text) /\ lower (raw_name t') = "hemoglobin".
Proof.
  assert (Hl : In "HEMOGLOBIN : 15.0" (splitlines dedup_text))
    by (rewrite dedup_lines; right; right; left; reflexivity).
  refine (conj Hl (conj second_candidate _)).
  exact (proj2 (parse_lab_values_keeps_line_order dedup_text) _ _ _ Hl second_candidate).
Defined.

Lemma parsed_test_has_its_line_witness :
  In first_hemoglobin (parse_lab_values dedup_text) /\
  exists l, In l (splitlines dedup_text) /\ _is_noise l = false /\
            line first_hemoglobin = strip l /\
            candidate l = Some (lower (raw_name first_hemoglobin), first_hemoglobin).
Proof.
  exact (conj first_hemoglobin_parsed
              (parsed_test_has_its_line dedup_text first_hemoglobin first_hemoglobin_parsed)).
Defined.

Lemma parsed_test_shape_witness :
  In first_hemoglobin (parse_lab_values dedup_text) /\
  (2 <= String.length (raw_name first_hemoglobin))%nat /\
  exists n d, 0 <= n /\ value first_hemoglobin = of_ratio n d.
Proof.
  exact (conj first_hemoglobin_parsed
              (parsed_test_shape dedup_text first_hemoglobin first_hemoglobin_parsed)).
Defined.

Definition noise_only_text : string :=
  "Page 1/2" ++ newline ++ "Patient Name: John Doe".

Lemma noise_only_lines :
  forall l, In l (splitlines noise_only_text) -> _is_noise l = true.
Proof.
  assert (E : splitlines noise_only_text = ["Page 1/2"; "Patient Name: John Doe"])
    by evaluated.
  rewrite E. intros l [<-|[<-|[]]]; vm_compute; reflexivity.
Qed.

Lemma parse_lab_values_at_most_one_per_line_witness :
  (forall l, In l (splitlines noise_only_text) -> _is_noise l = true) /\
  parse_lab_values (PF := B64.binary64) noise_only_text = [].
Proof.
  refine (conj noise_only_lines _).
  exact (proj2 (parse_lab_values_at_most_one_per_line noise_only_text) noise_only_lines).
Defined.

(** the match of the colon pattern on the third line *)
Definition second_match : mstate :=
  Eval vm_compute in
    match re_match _COLON_PATTERN "HEMOGLOBIN : 15.0" with
    | Some m => m
    | None => start EmptyString
    end.

Lemma second_line_match : re_match _COLON_PATTERN "HEMOGLOBIN : 15.0" = Some second_match.
Proof. vm_compute. reflexivity. Qed.

Lemma extracted_name_starts_with_letter_witness :
  re_match _COLON_PATTERN "HEMOGLOBIN : 15.0" = Some second_match /\
  re_fullmatch (plus (fun c => is_digit c || is_space c || Ascii.eqb c "."))
               (_clean_name (group second_match "name")) = None /\
  In first_hemoglobin (parse_lab_values dedup_text) /\
  _clean_name (raw_name first_hemoglobin) = raw_name first_hemoglobin /\
  exists c t, raw_name first_hemoglobin = String c t /\ is_ascii_letter c = true.
Proof.
  destruct (extracted_name_starts_with_letter (PF := B64.binary64)) as [Hm He].
  refine (conj second_line_match (conj _ _)).
  - apply (Hm "HEMOGLOBIN : 15.0"). left. exact second_line_match.
  - exact (conj first_hemoglobin_parsed (He _ _ first_hemoglobin_parsed)).
Defined.

Lemma captured_value_always_converts_witness :
  exists x,
    re_match _COLON_PATTERN "HEMOGLOBIN : 15.0" = Some second_match /\
    float_of_string (PF := B64.binary64) (group second_match "value") = Some x /\
    _is_noise "HEMOGLOBIN : 15.0" = false /\
    (2 <= String.length (_clean_name (group second_match "name")))%nat /\
    candidate "HEMOGLOBIN : 15.0"
      = Some (lower (_clean_name (group second_match "name")),
              {| raw_name := _clean_name (group second_match "name"); value := x;
                 line := strip "HEMOGLOBIN : 15.0" |}).
Proof.
  destruct (captured_value_always_converts (PF := B64.binary64)
              "HEMOGLOBIN : 15.0" second_match (or_introl second_line_match))
    as (x & Hx & Hc).
  assert (Hn : _is_noise "HEMOGLOBIN : 15.0" = false) by reflexivity.
  assert (Hlen : (2 <= String.length (_clean_name (group second_match "name")))%nat)
    by (vm_compute; lia).
  exists x. exact (conj second_line_match (conj Hx (conj Hn (conj Hlen (Hc Hn Hlen))))).
Defined.

Lemma hemoglobin_in_catalog : In ("hemoglobin", hemoglobin_range) NORMAL_RANGES.
Proof. apply get_In. reflexivity. Qed.

Lemma lookup_finds_exactly_the_names_witness :
  In ("hemoglobin", hemoglobin_range) NORMAL_RANGES /\
  In (lower (strip " HGB ")) (names_of ("hemoglobin", hemoglobin_range)) /\
  lookup " HGB " = Ok (Some ("hemoglobin", hemoglobin_range)).
Proof.
  assert (Hn : In (lower (strip " HGB ")) (names_of ("hemoglobin", hemoglobin_range)))
    by (right; right; left; reflexivity).
  refine (conj hemoglobin_in_catalog (conj Hn _)).
  exact (proj2 (lookup_finds_exactly_the_names " HGB " "hemoglobin" hemoglobin_range)
               (conj hemoglobin_in_catalog Hn)).
Defined.

Definition hematocrit_range : @ReferenceRange B64.binary64 :=
  {| min_value := flit "36.0"; max_value := flit "50.0"; unit := "%";
     aliases := ["hct"; "pcv"; "packed cell volume"] |}.

Lemma hematocrit_in_catalog : In ("hematocrit", hematocrit_range) NORMAL_RANGES.
Proof. apply get_In. reflexivity. Qed.

Lemma alias_map_never_overwrites_witness :
  In ("hemoglobin", hemoglobin_range) NORMAL_RANGES /\
  In ("hematocrit", hematocrit_range) NORMAL_RANGES /\
  In "hgb" (names_of ("hemoglobin", hemoglobin_range)) /\
  ~ In "hgb" (names_of ("hematocrit", hematocrit_range)).
Proof.
  assert (Hn : In "hgb" (names_of ("hemoglobin", hemoglobin_range)))
    by (right; right; left; reflexivity).
  refine (conj hemoglobin_in_catalog (conj hematocrit_in_catalog (conj Hn _))).
  intros H.
  pose proof (proj2 (proj2 (alias_map_never_overwrites (PF := B64.binary64)))
                _ _ _ hemoglobin_in_catalog hematocrit_in_catalog Hn H) as E.
  discriminate E.
Defined.

Lemma lookup_of_its_result_witness :
  lookup "HGB" = Ok (Some ("hemoglobin", hemoglobin_range)) /\
  lookup "hemoglobin" = Ok (Some ("hemoglobin", hemoglobin_range)) /\
  lower (strip "hemoglobin") = "hemoglobin".
Proof.
  assert (H : lookup "HGB" = Ok (Some ("hemoglobin", hemoglobin_range))) by evaluated.
  exact (conj H (lookup_of_its_result "HGB" "hemoglobin" hemoglobin_range H)).
Defined.

Lemma extracted_name_is_its_lookup_key_witness :
  In first_hemoglobin (parse_lab_values dedup_text) /\
  strip (raw_name first_hemoglobin) = raw_name first_hemoglobin /\
  lookup (raw_name first_hemoglobin) = Ok (Some ("hemoglobin", hemoglobin_range)) /\
  exists report,
    analyze (parse_lab_values dedup_text) = Ok report /\
    NoDup (map (fun t => lower (a_raw_name t)) (matched report)).
Proof.
  destruct (extracted_name_is_its_lookup_key (PF := B64.binary64) dedup_text) as [He Hr].
  destruct (He _ first_hemoglobin_parsed) as [Hs Hl].
  refine (conj first_hemoglobin_parsed (conj Hs (conj _ _))).
  - apply Hl. split; [exact hemoglobin_in_catalog|]. left. reflexivity.
  - let r := eval vm_compute in (analyze (PF := B64.binary64) (parse_lab_values dedup_text)) in
    match r with
    | Ok ?v =>
        assert (H : analyze (PF := B64.binary64) (parse_lab_values dedup_text) = Ok v)
          by reflexivity;
        exists v; exact (conj H (Hr v H))
    end.
Defined.

Definition low_hemoglobin : @F B64.binary64 := flit "11.2".

Lemma classify_status_by_range_witness :
  fleb (min_value hemoglobin_range) (max_value hemoglobin_range) = true /\
  fltb low_hemoglobin (min_value hemoglobin_range) = true /\
  status_of low_hemoglobin hemoglobin_range = Some LOW.
Proof.
  assert (Ho : fleb (min_value hemoglobin_range) (max_value hemoglobin_range) = true)
    by reflexivity.
  assert (Hl : fltb low_hemoglobin (min_value hemoglobin_range) = true) by reflexivity.
  refine (conj Ho (conj Hl _)).
  exact (proj2 (proj1 (classify_status_by_range low_hemoglobin hemoglobin_range Ho)) Hl).
Defined.







Lemma extracted_value_never_low_from_zero_witness :
  In first_hemoglobin (parse_lab_values dedup_text) /\
  feqb (min_value zero_anchored) (of_int 0) = true /\
  fltb (value first_hemoglobin) (min_value zero_anchored) = false /\
  forall d, _classify (value first_hemoglobin) zero_anchored <> Ok (LOW, d).
Proof.
  assert (Hz : feqb (min_value zero_anchored) (of_int 0) = true) by reflexivity.
  refine (conj first_hemoglobin_parsed (conj Hz _)).
  exact (proj1 extracted_value_never_low_from_zero dedup_text first_hemoglobin
               zero_anchored first_hemoglobin_parsed Hz).
Defined.




Definition normal_90 : @AnalyzedTest Exact.rational :=
  {| canonical_name := "fasting glucose"; a_raw_name := "Fasting Glucose";
     a_value := of_ratio 90 1; a_min_value := of_ratio 70 1; a_max_value := of_ratio 100 1;
     a_unit := "mg/dL"; status := NORMAL; deviation_pct := of_ratio 0 10;
     severity := SEV_NORMAL |}.





(** a test in range, in binary64 arithmetic *)
Definition in_range_140 : @AnalyzedTest B64.binary64 :=
  {| canonical_name := "sodium"; a_raw_name := "Sodium";
     a_value := flit "140"; a_min_value := flit "136.0"; a_max_value := flit "145.0";
     a_unit := "mEq/L"; status := NORMAL; deviation_pct := flit "0.0";
     severity := SEV_NORMAL |}.

Lemma all_normal_scores_100_witness :
  Forall (fun t => status t = NORMAL) [in_range_140; in_range_140] /\
  _compute_health_score [in_range_140; in_range_140] = Ok 100 /\
  Forall (fun t => status t = NORMAL) [normal_90] /\
  _compute_health_score [normal_90] = Ok 100.
Proof.
  assert (Hb : Forall (fun t => status t = NORMAL) [in_range_140; in_range_140])
    by (repeat constructor).
  assert (Hq : Forall (fun t => status t = NORMAL) [normal_90]) by (repeat constructor).
  exact (conj Hb (conj (proj1 all_normal_scores_100 _ Hb)
           (conj Hq (proj2 all_normal_scores_100 _ Hq)))).
Defined.

(** the report of an unrecognised test and a fasting glucose of 118 *)
Definition report_53 : @AnalysisReport B64.binary64 :=
  Eval vm_compute in
    match analyze [xyz_marker; glucose_118] with
    | Ok report => report
    | Raise _ => {| matched := []; unrecognized := []; health_score := 0 |}
    end.

Lemma report_53_analyzed : analyze [xyz_marker; glucose_118] = Ok report_53.
Proof. reflexivity. Qed.

Lemma matched_tests_built_in_order_witness :
  analyze [xyz_marker; glucose_118] = Ok report_53 /\
  Forall2 built_from (filter recognized [xyz_marker; glucose_118]) (matched report_53) /\
  (List.length (matched report_53) + List.length (unrecognized report_53)
   = List.length [xyz_marker; glucose_118])%nat.
Proof.
  exact (conj report_53_analyzed
           (matched_tests_built_in_order _ _ report_53_analyzed)).
Defined.

(** a file of two pages, one of them without text *)
Definition two_pages : Pdf.file :=
  Pdf.Returns {| Pdf.pages := Pdf.Returns [Pdf.Returns (Some " Hemoglobin 13.5 ");
                                           Pdf.Returns None];
                 Pdf.close := Pdf.Returns tt |}.

Lemma extracted_text_is_trimmed_witness :
  Pdf.extract_text_from_pdf two_pages = Pdf.Text "Hemoglobin 13.5" /\
  "Hemoglobin 13.5" <> EmptyString /\
  strip "Hemoglobin 13.5" = "Hemoglobin 13.5".
Proof.
  assert (H : Pdf.extract_text_from_pdf two_pages = Pdf.Text "Hemoglobin 13.5")
    by reflexivity.
  destruct (extracted_text_is_trimmed two_pages _ H) as (Hne & Hs & _).
  exact (conj H (conj Hne Hs)).
Defined.

(** a file whose only page is blank, and a file that does not open *)
Definition blank_page : Pdf.pdf :=
  {| Pdf.pages := Pdf.Returns [Pdf.Returns (Some "   ")]; Pdf.close := Pdf.Returns tt |}.

Definition not_a_pdf : Pdf.file := Pdf.Fails (Pdf.codes "No /Root object!").

Lemma extraction_failures_witness :
  Pdf.extract_text_from_pdf (Pdf.Returns blank_page)
    = Pdf.Raised (Pdf.EmptyPDFError Pdf.no_text_message) /\
  Pdf.extract_text_from_pdf not_a_pdf
    = Pdf.Raised (Pdf.PDFExtractionError (Pdf.failed_to_read (Pdf.codes "No /Root object!"))) /\
  exists e, Pdf.failed_to_read (Pdf.codes "No /Root object!") = Pdf.failed_to_read e /\
            (not_a_pdf = Pdf.Fails e \/
             exists p, not_a_pdf = Pdf.Returns p /\
                       (Pdf.close p = Pdf.Fails e \/ Pdf.pages p = Pdf.Fails e \/
                        exists ps, Pdf.pages p = Pdf.Returns ps /\ In (Pdf.Fails e) ps)).
Proof.
  assert (Hblank : exists p ps,
             Pdf.Returns blank_page = Pdf.Returns p /\ Pdf.pages p = Pdf.Returns ps /\
             Pdf.close p = Pdf.Returns tt /\ Forall page_returns ps /\
             ((ps = [] /\ Pdf.no_text_message = Pdf.no_pages_message) \/
              (ps <> [] /\ blank ps = true /\ Pdf.no_text_message = Pdf.no_text_message))).
  { exists blank_page, [Pdf.Returns (Some "   ")].
    refine (conj eq_refl (conj eq_refl (conj eq_refl (conj _ _)))).
    - constructor; [|constructor]. now exists (Some "   ").
    - right. split; [discriminate|]. split; reflexivity. }
  assert (Hfail : Pdf.extract_text_from_pdf not_a_pdf
                  = Pdf.Raised (Pdf.PDFExtractionError
                                  (Pdf.failed_to_read (Pdf.codes "No /Root object!"))))
    by reflexivity.
  refine (conj _ (conj Hfail _)).
  - exact (proj2 (proj1 (extraction_failures (Pdf.Returns blank_page) Pdf.no_text_message))
                 Hblank).
  - exact (proj2 (extraction_failures not_a_pdf _) Hfail).
Defined.

(** the categories of the report above *)
Definition metabolic_risk : App.CategoryRisk :=
  {| App.category := "Metabolic / Diabetes"; App.r_icon := [127852%N];
     App.risk_level := "high"; App.abnormal := 1; App.total := 1 |}.

Lemma category_entry_counts_witness :
  In metabolic_risk (App._categorize_risks (matched report_53)) /\
  exists cat_info,
    In (App.category metabolic_risk, cat_info) App._RISK_CATEGORIES /\
    App.r_icon metabolic_risk = App.icon cat_info /\
    App.total metabolic_risk
      = Z.of_nat (List.length (filter (in_category cat_info) (matched report_53))) /\
    App.abnormal metabolic_risk
      = Z.of_nat (List.length (filter App.is_abnormal
                                      (filter (in_category cat_info) (matched report_53)))) /\
    1 <= App.total metabolic_risk /\
    0 <= App.abnormal metabolic_risk <= App.total metabolic_risk /\
    0 <= App.order (App.risk_level metabolic_risk) <= 3.
Proof.
  assert (H : In metabolic_risk (App._categorize_risks (matched report_53)))
    by (left; reflexivity).
  exact (conj H (category_entry_counts (matched report_53) metabolic_risk H)).
Defined.

Lemma every_test_but_psa_in_one_category_witness :
  In ("hemoglobin", hemoglobin_range) NORMAL_RANGES /\
  count_categories "hemoglobin" = 1%nat /\
  analyze [xyz_marker; glucose_118] = Ok report_53 /\
  totals (App._categorize_risks (matched report_53)) = 1.
Proof.
  destruct (every_test_but_psa_in_one_category (PF := B64.binary64)) as [Hc Ht].
  refine (conj hemoglobin_in_catalog (conj (Hc _ _ hemoglobin_in_catalog)
           (conj report_53_analyzed _))).
  exact (Ht _ _ report_53_analyzed).
Defined.

Lemma risk_level_thresholds_witness :
  (0 < 5)%nat /\ (2 <= 5)%nat /\ (5 <= 60)%nat /\
  App.level_of (PF := Exact.rational) 2 5 = "moderate" /\
  App.level_of (PF := B64.binary64) 2 5 = "moderate".
Proof.
  assert (H0 : (0 < 5)%nat) by lia.
  assert (H1 : (2 <= 5)%nat) by lia.
  assert (H2 : (5 <= 60)%nat) by lia.
  destruct (risk_level_thresholds 2 5 H0) as [Hq Hb].
  exact (conj H0 (conj H1 (conj H2 (conj Hq (Hb H1 H2))))).
Defined.





Definition matched_glucose : @AnalyzedTest B64.binary64 :=
  Eval vm_compute in
    match matched report_53 with
    | t :: _ => t
    | [] => far_above
    end.

Lemma badge_has_a_style_witness :
  analyze [xyz_marker; glucose_118] = Ok report_53 /\
  In matched_glucose (matched report_53) /\
  In (fst (App.status_badge (status matched_glucose) (severity matched_glucose)))
     App.badge_classes /\
  fst (App.status_badge (status matched_glucose) (severity matched_glucose))
    = "badge-high-moderate".
Proof.
  assert (Hin : In matched_glucose (matched report_53)) by (left; reflexivity).
  refine (conj report_53_analyzed (conj Hin (conj _ eq_refl))).
  exact (proj1 (badge_has_a_style _ _ _ report_53_analyzed Hin)).
Defined.
